(** * ResumeRanker: the two-stage ranking funnel

    A shallow embedding of the ranking core of the repository
    ([src/utils/helpers.py], [src/ranking/text_formatting.py],
    [src/ranking/bi_encoder.py], [src/ranking/llm_judge.py],
    [src/ranking/cross_encoder_llm.py]) and the properties of it that the
    design document states.

    Structured records are JSON documents handled by Python as dynamically
    typed values, so they are embedded as an inductive type of JSON values
    and every Python operation that can raise returns in an error monad.

    The external capabilities (the embedder with the cosine similarity, the
    pairwise scorer, the language model behind the Judge) are parameters:
    functions that return a value or raise.  The scores are kept in an
    abstract number type with the operations the code applies to them; it
    is instantiated with IEEE 754 binary64, which is what a Python float
    is, and with the real numbers, in which the design document reasons. *)

From Stdlib Require Import List String Ascii ZArith Bool Lia.
From Stdlib Require Import Permutation Sorted.
From Stdlib Require Import DecimalString.
From Stdlib Require Import SpecFloat.
From Stdlib Require Import Reals Lra.
Import ListNotations.

Open Scope string_scope.
Open Scope list_scope.

Set Warnings "-register-all".

(** ** Exceptions *)

(** The exceptions the modelled code can raise.  [ExternalError] stands for
    whatever an external capability (embedder, pairwise scorer, language
    model) raises. *)
Inductive exn : Type :=
| TypeError
| OverflowError
| ZeroDivisionError
| ExternalError.

Inductive result (A : Type) : Type :=
| Ok (a : A)
| Raise (e : exn).

Arguments Ok {A} a.
Arguments Raise {A} e.

Definition bind {A B : Type} (m : result A) (f : A -> result B) : result B :=
  match m with
  | Ok a => f a
  | Raise e => Raise e
  end.

Notation "x <- m ;; k" := (bind m (fun x => k))
  (at level 61, m at next level, right associativity).

Definition raises {A : Type} (m : result A) : Prop :=
  exists e, m = Raise e.

Definition returns {A : Type} (m : result A) : Prop :=
  exists a, m = Ok a.

(** [for x in xs: ...] with a body that may raise: the results in order, or
    the first exception. *)
Fixpoint mapM {A B : Type} (f : A -> result B) (xs : list A) : result (list B) :=
  match xs with
  | [] => Ok []
  | x :: rest =>
      y <- f x ;;
      ys <- mapM f rest ;;
      Ok (y :: ys)
  end.

(** ** JSON values as Python sees them *)

(** [json.load] yields [None], [bool], [int], [str], [list] and [dict] with
    string keys.  The schemas of [src/models/schema.py] have no float field
    in a job description or a resume; the scores, which are floats, are kept
    in a separate numeric type below.  A character of a Python [str] is one
    [ascii]; a [dict] is the association list of its items in insertion
    order, its keys pairwise distinct. *)
Inductive value : Type :=
| VNone
| VBool (b : bool)
| VInt (z : Z)
| VStr (s : string)
| VList (l : list value)
| VDict (d : list (string * value)).

Definition nl : string := String (ascii_of_nat 10) EmptyString.

(** [key in d] and [d[key]] for a dictionary with string keys. *)
Fixpoint dict_get (key : string) (d : list (string * value)) : option value :=
  match d with
  | [] => None
  | (k, v) :: rest => if String.eqb key k then Some v else dict_get key rest
  end.

(** Python truth value of a JSON value, as tested by [or]. *)
Definition truthy (v : value) : bool :=
  match v with
  | VNone => false
  | VBool b => b
  | VInt z => negb (Z.eqb z 0)
  | VStr s => negb (String.eqb s "")
  | VList l => match l with [] => false | _ => true end
  | VDict d => match d with [] => false | _ => true end
  end.

(** [a or b] *)
Definition py_or (a b : value) : value :=
  if truthy a then a else b.

(** ** src/utils/helpers.py *)

(** [safe_get_nested(dictionary, *keys, default=default)]:
<<
    current = dictionary
    for key in keys:
        if not isinstance(current, dict) or key not in current:
            return default
        current = current[key]
    return current or default
>> *)
Fixpoint safe_get_nested (dictionary : value) (keys : list string)
    (default : value) : value :=
  match keys with
  | [] => py_or dictionary default
  | key :: rest =>
      match dictionary with
      | VDict d =>
          match dict_get key d with
          | Some current => safe_get_nested current rest default
          | None => default
          end
      | _ => default
      end
  end.

(** Iteration over a JSON value ([for x in v], [map(str, v)], [' '.join(v)]):
    a list yields its elements, a string its characters, a dictionary its
    keys; [None], booleans and integers are not iterable. *)
Definition chars (s : string) : list value :=
  map (fun c => VStr (String c EmptyString)) (list_ascii_of_string s).

Definition py_iter (v : value) : result (list value) :=
  match v with
  | VList l => Ok l
  | VStr s => Ok (chars s)
  | VDict d => Ok (map (fun kv => VStr (fst kv)) d)
  | VNone | VBool _ | VInt _ => Raise TypeError
  end.

Definition str_of_Z (z : Z) : string :=
  NilZero.string_of_int (Z.to_int z).

Section Serializer.

(** [str()] of a list or of a dictionary is CPython's [repr] of the
    container; it is total and is taken as a parameter. *)
Variable container_repr : value -> string.

(** [str(v)] *)
Definition py_str (v : value) : string :=
  match v with
  | VNone => "None"
  | VBool true => "True"
  | VBool false => "False"
  | VInt z => str_of_Z z
  | VStr s => s
  | VList _ | VDict _ => container_repr v
  end.

(** [safe_join(items, default=default)]:
<<
    items = items or default or []
    return " ".join(map(str, items))
>> *)
Definition safe_join (items default : value) : result string :=
  let items := py_or (py_or items default) (VList []) in
  xs <- py_iter items ;;
  Ok (String.concat " " (map py_str xs)).

(** ** src/ranking/prompts.py *)

(** [resume_signal_text.format(...)]: the template with its five
    placeholders filled in. *)
Definition resume_signal_text
    (professional_summary skills job_roles_and_achivements projects
     certificates : string) : string :=
  nl ++ "Professional Summary: " ++ nl ++ professional_summary ++ nl ++
  nl ++ "Skills: " ++ nl ++ skills ++ nl ++
  nl ++ "Job Roles and Achievements: " ++ nl ++ job_roles_and_achivements ++ nl ++
  nl ++ "Projects:" ++ nl ++ projects ++ nl ++
  nl ++ "Certifications:" ++ nl ++ certificates ++ nl.

(** [job_signal_text.format(...)] *)
Definition job_signal_text
    (job_title seniority key_responsibilities required_skills required_tools
     preferred_skills preferred_tools required_experience
     domain_knowledge : string) : string :=
  nl ++ "Job Title: " ++ nl ++ job_title ++ nl ++
  nl ++ "Seniority: " ++ nl ++ seniority ++ nl ++
  nl ++ "Key Responsibilities: " ++ nl ++ key_responsibilities ++ nl ++
  nl ++ "Required Skills:" ++ nl ++ required_skills ++ nl ++
  nl ++ "Required Tools:" ++ nl ++ required_tools ++ nl ++
  nl ++ "Preferred Skills: " ++ nl ++ preferred_skills ++ nl ++
  nl ++ "Preferred Tools:" ++ nl ++ preferred_tools ++ nl ++
  nl ++ "Required Experience:" ++ nl ++ required_experience ++ nl ++
  nl ++ "Domain Knowledge:" ++ nl ++ domain_knowledge ++ nl.

(** ** src/ranking/text_formatting.py *)

Definition int_of (v : value) : Z :=
  match v with
  | VBool b => Z.b2z b
  | VInt z => z
  | _ => 0
  end.

(** [a + b]: concatenation of two lists or of two strings, addition of
    integers (a [bool] is an [int]); [TypeError] otherwise. *)
Definition py_add (a b : value) : result value :=
  match a, b with
  | VList x, VList y => Ok (VList (x ++ y))
  | VStr x, VStr y => Ok (VStr (x ++ y)%string)
  | (VBool _ | VInt _), (VBool _ | VInt _) => Ok (VInt (int_of a + int_of b))
  | _, _ => Raise TypeError
  end.

Definition as_str (v : value) : result string :=
  match v with
  | VStr s => Ok s
  | _ => Raise TypeError
  end.

(** [sep.join(v)]: every item must be a [str]. *)
Definition py_join (sep : string) (v : value) : result string :=
  xs <- py_iter v ;;
  ss <- mapM as_str xs ;;
  Ok (String.concat sep ss).

(** [format_job_description(structured_job_description)] *)
Definition format_job_description (structured_job_description : value)
    : result string :=
  let job_context :=
    safe_get_nested structured_job_description ["job_context"] (VDict []) in
  let role_description :=
    safe_get_nested structured_job_description ["role_description"] (VDict []) in
  let hard_requirements :=
    safe_get_nested structured_job_description ["hard_requirements"] (VDict []) in
  let preferred_quals :=
    safe_get_nested structured_job_description ["preferred_qualifications"]
      (VDict []) in
  let job_title := safe_get_nested job_context ["job_title"] (VStr "") in
  let seniority := safe_get_nested job_context ["seniority_level"] (VStr "") in
  key_responsibilities <-
    safe_join (safe_get_nested role_description ["key_responsibilities"] (VList []))
      VNone ;;
  required_skills <-
    safe_join (safe_get_nested hard_requirements ["must_have_skills"] (VList []))
      VNone ;;
  required_tools <-
    safe_join (safe_get_nested hard_requirements ["must_have_tools"] (VList []))
      VNone ;;
  preferred_skills <-
    safe_join (safe_get_nested preferred_quals ["preferred_skills"] (VList []))
      VNone ;;
  preferred_tools <-
    safe_join (safe_get_nested preferred_quals ["preferred_tools"] (VList []))
      VNone ;;
  required_experience <-
    safe_join
      (safe_get_nested hard_requirements ["required_experience_type"] (VList []))
      VNone ;;
  domain_knowledge <-
    safe_join (safe_get_nested role_description ["domain_knowledge"] (VList []))
      VNone ;;
  Ok (job_signal_text (py_str job_title) (py_str seniority) key_responsibilities
        required_skills required_tools preferred_skills preferred_tools
        required_experience domain_knowledge).

(** The body of [for job in work_experience]:
    [f"{role} at {company}: {' '.join(achievements)}"] *)
Definition job_role_line (job : value) : result string :=
  let company := safe_get_nested job ["company"] (VStr "") in
  let role := safe_get_nested job ["job_title"] (VStr "") in
  let achievements := safe_get_nested job ["achievements"] (VList []) in
  joined <- py_join " " achievements ;;
  Ok (py_str role ++ " at " ++ py_str company ++ ": " ++ joined)%string.

(** The body of [for proj in projects]: [f"{name}: {desc}"] *)
Definition project_line (proj : value) : string :=
  let name := safe_get_nested proj ["project_name"] (VStr "") in
  let desc := safe_get_nested proj ["description"] (VStr "") in
  (py_str name ++ ": " ++ py_str desc)%string.

(** [format_resume(candidate_data)] *)
Definition format_resume (candidate_data : value) : result string :=
  let skills_section :=
    safe_get_nested candidate_data ["skills_section"] (VDict []) in
  first_two <-
    py_add (safe_get_nested skills_section ["programming_languages"] (VList []))
           (safe_get_nested skills_section ["frameworks_and_libraries"] (VList [])) ;;
  all_skills <-
    py_add first_two
           (safe_get_nested skills_section ["platforms_and_tools"] (VList [])) ;;
  let work_experience :=
    safe_get_nested candidate_data ["work_experience"] (VList []) in
  jobs <- py_iter work_experience ;;
  job_roles <- mapM job_role_line jobs ;;
  let projects := safe_get_nested candidate_data ["projects"] (VList []) in
  projs <- py_iter projects ;;
  let project_texts := map project_line projs in
  let professional_summary :=
    safe_get_nested candidate_data ["professional_summary"] (VStr "") in
  skills <- safe_join all_skills VNone ;;
  job_roles_and_achivements <- safe_join (VList (map VStr job_roles)) VNone ;;
  projects_text <- safe_join (VList (map VStr project_texts)) VNone ;;
  certificates <-
    safe_join (safe_get_nested candidate_data ["certifications"] (VList []))
      VNone ;;
  Ok (resume_signal_text (py_str professional_summary) skills
        job_roles_and_achivements projects_text certificates).

End Serializer.


(** ** Python built-ins used by the two stages *)

(** [l[:n]]: the first [n] items for [n >= 0], all but the last [-n] items
    for [n < 0]. *)
Definition py_slice_to {A : Type} (l : list A) (n : Z) : list A :=
  if (0 <=? n)%Z then firstn (Z.to_nat n) l
  else firstn (List.length l - Z.to_nat (- n)) l.

Section Sorted.

Context {A : Type}.

(** [lt a b] is [key(a) < key(b)], the only comparison [list.sort] makes. *)
Variable lt : A -> A -> bool.

(** [count_run]: the length of the run at the head of the list, ascending
    ([lo[i] < lo[i-1]] never holds) or strictly descending (it always
    holds); [prev] is the item before [l]. *)
Fixpoint run_ascending (prev : A) (l : list A) : nat :=
  match l with
  | [] => 0
  | x :: rest => if lt x prev then 0 else S (run_ascending x rest)
  end.

Fixpoint run_descending (prev : A) (l : list A) : nat :=
  match l with
  | [] => 0
  | x :: rest => if lt x prev then S (run_descending x rest) else 0
  end.

Definition count_run (l : list A) : nat * bool :=
  match l with
  | [] => (0, false)
  | x :: rest =>
      match rest with
      | [] => (1, false)
      | y :: _ =>
          if lt y x then (S (run_descending x rest), true)
          else (S (run_ascending x rest), false)
      end
  end.

(** The binary search of [binarysort]: where [pivot] belongs among the
    items [a[l:r]] of the sorted items [a], behind the items it is not
    smaller than.  [fuel] bounds the turns of the loop, each of which
    shortens the interval: its length is enough ([bisect_fuel]). *)
Fixpoint bisect (fuel : nat) (pivot : A) (a : list A) (l r : nat) : nat :=
  match fuel with
  | O => l
  | S fuel' =>
      if (l <? r)%nat then
        let p := (l + (r - l) / 2)%nat in
        match nth_error a p with
        | Some x =>
            if lt pivot x then bisect fuel' pivot a l p
            else bisect fuel' pivot a (S p) r
        | None => l
        end
      else l
  end.

(** [binarysort]: the items of [rest], from left to right, are inserted
    into the sorted items before them. *)
Fixpoint binarysort (sorted : list A) (rest : list A) : list A :=
  match rest with
  | [] => sorted
  | pivot :: rest' =>
      let l := bisect (List.length sorted) pivot sorted 0 (List.length sorted) in
      binarysort (firstn l sorted ++ pivot :: skipn l sorted) rest'
  end.

(** [list.sort] as CPython runs it on a list of fewer than 64 items: the run
    at the head of the list, reversed if it is descending, is extended to
    the whole list by [binarysort].  (A list of fewer than two items is
    returned as it is, which this gives as well.)  A longer list CPython
    sorts run by run and merges; that gives the same list whenever [<] is a
    strict weak order on the keys, which then have one stable arrangement
    ([py_sorted_unique]), as the floats other than NaN have. *)
Definition list_sort (l : list A) : list A :=
  let '(n, descending) := count_run l in
  let run := firstn n l in
  binarysort (if descending then rev run else run) (skipn n l).

(** [sorted(l, key=key, reverse=reverse)].  With [reverse=True] CPython
    reverses the list, sorts it and reverses the result, which keeps items
    with equal keys in their input order. *)
Definition py_sorted (reverse : bool) (l : list A) : list A :=
  if reverse then rev (list_sort (rev l)) else list_sort l.

(** No item is followed by a smaller one; by a greater one. *)
Definition ascending (l : list A) : Prop :=
  StronglySorted (fun a b => lt b a = false) l.

Definition descending (l : list A) : Prop :=
  StronglySorted (fun a b => lt a b = false) l.

(** [y] ties with [x]: neither is smaller than the other. *)
Definition tied (x y : A) : bool :=
  negb (lt x y) && negb (lt y x).

(** A class of items none of which is smaller than another, such as the
    items that tie with a given one. *)
Definition tie_class (p : A -> bool) (l : list A) : Prop :=
  forall x y, In x l -> In y l -> p x = true -> p y = true -> lt x y = false.

End Sorted.

(** ** Scores *)

(** The scores are Python floats.  The code is written once over the float
    operations it uses: conversion of an integer literal, [+], [*], [/],
    unary [-], [math.exp] and [<]. *)
Class Arith (num : Type) : Type := {
  of_int : Z -> num;
  add : num -> num -> num;
  mul : num -> num -> num;
  div : num -> num -> result num;
  neg : num -> num;
  math_exp : num -> result num;
  ltb : num -> num -> bool
}.

(** ** src/models/schema.py: the judgment *)

Record MatchCriterion : Type := {
  criterion : string;
  is_match : bool;
  comment : string
}.

Record LLMJudgment (num : Type) : Type := {
  detailed_analysis : string;
  pros : list string;
  cons : list string;
  final_score : num;
  match_criteria : list MatchCriterion
}.

Arguments detailed_analysis {num} _.
Arguments pros {num} _.
Arguments cons {num} _.
Arguments final_score {num} _.
Arguments match_criteria {num} _.

(** An item of the Stage 1 ranking:
    [{"candidate_name": candidate_name, "rank": score}] *)
Record ranking_entry (num : Type) : Type := {
  candidate_name : value;
  rank : num
}.

Arguments candidate_name {num} _.
Arguments rank {num} _.

(** An item of [llm_results]: [{"candidate_name": name, **llm_judgement}],
    where [llm_judgement] is either [{}] ([None] here) or the fields of an
    [LLMJudgment]. *)
Record llm_result (num : Type) : Type := {
  llm_name : value;
  llm_judgement : option (LLMJudgment num)
}.

Arguments llm_name {num} _.
Arguments llm_judgement {num} _.

(** An item of [cross_encoder_scores]:
    [{"candidate_name": name, "cross_encoder_score": score}] *)
Record cross_result (num : Type) : Type := {
  cross_name : value;
  cross_encoder_score : num
}.

Arguments cross_name {num} _.
Arguments cross_encoder_score {num} _.

(** An item of the Stage 2 ranking.  [llm_analysis] is the matching item of
    [llm_results], or [{}] ([None] here). *)
Record fusion_entry (num : Type) : Type := {
  fused_name : value;
  llm_score : num;
  cross_score : num;
  combined_score : num;
  llm_analysis : option (llm_result num)
}.

Arguments fused_name {num} _.
Arguments llm_score {num} _.
Arguments cross_score {num} _.
Arguments combined_score {num} _.
Arguments llm_analysis {num} _.

(** ** Dictionary keyed by candidate name *)

(** [safe_get_nested(c, "contact_info", "name")], the key under which
    Stage 2 files a candidate record. *)
Definition record_name (candidate_data : value) : value :=
  safe_get_nested candidate_data ["contact_info"; "name"] VNone.

(** [safe_get_nested(candidate_data, "contact_info", "name",
    default="Unknown Candidate")], the identity Stage 1 gives a candidate. *)
Definition identity (candidate_data : value) : value :=
  safe_get_nested candidate_data ["contact_info"; "name"]
    (VStr "Unknown Candidate").

(** Lists and dictionaries are unhashable. *)
Definition hashable (v : value) : bool :=
  match v with
  | VList _ | VDict _ => false
  | _ => true
  end.

(** [a == b] on hashable JSON values ([True == 1] and [False == 0]). *)
Definition key_eqb (a b : value) : bool :=
  match a, b with
  | VNone, VNone => true
  | VStr x, VStr y => String.eqb x y
  | (VBool _ | VInt _), (VBool _ | VInt _) => Z.eqb (int_of a) (int_of b)
  | _, _ => false
  end.

(** [d[k] = v]: an existing key keeps its place and is given the new value. *)
Fixpoint dict_set (k v : value) (d : list (value * value)) : list (value * value) :=
  match d with
  | [] => [(k, v)]
  | (k', v') :: rest =>
      if key_eqb k k' then (k', v) :: rest else (k', v') :: dict_set k v rest
  end.

Fixpoint dict_find (k : value) (d : list (value * value)) : option value :=
  match d with
  | [] => None
  | (k', v') :: rest => if key_eqb k k' then Some v' else dict_find k rest
  end.

(** [d[k] if k in d else None]; hashing an unhashable [k] raises. *)
Definition dict_lookup (k : value) (d : list (value * value)) : result (option value) :=
  if hashable k then Ok (dict_find k d) else Raise TypeError.

(** [{safe_get_nested(c, "contact_info", "name"): c for c in structured_resumes}] *)
Fixpoint index_by_name (structured_resumes : list value)
    (d : list (value * value)) : result (list (value * value)) :=
  match structured_resumes with
  | [] => Ok d
  | c :: rest =>
      let k := record_name c in
      if hashable k then index_by_name rest (dict_set k c d)
      else Raise TypeError
  end.

(** ** The two stages *)

(** The items that are present. *)
Fixpoint somes {A : Type} (l : list (option A)) : list A :=
  match l with
  | [] => []
  | Some x :: rest => x :: somes rest
  | None :: rest => somes rest
  end.

(** [enumerate(l, start)]: the items with their numbers. *)
Fixpoint enumerate {A : Type} (start : nat) (l : list A) : list (nat * A) :=
  match l with
  | [] => []
  | x :: rest => (start, x) :: enumerate (S start) rest
  end.

Section Funnel.

Context {num : Type} {arith : Arith num}.

Variable container_repr : value -> string.

(** The Embedder followed by the cosine similarity:
    [bi_encoder_model.encode([job, resume])] and the [.item()] of
    [util.pytorch_cos_sim] of the two embeddings. *)
Variable similarity : string -> string -> result num.

(** The PairwiseScorer:
    [float(cross_encoder_model.predict([(job_text, resume_text)])[0])] *)
Variable predict : string -> string -> result num.

(** The Judge: the request to the language model inside the [try] of
    [llm_as_a_judge], its reply parsed against [LLMJudgment].  Two requests
    for one record need not have the same outcome, so a request is told
    apart by the turn of the loop over the top names that makes it:
    [judge i job resume] is the outcome of the request of turn [i]. *)
Variable judge : nat -> value -> value -> result (LLMJudgment num).

(** *** src/ranking/bi_encoder.py *)

(** The body of [for candidate_data in structured_candidate_resumes] *)
Definition similarity_entry (job_des_text : string) (candidate_data : value)
    : result (ranking_entry num) :=
  resume_text <- format_resume container_repr candidate_data ;;
  score <- similarity job_des_text resume_text ;;
  let name := identity candidate_data in
  Ok {| candidate_name := name; rank := score |}.

Definition by_rank (a b : ranking_entry num) : bool := ltb (rank a) (rank b).

(** [bi_encoder_resume_filtering(structured_job_description,
     structured_candidate_resumes, bi_encoder_model)] *)
Definition bi_encoder_resume_filtering (structured_job_description : value)
    (structured_candidate_resumes : list value)
    : result (list (ranking_entry num)) :=
  job_des_text <- format_job_description container_repr structured_job_description ;;
  results <- mapM (similarity_entry job_des_text) structured_candidate_resumes ;;
  Ok (py_sorted by_rank true results).

(** *** src/ranking/llm_judge.py *)

(** [llm_as_a_judge(client, job_requirements, resume_info)], called in turn
    [request]: any exception of the request is caught and [{}] is
    returned. *)
Definition llm_as_a_judge (request : nat) (job_requirements resume_info : value)
    : option (LLMJudgment num) :=
  match judge request job_requirements resume_info with
  | Ok judgment => Some judgment
  | Raise _ => None
  end.

(** *** src/ranking/cross_encoder_llm.py *)

(** [(1 / (1 + math.exp(-raw_score))) * 10.0] *)
Definition rescale (raw_score : num) : result num :=
  e <- math_exp (neg raw_score) ;;
  sigmoid <- div (of_int 1) (add (of_int 1) e) ;;
  Ok (mul sigmoid (of_int 10)).

(** The first loop, [for name in top_candidate_names], with its two
    accumulators; [request] counts the turns. *)
Fixpoint score_candidates (structured_job_description : value)
    (job_text : string) (candidate_data_by_name : list (value * value))
    (request : nat) (names : list value)
    (llm_results : list (llm_result num))
    (cross_encoder_scores : list (cross_result num))
    : result (list (llm_result num) * list (cross_result num)) :=
  match names with
  | [] => Ok (llm_results, cross_encoder_scores)
  | name :: rest =>
      found <- dict_lookup name candidate_data_by_name ;;
      match found with
      | Some candidate_data =>
          let llm_judgement :=
            llm_as_a_judge request structured_job_description candidate_data in
          let llm_results :=
            llm_results ++ [{| llm_name := name; llm_judgement := llm_judgement |}] in
          resume_text <- format_resume container_repr candidate_data ;;
          raw_score <- predict job_text resume_text ;;
          score <- rescale raw_score ;;
          let cross_encoder_scores :=
            cross_encoder_scores ++
            [{| cross_name := name; cross_encoder_score := score |}] in
          score_candidates structured_job_description job_text
            candidate_data_by_name (S request) rest llm_results
            cross_encoder_scores
      | None =>
          score_candidates structured_job_description job_text
            candidate_data_by_name (S request) rest llm_results
            cross_encoder_scores
      end
  end.

(** What turn [request] of the first loop appends, as a function of
    [name]: nothing for a name without a record, else the item of
    [llm_results] and the item of [cross_encoder_scores]. *)
Definition score_candidate (structured_job_description : value)
    (job_text : string) (candidate_data_by_name : list (value * value))
    (request : nat) (name : value)
    : result (option (llm_result num * cross_result num)) :=
  found <- dict_lookup name candidate_data_by_name ;;
  match found with
  | Some candidate_data =>
      resume_text <- format_resume container_repr candidate_data ;;
      raw_score <- predict job_text resume_text ;;
      score <- rescale raw_score ;;
      Ok (Some ({| llm_name := name;
                   llm_judgement :=
                     llm_as_a_judge request structured_job_description
                       candidate_data |},
                {| cross_name := name; cross_encoder_score := score |}))
  | None => Ok None
  end.

(** What turn [request] of the first loop records for a name whose record
    is [candidate_data]: the judgment the request of this turn gives of the
    record, and the rescaled pairwise score of the record. *)
Definition scored_from (job : value) (job_text : string) (request : nat)
    (candidate_data : value) (lr : llm_result num) (cr : cross_result num)
    : Prop :=
  llm_judgement lr = llm_as_a_judge request job candidate_data /\
  exists text raw,
    format_resume container_repr candidate_data = Ok text /\
    predict job_text text = Ok raw /\
    rescale raw = Ok (cross_encoder_score cr).

(** [llm_result.get("final_score", 0)] *)
Definition get_final_score (r : option (llm_result num)) : num :=
  match r with
  | Some {| llm_judgement := Some judgment |} => final_score judgment
  | _ => of_int 0
  end.

(** [cross_result.get("cross_encoder_score", 0)] *)
Definition get_cross_encoder_score (r : option (cross_result num)) : num :=
  match r with
  | Some s => cross_encoder_score s
  | None => of_int 0
  end.

(** The body of the second loop, [for name in top_candidate_names]. *)
Definition combine (llm_results : list (llm_result num))
    (cross_encoder_scores : list (cross_result num))
    (llm_weight cross_encoder_weight : num) (name : value)
    : fusion_entry num :=
  let llm_result := find (fun r => key_eqb (llm_name r) name) llm_results in
  let cross_result :=
    find (fun s => key_eqb (cross_name s) name) cross_encoder_scores in
  let llm_score := get_final_score llm_result in
  let cross_score := get_cross_encoder_score cross_result in
  let combined_score :=
    add (mul llm_score llm_weight) (mul cross_score cross_encoder_weight) in
  {| fused_name := name;
     llm_score := llm_score;
     cross_score := cross_score;
     combined_score := combined_score;
     llm_analysis := llm_result |}.

Definition by_combined (a b : fusion_entry num) : bool :=
  ltb (combined_score a) (combined_score b).

(** [score_and_rank(client, bi_encoder_ranking, structured_resumes,
     structured_job_description, cross_encoder_model, top_n, llm_weight,
     cross_encoder_weight)] *)
Definition score_and_rank (bi_encoder_ranking : list (ranking_entry num))
    (structured_resumes : list value) (structured_job_description : value)
    (top_n : Z) (llm_weight cross_encoder_weight : num)
    : result (list (fusion_entry num)) :=
  let top_candidates := py_slice_to bi_encoder_ranking top_n in
  let top_candidate_names := map candidate_name top_candidates in
  candidate_data_by_name <- index_by_name structured_resumes [] ;;
  job_text <- format_job_description container_repr structured_job_description ;;
  scored <-
    score_candidates structured_job_description job_text candidate_data_by_name
      0 top_candidate_names [] [] ;;
  let '(llm_results, cross_encoder_scores) := scored in
  let combined_results :=
    map (combine llm_results cross_encoder_scores llm_weight cross_encoder_weight)
      top_candidate_names in
  Ok (py_sorted by_combined true combined_results).

End Funnel.

(** ** Two number systems *)

(** *** IEEE 754 binary64, the Python [float] *)

Module B64.

Definition prec : Z := 53.
Definition emax : Z := 1024.

Definition of_Z (z : Z) : spec_float := binary_normalize prec emax z 0 false.

(** The double nearest to the fraction [n / d] of two integers that are
    themselves doubles; this is how a decimal literal such as [0.7] is read
    ([decimal 7 10]). *)
Definition decimal (n d : Z) : spec_float := SFdiv prec emax (of_Z n) (of_Z d).

(** [x / y] raises [ZeroDivisionError] when [y] is a zero. *)
Definition fdiv (x y : spec_float) : result spec_float :=
  match y with
  | S754_zero _ => Raise ZeroDivisionError
  | _ => Ok (SFdiv prec emax x y)
  end.

Definition finite (x : spec_float) : bool :=
  match x with
  | S754_zero _ | S754_finite _ _ _ => true
  | S754_infinity _ | S754_nan => false
  end.

Definition is_nan (x : spec_float) : bool :=
  match x with
  | S754_nan => true
  | _ => false
  end.

(** [x] is a double (its mantissa and exponent are those of binary64) that
    is positive or zero: a zero of either sign, a positive finite double or
    the positive infinity. *)
Definition nonneg (x : spec_float) : bool :=
  valid_binary prec emax x && SFleb (S754_zero false) x.

(** [math.exp] is the C library's; it is a parameter of the instance. *)
Definition arith (libm_exp : spec_float -> result spec_float) : Arith spec_float :=
  {| of_int := of_Z;
     add := SFadd prec emax;
     mul := SFmul prec emax;
     div := fdiv;
     neg := SFopp;
     math_exp := libm_exp;
     ltb := SFltb |}.

End B64.

(** *** Exact real arithmetic *)

Module Exact.

Definition rdiv (x y : R) : result R :=
  if Req_dec_T y 0 then Raise ZeroDivisionError else Ok (x / y)%R.

Definition rltb (x y : R) : bool :=
  if Rlt_dec x y then true else false.

Definition arith : Arith R :=
  {| of_int := IZR;
     add := Rplus;
     mul := Rmult;
     div := rdiv;
     neg := Ropp;
     math_exp := fun x => Ok (exp x);
     ltb := rltb |}.

End Exact.

(** *** Correct rounding in binary64

    What the operations of [SpecFloat] compute, stated on integers: the
    vocabulary of the bounds on the scores. *)

Section Rounding64.

Local Open Scope Z_scope.

(** The integer nearest to [N / D], the even one when two are as near. *)
Definition rneq (N D : Z) : Z :=
  let q := N / D in
  let r := N mod D in
  match 2 * r ?= D with
  | Lt => q
  | Eq => if Z.even q then q else q + 1
  | Gt => q + 1
  end.

(** The record [mrs] holds the mantissa, the round bit and the sticky bit
    of the quotient [N / P]. *)
Definition shr_inv (N P : Z) (mrs : shr_record) : Prop :=
  0 <= shr_m mrs /\
  exists t,
    2 * N = (2 * shr_m mrs + Z.b2z (shr_r mrs)) * P + t /\
    0 <= t < P /\
    shr_s mrs = negb (t =? 0).

(** The location of [N / D] between the integers [q] and [q + 1], from the
    remainder [r]. *)
Definition loc_of (r D : Z) : location :=
  if r =? 0 then loc_Exact else loc_Inexact (2 * r ?= D).

(** The double of mantissa [M] (at most [2^53]) and exponent [E]. *)
Definition round_fin (M E : Z) : spec_float :=
  match M with
  | Zpos m =>
      if M <? 2 ^ 53 then
        if E <=? 971 then S754_finite false m E else S754_infinity false
      else if E + 1 <=? 971 then S754_finite false 4503599627370496 (E + 1)
      else S754_infinity false
  | _ => S754_zero false
  end.

(** The double nearest to [N / D * 2^-2148], for [N >= 0] and [D > 0]; ties
    go to the even mantissa and what exceeds the largest double goes to
    infinity. *)
Definition rndq (N D : Z) : spec_float :=
  let E := fexp B64.prec B64.emax (Zdigits2 (N / D) - 2148) in
  round_fin (rneq N (2 ^ (E + 2148) * D)) E.

(** The value of a finite non-negative double, in units of [2^-1074]. *)
Definition val64 (x : spec_float) : Z :=
  match x with
  | S754_finite _ m e => Zpos m * 2 ^ (e + 1074)
  | _ => 0
  end.

End Rounding64.


(** ** Vocabulary of the properties *)

(** How many items of a Stage 1 ranking carry [name]. *)
Definition count_name {num : Type} (name : value)
    (ranking : list (ranking_entry num)) : nat :=
  List.length (filter (fun e => key_eqb (candidate_name e) name) ranking).

(** [<] is a strict weak order on the listed scores: it is asymmetric and
    "not smaller than" is transitive.  This holds of floats that are not
    NaN. *)
Definition strict_weak_on {num : Type} {arith : Arith num} (scores : list num)
    : Prop :=
  (forall x y, In x scores -> In y scores -> ltb x y = true -> ltb y x = false) /\
  (forall x y z, In x scores -> In y scores -> In z scores ->
     ltb x z = true -> ltb x y = true \/ ltb y z = true).

(** The candidate has no usable name: [contact_info.name] is missing, null
    or the empty string. *)
Definition nameless (candidate_data : value) : bool :=
  match candidate_data with
  | VDict d =>
      match dict_get "contact_info" d with
      | Some (VDict contact_info) =>
          match dict_get "name" contact_info with
          | None | Some VNone | Some (VStr "") => true
          | Some _ => false
          end
      | _ => true
      end
  | _ => true
  end.

(** ** Shapes of the structured records *)

(** A field of a record is admissible when it is missing, null, or holds a
    value of the expected kind. *)
Definition field_ok (ok : value -> bool) (d : list (string * value))
    (key : string) : bool :=
  match dict_get key d with
  | None => true
  | Some VNone => true
  | Some v => ok v
  end.

Definition is_list (v : value) : bool :=
  match v with
  | VList _ => true
  | _ => false
  end.

Definition is_str (v : value) : bool :=
  match v with
  | VStr _ => true
  | _ => false
  end.

Definition is_str_list (v : value) : bool :=
  match v with
  | VList l => forallb is_str l
  | _ => false
  end.

Definition is_dict (v : value) : bool :=
  match v with
  | VDict _ => true
  | _ => false
  end.

(** Where a record is expected, the fields of a record are checked by
    [fields]; anything that is not a record is read as having no fields. *)
Definition record_ok (fields : list (string * value) -> bool) (v : value) : bool :=
  match v with
  | VDict d => fields d
  | _ => true
  end.

Definition skills_ok : value -> bool :=
  record_ok (fun d =>
    field_ok is_list d "programming_languages" &&
    field_ok is_list d "frameworks_and_libraries" &&
    field_ok is_list d "platforms_and_tools").

Definition job_entry_ok : value -> bool :=
  record_ok (fun d => field_ok is_str_list d "achievements").

Definition work_experience_ok (v : value) : bool :=
  match v with
  | VList jobs => forallb job_entry_ok jobs
  | _ => false
  end.

(** A candidate record every field of which, at every depth, is missing,
    null or of the kind [StructuredResume] gives it. *)
Definition resume_ok : value -> bool :=
  record_ok (fun d =>
    field_ok skills_ok d "skills_section" &&
    field_ok work_experience_ok d "work_experience" &&
    field_ok is_list d "projects" &&
    field_ok is_list d "certifications").

Definition role_description_ok : value -> bool :=
  record_ok (fun d =>
    field_ok is_list d "key_responsibilities" &&
    field_ok is_list d "domain_knowledge").

Definition hard_requirements_ok : value -> bool :=
  record_ok (fun d =>
    field_ok is_list d "must_have_skills" &&
    field_ok is_list d "must_have_tools" &&
    field_ok is_list d "required_experience_type").

Definition preferred_qualifications_ok : value -> bool :=
  record_ok (fun d =>
    field_ok is_list d "preferred_skills" &&
    field_ok is_list d "preferred_tools").

(** The same for a job specification ([ExtractedJobRequirements]). *)
Definition job_ok : value -> bool :=
  record_ok (fun d =>
    field_ok role_description_ok d "role_description" &&
    field_ok hard_requirements_ok d "hard_requirements" &&
    field_ok preferred_qualifications_ok d "preferred_qualifications").

(** Every place of a candidate record where [StructuredResume] has a record
    holds a record: the candidate itself, its skills section, each work
    experience and each project. *)
Definition all_dicts (v : value) : bool :=
  match v with
  | VList l => forallb is_dict l
  | _ => false
  end.

Definition records_in_place (candidate_data : value) : bool :=
  match candidate_data with
  | VDict d =>
      field_ok is_dict d "contact_info" &&
      field_ok is_dict d "skills_section" &&
      field_ok all_dicts d "work_experience" &&
      field_ok all_dicts d "projects"
  | _ => false
  end.

(** Two records with the same fields: every key is bound to the same value
    in both. *)
Definition same_fields (d1 d2 : list (string * value)) : Prop :=
  forall key, dict_get key d1 = dict_get key d2.

(** ** Inputs used in the examples *)

(** A stand-in for [str] of a container, for examples that print none. *)
Definition repr_elided (v : value) : string := "...".

(** A candidate with an empty skills list and no work experience. *)
Definition bare_candidate : value :=
  VDict [("contact_info", VDict [("name", VStr "Ada")]);
         ("professional_summary", VStr "Engineer");
         ("skills_section",
          VDict [("programming_languages", VList []);
                 ("frameworks_and_libraries", VList []);
                 ("platforms_and_tools", VList [])]);
         ("education", VList []);
         ("certifications", VList [])].

(** A candidate whose nested fields are null. *)
Definition hollow_candidate : value :=
  VDict [("contact_info", VNone);
         ("professional_summary", VNone);
         ("skills_section", VDict [("programming_languages", VNone)]);
         ("work_experience",
          VList [VDict [("company", VNone); ("achievements", VNone)]; VNone]);
         ("projects", VList [VDict [("project_name", VNone)]]);
         ("certifications", VNone)].

(** A record whose list of certifications is a number. *)
Definition odd_candidate : value :=
  VDict [("contact_info", VDict [("name", VStr "Ada")]);
         ("certifications", VInt 5)].

(** An item of [llm_results] with a judgment of the given score, and an
    item of [cross_encoder_scores]. *)
Definition judged {num : Type} (name : value) (score : num) : llm_result num :=
  {| llm_name := name;
     llm_judgement :=
       Some {| detailed_analysis := "";
               pros := [];
               cons := [];
               final_score := score;
               match_criteria := [] |} |}.

Definition scored {num : Type} (name : value) (score : num) : cross_result num :=
  {| cross_name := name; cross_encoder_score := score |}.

(** Stand-ins for the external capabilities, over binary64. *)
Module Sample.

(** [math.exp] at the arguments the examples use, correctly rounded:
    [exp(0.0) = 1.0] and [exp(-40.0) = 4.248354255291589e-18]; [exp(800.0)]
    exceeds the largest double and raises. *)
Definition exp (x : spec_float) : result spec_float :=
  if SFeqb x (B64.of_Z 0) then Ok (B64.of_Z 1)
  else if SFeqb x (B64.of_Z (-40)) then
    Ok (S754_finite false 5514679113423396 (-110))
  else if SFeqb x (B64.of_Z 800) then Raise OverflowError
  else Raise ExternalError.

Definition arith : Arith spec_float := B64.arith exp.

(** An embedder that finds a resume the more similar the longer its text. *)
Definition similarity (job_text resume_text : string) : result spec_float :=
  Ok (B64.of_Z (Z.of_nat (String.length resume_text))).

(** A pairwise scorer whose raw score is always [0.0]. *)
Definition predict (job_text resume_text : string) : result spec_float :=
  Ok (B64.of_Z 0).

Definition judgment (score : spec_float) : LLMJudgment spec_float :=
  {| detailed_analysis := "";
     pros := [];
     cons := [];
     final_score := score;
     match_criteria := [] |}.

(** A Judge that gives Ada 8, fails for Bob and gives anyone else 5, at
    every request. *)
Definition judge (request : nat) (job resume : value)
    : result (LLMJudgment spec_float) :=
  match record_name resume with
  | VStr "Ada" => Ok (judgment (B64.of_Z 8))
  | VStr "Bob" => Raise ExternalError
  | _ => Ok (judgment (B64.of_Z 5))
  end.

Definition candidate (name summary : string) : value :=
  VDict [("contact_info", VDict [("name", VStr name)]);
         ("professional_summary", VStr summary)].

Definition ada : value := candidate "Ada" "Engineer".
Definition bob : value := candidate "Bob" "Analyst".
Definition cy : value := candidate "Cy" "Chemist".

(** Two candidates without a name: an extraction that failed, and a record
    whose name is the empty string. *)
Definition anonymous1 : value := VDict [].
Definition anonymous2 : value := candidate "" "Engineer".

Definition ranked (name : string) (score : Z) : ranking_entry spec_float :=
  {| candidate_name := VStr name; rank := B64.of_Z score |}.

Definition job : value := VDict [].

Definition w07 : spec_float := B64.decimal 7 10.
Definition w03 : spec_float := B64.decimal 3 10.

Definition filtering (pool : list value) : result (list (ranking_entry spec_float)) :=
  @bi_encoder_resume_filtering _ arith repr_elided similarity job pool.

Definition fusion (bi_encoder_ranking : list (ranking_entry spec_float))
    (structured_resumes : list value) (top_n : Z)
    (llm_weight cross_encoder_weight : spec_float)
    : result (list (fusion_entry spec_float)) :=
  @score_and_rank _ arith repr_elided predict judge bi_encoder_ranking
    structured_resumes job top_n llm_weight cross_encoder_weight.

Definition items {A : Type} (r : result (list A)) : list A :=
  match r with
  | Ok l => l
  | Raise _ => []
  end.

(** Stage 1 on three named candidates, two of which tie. *)
Definition pool3 : list value := [bob; cy; ada].
Definition filtered3 : list (ranking_entry spec_float) :=
  Eval vm_compute in items (filtering pool3).

(** Stage 1 on two candidates of the same name. *)
Definition twins : list value := [ada; candidate "Ada" "Analyst"].
Definition filtered_twins : list (ranking_entry spec_float) :=
  Eval vm_compute in items (filtering twins).

(** Stage 1 on a pool with two nameless candidates. *)
Definition pool_anonymous : list value := [ada; anonymous1; anonymous2].
Definition filtered_anonymous : list (ranking_entry spec_float) :=
  Eval vm_compute in items (filtering pool_anonymous).

(** Stage 2 on three ranked candidates, the Judge failing for Bob. *)
Definition ranking3 : list (ranking_entry spec_float) :=
  [ranked "Ada" 3; ranked "Bob" 2; ranked "Cy" 1].
Definition resumes3 : list value := [ada; bob; cy].
Definition fused3 : list (fusion_entry spec_float) :=
  Eval vm_compute in items (fusion ranking3 resumes3 3 w07 w03).
Definition fused_top2 : list (fusion_entry spec_float) :=
  Eval vm_compute in items (fusion ranking3 resumes3 2 w07 w03).
Definition fused_minus1 : list (fusion_entry spec_float) :=
  Eval vm_compute in items (fusion ranking3 resumes3 (-1) w07 w03).

(** Stage 2 when the second ranked name, Zed, has no record. *)
Definition ranking_stranger : list (ranking_entry spec_float) :=
  [ranked "Ada" 3; ranked "Zed" 2].
Definition fused_stranger : list (fusion_entry spec_float) :=
  Eval vm_compute in items (fusion ranking_stranger [ada] 2 w07 w03).

(** Stage 2 on the ranking of the pool with nameless candidates. *)
Definition fused_anonymous : list (fusion_entry spec_float) :=
  Eval vm_compute in items (fusion filtered_anonymous pool_anonymous 3 w07 w03).


Definition ada_item : fusion_entry spec_float :=
  {| fused_name := VStr "Ada";
     llm_score := B64.of_Z 8;
     cross_score := B64.of_Z 5;
     combined_score := S754_finite false 7993889338582630 (-50);
     llm_analysis := Some (judged (VStr "Ada") (B64.of_Z 8)) |}.

End Sample.

(** * The rest of the repository *)

(** ** Paths through nested records *)

(** The value at the end of a path of keys, when every step finds a record
    and the key in it. *)
Fixpoint path_get (v : value) (keys : list string) : option value :=
  match keys with
  | [] => Some v
  | key :: rest =>
      match v with
      | VDict d =>
          match dict_get key d with
          | Some current => path_get current rest
          | None => None
          end
      | _ => None
      end
  end.

(** Two records bind each of the listed keys to the same value. *)
Definition agree_on (keys : list string) (d1 d2 : list (string * value)) : Prop :=
  forall key, In key keys -> dict_get key d1 = dict_get key d2.

(** The fields [format_resume] and [format_job_description] read. *)
Definition resume_keys : list string :=
  ["skills_section"; "work_experience"; "projects"; "professional_summary";
   "certifications"].

Definition job_keys : list string :=
  ["job_context"; "role_description"; "hard_requirements";
   "preferred_qualifications"].

(** ** src/models/schema.py: the structured records *)

Module Schema.

Record JobContext : Type := {
  job_title : string;
  seniority_level : string
}.

Record RoleDescription : Type := {
  key_responsibilities : list string;
  domain_knowledge : list string
}.

Record HardRequirements : Type := {
  must_have_skills : list string;
  must_have_tools : list string;
  required_experience_type : list string;
  minimum_experience_years : Z;
  required_education : list string
}.

Record PreferredQualifications : Type := {
  preferred_skills : list string;
  preferred_tools : list string;
  preferred_certifications : list string
}.

Record ExtractedJobRequirements : Type := {
  job_context : JobContext;
  role_description : RoleDescription;
  hard_requirements : HardRequirements;
  preferred_qualifications : PreferredQualifications
}.

Record ContactInfo : Type := {
  name : string;
  email : option string;
  phone : option string;
  linkedin : option string
}.

Record Education : Type := {
  institution : string;
  degree : string;
  field_of_study : string;
  graduation_year : option Z
}.

Record SkillSection : Type := {
  programming_languages : list string;
  frameworks_and_libraries : list string;
  platforms_and_tools : list string
}.

Record WorkExperience : Type := {
  company : string;
  work_title : string;
  start_date : string;
  end_date : string;
  achievements : list string;
  used_skills_and_tools : list string
}.

Record Project : Type := {
  project_name : string;
  description : string;
  technologies_used : list string
}.

Record StructuredResume : Type := {
  contact_info : ContactInfo;
  professional_summary : string;
  skills_section : SkillSection;
  work_experience : list WorkExperience;
  projects : list Project;
  education : list Education;
  certifications : list string
}.

(** *** The JSON document of a record

    What [json.loads] makes of the dump of a model: a dictionary with one
    item for each field in the order of the class, [None] for an optional
    field that is not set.  [work_title] is the field [job_title] of
    [WorkExperience]. *)

Definition strs (l : list string) : value := VList (map VStr l).

Definition opt_str (o : option string) : value :=
  match o with
  | Some s => VStr s
  | None => VNone
  end.

Definition opt_int (o : option Z) : value :=
  match o with
  | Some z => VInt z
  | None => VNone
  end.

Definition job_context_json (c : JobContext) : value :=
  VDict [("job_title", VStr (job_title c));
         ("seniority_level", VStr (seniority_level c))].

Definition role_description_json (r : RoleDescription) : value :=
  VDict [("key_responsibilities", strs (key_responsibilities r));
         ("domain_knowledge", strs (domain_knowledge r))].

Definition hard_requirements_json (h : HardRequirements) : value :=
  VDict [("must_have_skills", strs (must_have_skills h));
         ("must_have_tools", strs (must_have_tools h));
         ("required_experience_type", strs (required_experience_type h));
         ("minimum_experience_years", VInt (minimum_experience_years h));
         ("required_education", strs (required_education h))].

Definition preferred_qualifications_json (q : PreferredQualifications) : value :=
  VDict [("preferred_skills", strs (preferred_skills q));
         ("preferred_tools", strs (preferred_tools q));
         ("preferred_certifications", strs (preferred_certifications q))].

Definition job_json (j : ExtractedJobRequirements) : value :=
  VDict [("job_context", job_context_json (job_context j));
         ("role_description", role_description_json (role_description j));
         ("hard_requirements", hard_requirements_json (hard_requirements j));
         ("preferred_qualifications",
          preferred_qualifications_json (preferred_qualifications j))].

Definition contact_info_json (c : ContactInfo) : value :=
  VDict [("name", VStr (name c));
         ("email", opt_str (email c));
         ("phone", opt_str (phone c));
         ("linkedin", opt_str (linkedin c))].

Definition education_json (e : Education) : value :=
  VDict [("institution", VStr (institution e));
         ("degree", VStr (degree e));
         ("field_of_study", VStr (field_of_study e));
         ("graduation_year", opt_int (graduation_year e))].

Definition skill_section_json (k : SkillSection) : value :=
  VDict [("programming_languages", strs (programming_languages k));
         ("frameworks_and_libraries", strs (frameworks_and_libraries k));
         ("platforms_and_tools", strs (platforms_and_tools k))].

Definition work_experience_json (w : WorkExperience) : value :=
  VDict [("company", VStr (company w));
         ("job_title", VStr (work_title w));
         ("start_date", VStr (start_date w));
         ("end_date", VStr (end_date w));
         ("achievements", strs (achievements w));
         ("used_skills_and_tools", strs (used_skills_and_tools w))].

Definition project_json (p : Project) : value :=
  VDict [("project_name", VStr (project_name p));
         ("description", VStr (description p));
         ("technologies_used", strs (technologies_used p))].

Definition resume_json (r : StructuredResume) : value :=
  VDict [("contact_info", contact_info_json (contact_info r));
         ("professional_summary", VStr (professional_summary r));
         ("skills_section", skill_section_json (skills_section r));
         ("work_experience", VList (map work_experience_json (work_experience r)));
         ("projects", VList (map project_json (projects r)));
         ("education", VList (map education_json (education r)));
         ("certifications", strs (certifications r))].

(** *** The signal text of a record, field by field *)

Definition words (l : list string) : string := String.concat " " l.

Definition work_experience_line (w : WorkExperience) : string :=
  (work_title w ++ " at " ++ company w ++ ": " ++ words (achievements w))%string.

Definition project_text (p : Project) : string :=
  (project_name p ++ ": " ++ description p)%string.

Definition all_skills (k : SkillSection) : list string :=
  programming_languages k ++ frameworks_and_libraries k ++ platforms_and_tools k.

Definition resume_text (r : StructuredResume) : string :=
  resume_signal_text
    (professional_summary r)
    (words (all_skills (skills_section r)))
    (words (map work_experience_line (work_experience r)))
    (words (map project_text (projects r)))
    (words (certifications r)).

Definition job_text (j : ExtractedJobRequirements) : string :=
  job_signal_text
    (job_title (job_context j))
    (seniority_level (job_context j))
    (words (key_responsibilities (role_description j)))
    (words (must_have_skills (hard_requirements j)))
    (words (must_have_tools (hard_requirements j)))
    (words (preferred_skills (preferred_qualifications j)))
    (words (preferred_tools (preferred_qualifications j)))
    (words (required_experience_type (hard_requirements j)))
    (words (domain_knowledge (role_description j))).

End Schema.

(** ** src/utils/text_extractor.py *)

(** [str.lower] on the letters A to Z, which are the ones that decide whether
    a suffix is one of the supported extensions. *)
Definition lower_char (c : ascii) : ascii :=
  let n := nat_of_ascii c in
  if (65 <=? n)%nat && (n <=? 90)%nat then ascii_of_nat (n + 32) else c.

Fixpoint lower (s : string) : string :=
  match s with
  | EmptyString => EmptyString
  | String c rest => String (lower_char c) (lower rest)
  end.

(** A dictionary with string keys: [key in d] and [d[key]], then
    [d[key] = v], which leaves an existing key in its place. *)
Fixpoint assoc_get {A : Type} (key : string) (d : list (string * A)) : option A :=
  match d with
  | [] => None
  | (k, v) :: rest => if String.eqb key k then Some v else assoc_get key rest
  end.

Fixpoint assoc_set {A : Type} (key : string) (v : A) (d : list (string * A))
    : list (string * A) :=
  match d with
  | [] => [(key, v)]
  | (k, v') :: rest =>
      if String.eqb key k then (k, v) :: rest else (k, v') :: assoc_set key v rest
  end.

(** The three readers: [extract_text_from_pdf], [extract_text_from_docx] and
    [extract_text_from_txt]. *)
Inductive extractor : Type :=
| Pdf
| Docx
| Txt.

Definition SUPPORTED_EXTENSIONS : list (string * extractor) :=
  [(".pdf", Pdf); (".docx", Docx); (".txt", Txt); (".text", Txt)].

(** An item of [resume_folder.iterdir()], with what [pathlib] tells of it:
    [resume_file.name], [.stem], [.suffix] and [.is_file()]. *)
Record path : Type := {
  file_name : string;
  stem : string;
  suffix : string;
  is_file : bool
}.

Section TextExtractor.

(** Reading a file with one of the readers gives its text or raises. *)
Variable read : extractor -> path -> result string.

(** The loop of [load_raw_resume_texts] over [resume_files], with the
    dictionary [texts]. *)
Fixpoint load_texts (resume_files : list path) (texts : list (string * string))
    : list (string * string) :=
  match resume_files with
  | [] => texts
  | resume_file :: rest =>
      if is_file resume_file then
        let file_suffix := lower (suffix resume_file) in
        match assoc_get file_suffix SUPPORTED_EXTENSIONS with
        | Some extractor =>
            match read extractor resume_file with
            | Ok file_content =>
                load_texts rest (assoc_set (stem resume_file) file_content texts)
            | Raise _ => load_texts rest texts
            end
        | None => load_texts rest texts
        end
      else load_texts rest texts
  end.

(** [load_raw_resume_texts(resume_folder)], given the listing of the folder. *)
Definition load_raw_resume_texts (resume_files : list path)
    : list (string * string) :=
  load_texts resume_files [].

(** The file is one that [load_raw_resume_texts] keeps, and this is its
    text. *)
Definition loads (resume_file : path) : option string :=
  if is_file resume_file then
    match assoc_get (lower (suffix resume_file)) SUPPORTED_EXTENSIONS with
    | Some extractor =>
        match read extractor resume_file with
        | Ok file_content => Some file_content
        | Raise _ => None
        end
    | None => None
    end
  else None.

(** The file is one whose text is loaded. *)
Definition loaded (resume_file : path) : bool :=
  match loads resume_file with
  | Some _ => true
  | None => false
  end.

End TextExtractor.

(** ** src/extraction and main.py *)

Section Pipeline.

Context {num : Type} {arith : Arith num}.

Variable container_repr : value -> string.
Variable similarity : string -> string -> result num.
Variable predict : string -> string -> result num.
Variable judge : nat -> value -> value -> result (LLMJudgment num).
Variable read : extractor -> path -> result string.

(** The request to the language model and [json.loads] of its reply, inside
    the [try] of [extract_job_requirements] and of [extract_resume_details]. *)
Variable parse_job : string -> result value.
Variable parse_resume : string -> result value.

(** [extract_job_requirements(client, job_description)] *)
Definition extract_job_requirements (job_description : string) : value :=
  match parse_job job_description with
  | Ok result => result
  | Raise _ => VDict []
  end.

(** [extract_resume_details(client, resume)] *)
Definition extract_resume_details (resume : string) : value :=
  match parse_resume resume with
  | Ok result => result
  | Raise _ => VDict []
  end.

(** [ResumeRankingPipeline._extract_resume_details]:
    [[extract_resume_details(self.client, resume)
      for _, resume in raw_resumes.items()]] *)
Definition structured_resumes_of (resume_files : list path) : list value :=
  map (fun item => extract_resume_details (snd item))
    (load_raw_resume_texts read resume_files).

(** The file operations of the pipeline, none of which is in a [try]:
    reading the job description ([open] and [f.read()]), listing the resumes
    directory ([list(resume_folder.iterdir())]), writing each of the four
    results ([open] and [json.dump]) and opening the ranking to load it. *)
Variable read_job_description : result string.
Variable iterdir : result (list path).
Variable dump_job : value -> result unit.
Variable dump_resumes : list value -> result unit.
Variable dump_ranking : list (ranking_entry num) -> result unit.
Variable open_ranking : result unit.
Variable dump_final : list (fusion_entry num) -> result unit.

(** [ResumeRankingPipeline.run]: its four steps, from the file of the job
    description and the resumes directory to the final ranking, which is
    what the last step writes.  [json.load] in [_load_bi_encoder_ranking]
    gives back the ranking that [_filter_with_bi_encoder] wrote: its names
    are JSON values, and a float is written so that it reads back as the
    same float. *)
Definition run (top_n : Z) (llm_weights cross_encoder_weight : num)
    : result (list (fusion_entry num)) :=
  (* _extract_job_description *)
  job_description <- read_job_description ;;
  let structured_job_description := extract_job_requirements job_description in
  _ <- dump_job structured_job_description ;;
  (* _extract_resume_details *)
  resume_files <- iterdir ;;
  let structured_resumes := structured_resumes_of resume_files in
  _ <- dump_resumes structured_resumes ;;
  (* _filter_with_bi_encoder *)
  bi_encoder_ranking <-
    bi_encoder_resume_filtering container_repr similarity
      structured_job_description structured_resumes ;;
  _ <- dump_ranking bi_encoder_ranking ;;
  (* _score_and_rank *)
  _ <- open_ranking ;;
  final_ranking <-
    score_and_rank container_repr predict judge bi_encoder_ranking
      structured_resumes structured_job_description top_n llm_weights
      cross_encoder_weight ;;
  _ <- dump_final final_ranking ;;
  Ok final_ranking.

End Pipeline.

(** ** Records of the schema used in the examples *)

Module SchemaSample.

Definition job_spec : Schema.ExtractedJobRequirements :=
  {| Schema.job_context :=
       {| Schema.job_title := "Engineer"; Schema.seniority_level := "Senior" |};
     Schema.role_description :=
       {| Schema.key_responsibilities := ["Build"; "Review"];
          Schema.domain_knowledge := [] |};
     Schema.hard_requirements :=
       {| Schema.must_have_skills := ["Python"];
          Schema.must_have_tools := ["Git"];
          Schema.required_experience_type := [];
          Schema.minimum_experience_years := 2;
          Schema.required_education := ["BSc"] |};
     Schema.preferred_qualifications :=
       {| Schema.preferred_skills := [];
          Schema.preferred_tools := [];
          Schema.preferred_certifications := [] |} |}.

Definition contact (name : string) : Schema.ContactInfo :=
  {| Schema.name := name;
     Schema.email := None;
     Schema.phone := None;
     Schema.linkedin := None |}.

Definition resume (name : string) : Schema.StructuredResume :=
  {| Schema.contact_info := contact name;
     Schema.professional_summary := "Engineer";
     Schema.skills_section :=
       {| Schema.programming_languages := ["Python"; "C"];
          Schema.frameworks_and_libraries := [];
          Schema.platforms_and_tools := ["Git"] |};
     Schema.work_experience :=
       [{| Schema.company := "ACME";
           Schema.work_title := "Developer";
           Schema.start_date := "2020";
           Schema.end_date := "2024";
           Schema.achievements := ["Shipped"; "it"];
           Schema.used_skills_and_tools := ["Python"] |}];
     Schema.projects := [];
     Schema.education := [];
     Schema.certifications := [] |}.

End SchemaSample.

(** ** A resumes directory and other inputs used in the examples *)

Module PipelineSample.

Definition file (name stem suffix : string) : path :=
  {| file_name := name; stem := stem; suffix := suffix; is_file := true |}.

(** The listing of a directory: a resume kept twice under one stem, a file
    that is no resume, an extension in capitals, a sub-directory and a file
    that cannot be read. *)
Definition directory : list path :=
  [file "ada.pdf" "ada" ".pdf";
   file "notes.md" "notes" ".md";
   file "bob.TXT" "bob" ".TXT";
   {| file_name := "old.txt"; stem := "old"; suffix := ".txt"; is_file := false |};
   file "cy.docx" "cy" ".docx";
   file "ada.txt" "ada" ".txt"].

(** The same directory with one more resume, which the extraction fails on. *)
Definition directory_eve : list path :=
  directory ++ [file "eve.txt" "eve" ".txt"].

Definition read (e : extractor) (f : path) : result string :=
  if String.eqb (file_name f) "ada.pdf" then Ok "Ada, draft"
  else if String.eqb (file_name f) "ada.txt" then Ok "Ada"
  else if String.eqb (file_name f) "bob.TXT" then Ok "Bob"
  else if String.eqb (file_name f) "eve.txt" then Ok "Eve"
  else Raise ExternalError.

Definition parse_job (job_description : string) : result value :=
  Ok Sample.job.

Definition parse_resume (resume : string) : result value :=
  if String.eqb resume "Ada, draft" then Ok (Sample.candidate "Ada" "Draft")
  else if String.eqb resume "Ada" then Ok Sample.ada
  else if String.eqb resume "Bob" then Ok Sample.bob
  else Raise ExternalError.

(** File operations that succeed. *)
Definition written {A : Type} (x : A) : result unit := Ok tt.

Definition pipeline (resume_files : list path) (top_n : Z)
    : result (list (fusion_entry spec_float)) :=
  @run _ Sample.arith repr_elided Sample.similarity Sample.predict Sample.judge
    read parse_job parse_resume (Ok "Engineer wanted") (Ok resume_files)
    written written written (Ok tt) written top_n Sample.w07 Sample.w03.

Definition texts : list (string * string) :=
  Eval vm_compute in load_raw_resume_texts read directory.

Definition final : list (fusion_entry spec_float) :=
  Eval vm_compute in Sample.items (pipeline directory 5).

Definition final_eve : list (fusion_entry spec_float) :=
  Eval vm_compute in Sample.items (pipeline directory_eve 5).

(** Two records that differ in the name and the education only, and a job
    record with a field the serializer does not read. *)
Definition ada_fields : list (string * value) :=
  [("contact_info", VDict [("name", VStr "Ada")]);
   ("professional_summary", VStr "Engineer")].

Definition eve_fields : list (string * value) :=
  [("professional_summary", VStr "Engineer");
   ("education", VList [VDict [("degree", VStr "BSc")]]);
   ("contact_info", VDict [("name", VStr "Eve")])].

Definition job_fields : list (string * value) :=
  [("company", VStr "ACME")].

(** The three ranked candidates with other similarity scores. *)
Definition ranking3_flat : list (ranking_entry spec_float) :=
  [Sample.ranked "Ada" 0; Sample.ranked "Bob" 0; Sample.ranked "Cy" 0].

(** Stage 2 on the two candidates of one name. *)
Definition fused_twins : list (fusion_entry spec_float) :=
  Eval vm_compute in
    Sample.items
      (Sample.fusion Sample.filtered_twins Sample.twins 2 Sample.w07 Sample.w03).

(** Stage 1 on two candidates whose scores differ. *)
Definition pool2 : list value := [Sample.bob; Sample.ada].
Definition filtered2 : list (ranking_entry spec_float) :=
  Eval vm_compute in Sample.items (Sample.filtering pool2).

Definition job_text : string :=
  Eval vm_compute in
    match format_job_description repr_elided Sample.job with
    | Ok text => text
    | Raise _ => ""
    end.

(** An embedder that fails on the texts of odd length. *)
Definition similarity_picky (job_text resume_text : string) : result spec_float :=
  if Nat.even (String.length resume_text) then
    Ok (B64.of_Z (Z.of_nat (String.length resume_text)))
  else Raise ExternalError.

(** A pairwise scorer whose raw score is always [-800.0]. *)
Definition predict_low (job_text resume_text : string) : result spec_float :=
  Ok (B64.of_Z (-800)).



(** A Judge that agrees with the one of the examples on Ada and Bob and
    fails on everybody else. *)
Definition judge_of_two (request : nat) (job resume : value)
    : result (LLMJudgment spec_float) :=
  match record_name resume with
  | VStr "Ada" => Ok (Sample.judgment (B64.of_Z 8))
  | _ => Raise ExternalError
  end.

End PipelineSample.

(** ** Inputs with a failing request, with NaN scores and with the greatest
    scores *)

Module OddSample.

(** A Judge whose first request gives 8 and whose later requests fail. *)
Definition judge_once (request : nat) (job resume : value)
    : result (LLMJudgment spec_float) :=
  match request with
  | O => Ok (Sample.judgment (B64.of_Z 8))
  | S _ => Raise ExternalError
  end.

(** Stage 2 on the two candidates of one name, with this Judge. *)
Definition fused_twins_once : list (fusion_entry spec_float) :=
  Eval vm_compute in
    Sample.items
      (@score_and_rank _ Sample.arith repr_elided Sample.predict judge_once
         Sample.filtered_twins Sample.twins Sample.job 2 Sample.w07 Sample.w03).

(** An embedder that finds a resume the more similar the longer its text,
    and gives NaN for the texts of 104 characters, such as Bob's. *)
Definition similarity_nan (job_text resume_text : string) : result spec_float :=
  if (String.length resume_text =? 104)%nat then Ok S754_nan
  else Ok (B64.of_Z (Z.of_nat (String.length resume_text))).

Definition ann : value := Sample.candidate "Ann" "Eng".

Definition pool_nan : list value := [ann; Sample.bob; Sample.ada].

Definition filtered_nan : list (ranking_entry spec_float) :=
  Eval vm_compute in
    Sample.items
      (@bi_encoder_resume_filtering _ Sample.arith repr_elided similarity_nan
         Sample.job pool_nan).

(** A Judge whose score for Bob is NaN. *)
Definition judge_nan (request : nat) (job resume : value)
    : result (LLMJudgment spec_float) :=
  match record_name resume with
  | VStr "Ada" => Ok (Sample.judgment (B64.of_Z 8))
  | VStr "Bob" => Ok (Sample.judgment S754_nan)
  | _ => Ok (Sample.judgment (B64.of_Z 5))
  end.





Definition ranking_nan : list (ranking_entry spec_float) :=
  [Sample.ranked "Cy" 3; Sample.ranked "Bob" 2; Sample.ranked "Ada" 1].

Definition fused_nan : list (fusion_entry spec_float) :=
  Eval vm_compute in
    Sample.items
      (@score_and_rank _ Sample.arith repr_elided Sample.predict judge_nan
         ranking_nan Sample.resumes3 Sample.job 3 Sample.w07 Sample.w03).

End OddSample.

(** * Properties *)

(** ** The error monad *)

Lemma bind_Ok {A B : Type} (m : result A) (f : A -> result B) (b : B) :
  bind m f = Ok b -> exists a, m = Ok a /\ f a = Ok b.
Proof.
  destruct m as [a | e]; simpl; intros H; [eauto | discriminate].
Qed.

Ltac inv_bind H :=
  let a := fresh "a" in
  let Ha := fresh "Ha" in
  apply bind_Ok in H; destruct H as (a & Ha & H).

Lemma mapM_Forall2 {A B : Type} (f : A -> result B) (xs : list A) (ys : list B) :
  mapM f xs = Ok ys -> Forall2 (fun x y => f x = Ok y) xs ys.
Proof.
  revert ys; induction xs as [| x xs IH]; simpl; intros ys H.
  - injection H as <-. constructor.
  - inv_bind H. inv_bind H. injection H as <-. constructor; auto.
Qed.

Lemma mapM_returns {A B : Type} (f : A -> result B) (xs : list A) :
  Forall (fun x => returns (f x)) xs -> returns (mapM f xs).
Proof.
  induction 1 as [| x xs [y Hy] _ [ys Hys]]; simpl.
  - exists []. reflexivity.
  - exists (y :: ys). rewrite Hy; simpl. rewrite Hys. reflexivity.
Qed.

Lemma Forall2_map_eq {A B C : Type} (R : A -> B -> Prop) (f : A -> C) (g : B -> C)
    xs ys :
  (forall x y, R x y -> g y = f x) ->
  Forall2 R xs ys -> map g ys = map f xs.
Proof.
  intros HR; induction 1; simpl; [reflexivity |].
  f_equal; auto.
Qed.

(** ** [sorted] *)

Section SortedFacts.

Local Open Scope nat_scope.

Context {A : Type}.
Variable lt : A -> A -> bool.

Lemma insert_perm (pivot : A) (k : nat) (a : list A) :
  Permutation (firstn k a ++ pivot :: skipn k a) (pivot :: a).
Proof.
  rewrite <- (firstn_skipn k a) at 3.
  apply Permutation_sym, Permutation_middle.
Qed.

Lemma binarysort_perm (rest sorted : list A) :
  Permutation (binarysort lt sorted rest) (sorted ++ rest).
Proof.
  revert sorted. induction rest as [| pivot rest IH]; intros sorted;
    cbn [binarysort].
  - rewrite app_nil_r. apply Permutation_refl.
  - eapply perm_trans; [apply IH |].
    eapply perm_trans; [apply Permutation_app_tail, insert_perm |].
    cbn [app]. apply Permutation_middle.
Qed.

Lemma list_sort_perm (l : list A) : Permutation (list_sort lt l) l.
Proof.
  unfold list_sort. destruct (count_run lt l) as [n descending].
  eapply perm_trans; [apply binarysort_perm |].
  apply perm_trans with (firstn n l ++ skipn n l);
    [| rewrite firstn_skipn; apply Permutation_refl].
  apply Permutation_app_tail.
  destruct descending; [apply Permutation_sym, Permutation_rev |].
  apply Permutation_refl.
Qed.

Lemma py_sorted_perm (reverse : bool) (l : list A) :
  Permutation (py_sorted lt reverse l) l.
Proof.
  unfold py_sorted; destruct reverse.
  - apply perm_trans with (list_sort lt (rev l)).
    + apply Permutation_sym, Permutation_rev.
    + apply perm_trans with (rev l).
      * apply list_sort_perm.
      * apply Permutation_sym, Permutation_rev.
  - apply list_sort_perm.
Qed.

Lemma tie_class_perm (p : A -> bool) (l l' : list A) :
  Permutation l l' -> tie_class lt p l -> tie_class lt p l'.
Proof.
  intros HP H x y Hx Hy Hpx Hpy.
  apply Permutation_sym in HP.
  apply H; auto; eapply Permutation_in; eauto.
Qed.

Lemma filter_rev (p : A -> bool) (l : list A) :
  filter p (rev l) = rev (filter p l).
Proof.
  induction l as [| x l IH]; simpl; [reflexivity |].
  rewrite filter_app, IH. simpl. destruct (p x); simpl.
  - reflexivity.
  - apply app_nil_r.
Qed.

Lemma StronglySorted_app_iff (R : A -> A -> Prop) (l1 l2 : list A) :
  StronglySorted R (l1 ++ l2) <->
  StronglySorted R l1 /\ StronglySorted R l2 /\
  forall x y, In x l1 -> In y l2 -> R x y.
Proof.
  induction l1 as [| a l1 IH]; cbn [app].
  - split; [intros H | intros (_ & H & _); exact H].
    split; [constructor |]. split; [exact H |]. intros x y [].
  - split.
    + intros H. apply StronglySorted_inv in H. destruct H as [Hs Ha].
      apply IH in Hs. destruct Hs as (H1 & H2 & H12).
      rewrite Forall_app in Ha. destruct Ha as [Ha1 Ha2].
      split; [constructor; assumption |]. split; [exact H2 |].
      intros x y [<- | Hx] Hy; [| auto].
      rewrite Forall_forall in Ha2. auto.
    + intros (H1 & H2 & H12). apply StronglySorted_inv in H1.
      destruct H1 as [H1 Ha]. constructor.
      * apply IH. split; [exact H1 |]. split; [exact H2 |].
        intros x y Hx Hy. apply H12; [right |]; assumption.
      * apply Forall_app. split; [exact Ha |].
        apply Forall_forall. intros y Hy. apply H12; [left; reflexivity | exact Hy].
Qed.

Lemma StronglySorted_rev (R : A -> A -> Prop) (l : list A) :
  StronglySorted R l -> StronglySorted (fun a b => R b a) (rev l).
Proof.
  induction 1 as [| x l Hs IH Hx]; cbn [rev]; [constructor |].
  apply StronglySorted_app_iff. split; [exact IH |].
  split; [repeat constructor |].
  intros a b Ha [<- | []]. apply in_rev in Ha.
  rewrite Forall_forall in Hx. auto.
Qed.

Lemma StronglySorted_weaken (R R' : A -> A -> Prop) (l : list A) :
  (forall x y, In x l -> In y l -> R x y -> R' x y) ->
  StronglySorted R l -> StronglySorted R' l.
Proof.
  intros HR H. induction H as [| x l Hs IH Hx]; [constructor |].
  constructor.
  - apply IH. intros a b Ha Hb. apply HR; right; assumption.
  - rewrite Forall_forall in *. intros y Hy.
    apply HR; [left; reflexivity | right; exact Hy | auto].
Qed.

Lemma nth_error_cut (a : list A) (p : nat) (x : A) :
  nth_error a p = Some x ->
  firstn (S p) a = firstn p a ++ [x] /\ skipn p a = x :: skipn (S p) a.
Proof.
  revert p. induction a as [| y a IH]; intros [| p] H; try discriminate.
  - injection H as ->. split; reflexivity.
  - cbn [nth_error] in H. destruct (IH p H) as [H1 H2].
    split; [cbn [firstn app] in *; f_equal; exact H1 | exact H2].
Qed.

(** The binary search does not run out of fuel. *)
Lemma bisect_fuel (pivot : A) (a : list A) :
  forall fuel fuel' l r,
    r - l <= fuel -> r - l <= fuel' -> r <= List.length a ->
    bisect lt fuel pivot a l r = bisect lt fuel' pivot a l r.
Proof.
  induction fuel as [| fuel IH]; intros fuel' l r H H' Hr.
  - destruct fuel' as [| fuel']; [reflexivity |]. cbn [bisect].
    destruct (Nat.ltb_spec l r); [lia | reflexivity].
  - destruct fuel' as [| fuel']; cbn [bisect];
      destruct (Nat.ltb_spec l r) as [Hlt | Hge]; try reflexivity; try lia.
    assert (Hp : l <= l + (r - l) / 2 < r).
    { assert ((r - l) / 2 < r - l) by (apply Nat.div_lt; lia). lia. }
    destruct (nth_error a (l + (r - l) / 2)); [| reflexivity].
    destruct (lt pivot a0); apply IH; lia.
Qed.

(** *** Order and stability *)

(** [<] is a strict weak order on the items for which [dom] holds: it is
    asymmetric and being not smaller is transitive. *)
Variable dom : A -> Prop.
Hypothesis lt_asym :
  forall x y, dom x -> dom y -> lt x y = true -> lt y x = false.
Hypothesis lt_negtrans :
  forall x y z, dom x -> dom y -> dom z ->
    lt x z = true -> lt x y = true \/ lt y z = true.

Lemma bisect_spec (pivot : A) (a : list A) :
  dom pivot -> Forall dom a -> ascending lt a ->
  forall fuel l r,
    r - l <= fuel -> l <= r <= List.length a ->
    Forall (fun x => lt pivot x = false) (firstn l a) ->
    Forall (fun x => lt pivot x = true) (skipn r a) ->
    Forall (fun x => lt pivot x = false) (firstn (bisect lt fuel pivot a l r) a) /\
    Forall (fun x => lt pivot x = true) (skipn (bisect lt fuel pivot a l r) a).
Proof.
  intros Hp Ha Hs. rewrite Forall_forall in Ha.
  induction fuel as [| fuel IH]; intros l r Hf Hlr Hl Hr; cbn [bisect].
  - replace r with l in Hr by lia. split; assumption.
  - destruct (Nat.ltb_spec l r) as [Hlt | Hge];
      [| replace r with l in Hr by lia; split; assumption].
    set (p := l + (r - l) / 2).
    assert (Hpr : l <= p < r).
    { unfold p. assert ((r - l) / 2 < r - l) by (apply Nat.div_lt; lia). lia. }
    destruct (nth_error a p) as [x |] eqn:Hx;
      [| apply nth_error_None in Hx; lia].
    destruct (nth_error_cut a p x Hx) as [Hc1 Hc2].
    assert (Hin : In x a) by (eapply nth_error_In; eauto).
    assert (Hsplit : a = firstn p a ++ x :: skipn (S p) a).
    { rewrite <- Hc2. symmetry. apply firstn_skipn. }
    unfold ascending in Hs. rewrite Hsplit in Hs.
    apply StronglySorted_app_iff in Hs. destruct Hs as (Hs1 & Hs2 & Hs12).
    apply StronglySorted_inv in Hs2. destruct Hs2 as [_ Hxs].
    rewrite Forall_forall in Hxs.
    destruct (lt pivot x) eqn:Hpx.
    + apply IH; try lia; [exact Hl |].
      rewrite Hc2. constructor; [exact Hpx |].
      apply Forall_forall. intros y Hy.
      assert (Hya : In y a).
      { rewrite Hsplit. apply in_or_app. right. right. exact Hy. }
      destruct (lt_negtrans pivot y x) as [H | H]; auto.
      rewrite (Hxs y Hy) in H. discriminate.
    + apply IH; try lia; [| exact Hr].
      rewrite Hc1. apply Forall_app. split; [| repeat constructor; exact Hpx].
      apply Forall_forall. intros y Hy.
      assert (Hya : In y a).
      { rewrite Hsplit. apply in_or_app. left. exact Hy. }
      destruct (lt pivot y) eqn:Hpy; [| reflexivity].
      destruct (lt_negtrans pivot x y) as [H | H]; auto; [congruence |].
      rewrite (Hs12 y x Hy (or_introl eq_refl)) in H. discriminate.
Qed.

Lemma insert_ascending (pivot : A) (a : list A) (k : nat) :
  dom pivot -> Forall dom a -> ascending lt a ->
  Forall (fun x => lt pivot x = false) (firstn k a) ->
  Forall (fun x => lt pivot x = true) (skipn k a) ->
  ascending lt (firstn k a ++ pivot :: skipn k a).
Proof.
  intros Hp Ha Hs H1 H2. rewrite Forall_forall in Ha, H1, H2.
  unfold ascending in *. rewrite <- (firstn_skipn k a) in Hs.
  apply StronglySorted_app_iff in Hs. destruct Hs as (Hs1 & Hs2 & Hs12).
  apply StronglySorted_app_iff. split; [exact Hs1 |]. split.
  - constructor; [exact Hs2 |]. apply Forall_forall. intros y Hy.
    apply lt_asym; auto. apply Ha. rewrite <- (firstn_skipn k a).
    apply in_or_app. right. exact Hy.
  - intros x y Hx [<- | Hy]; auto.
Qed.

Lemma binarysort_ascending (rest sorted : list A) :
  Forall dom sorted -> Forall dom rest -> ascending lt sorted ->
  ascending lt (binarysort lt sorted rest).
Proof.
  revert sorted. induction rest as [| pivot rest IH]; intros sorted Hd Hr Hs;
    cbn [binarysort]; [exact Hs |].
  inversion Hr as [| ? ? Hp Hr']; subst.
  destruct (bisect_spec pivot sorted Hp Hd Hs (List.length sorted) 0
              (List.length sorted)) as [H1 H2]; try lia.
  - constructor.
  - rewrite skipn_all. constructor.
  - apply IH; [| exact Hr' |].
    + apply Forall_app. split.
      * apply Forall_forall. intros x Hx. rewrite Forall_forall in Hd.
        apply Hd. rewrite <- (firstn_skipn (bisect lt (List.length sorted) pivot sorted 0
                                    (List.length sorted)) sorted).
        apply in_or_app. left. exact Hx.
      * constructor; [exact Hp |].
        apply Forall_forall. intros x Hx. rewrite Forall_forall in Hd.
        apply Hd. rewrite <- (firstn_skipn (bisect lt (List.length sorted) pivot sorted 0
                                    (List.length sorted)) sorted).
        apply in_or_app. right. exact Hx.
    + apply insert_ascending; assumption.
Qed.

Lemma insert_filter (p : A -> bool) (pivot : A) (a : list A) (k : nat) :
  Forall (fun x => lt pivot x = true) (skipn k a) ->
  tie_class lt p (pivot :: a) ->
  filter p (firstn k a ++ pivot :: skipn k a) = filter p a ++ filter p [pivot].
Proof.
  intros H2 Hc. rewrite Forall_forall in H2.
  assert (Hfa : filter p a = filter p (firstn k a) ++ filter p (skipn k a)).
  { rewrite <- filter_app, firstn_skipn. reflexivity. }
  rewrite filter_app, Hfa. cbn [filter].
  destruct (p pivot) eqn:Hpp; [| rewrite app_nil_r; reflexivity].
  assert (Hnil : filter p (skipn k a) = []).
  { destruct (filter p (skipn k a)) as [| y ys] eqn:Hf; [reflexivity |].
    exfalso. assert (Hy : In y (filter p (skipn k a))).
    { rewrite Hf. left. reflexivity. }
    apply filter_In in Hy. destruct Hy as [Hy Hpy].
    pose proof (H2 y Hy) as Hlt.
    rewrite (Hc pivot y) in Hlt; try assumption; try discriminate.
    - left. reflexivity.
    - right. rewrite <- (firstn_skipn k a). apply in_or_app. right. exact Hy. }
  rewrite Hnil, app_nil_r. reflexivity.
Qed.

Lemma binarysort_filter (p : A -> bool) (rest sorted : list A) :
  Forall dom sorted -> Forall dom rest -> ascending lt sorted ->
  tie_class lt p (sorted ++ rest) ->
  filter p (binarysort lt sorted rest) = filter p sorted ++ filter p rest.
Proof.
  revert sorted. induction rest as [| pivot rest IH]; intros sorted Hd Hr Hs Hc;
    cbn [binarysort]; [cbn [filter]; rewrite app_nil_r; reflexivity |].
  inversion Hr as [| ? ? Hp Hr']; subst.
  set (k := bisect lt (List.length sorted) pivot sorted 0 (List.length sorted)).
  destruct (bisect_spec pivot sorted Hp Hd Hs (List.length sorted) 0
              (List.length sorted)) as [H1 H2]; try lia.
  { constructor. }
  { rewrite skipn_all. constructor. }
  fold k in H1, H2.
  pose proof (insert_perm pivot k sorted) as Hperm.
  assert (Hc' : tie_class lt p ((pivot :: sorted) ++ rest)).
  { apply tie_class_perm with (sorted ++ pivot :: rest); [| exact Hc].
    cbn [app]. apply Permutation_sym, Permutation_middle. }
  rewrite IH.
  - rewrite insert_filter; [| exact H2 |].
    + rewrite <- app_assoc. cbn [filter]. destruct (p pivot); reflexivity.
    + intros x y Hx Hy. apply Hc'; apply in_or_app; left; assumption.
  - rewrite Forall_forall in *. intros x Hx.
    apply (Permutation_in _ Hperm) in Hx. destruct Hx as [<- | Hx]; auto.
  - exact Hr'.
  - apply insert_ascending; assumption.
  - apply tie_class_perm with ((pivot :: sorted) ++ rest); [| exact Hc'].
    apply Permutation_app_tail, Permutation_sym, Hperm.
Qed.

Lemma firstn_In (n : nat) (l : list A) (x : A) : In x (firstn n l) -> In x l.
Proof.
  intros H. rewrite <- (firstn_skipn n l). apply in_or_app. left. exact H.
Qed.

(** The run at the head of the list. *)
Lemma run_ascending_sorted (l : list A) :
  forall prev, dom prev -> Forall dom l ->
    ascending lt (prev :: firstn (run_ascending lt prev l) l).
Proof.
  induction l as [| x rest IH]; intros prev Hp Hl; cbn [run_ascending firstn].
  - repeat constructor.
  - inversion Hl as [| ? ? Hx Hr]; subst.
    destruct (lt x prev) eqn:Hxp; cbn [firstn]; [repeat constructor |].
    pose proof (IH x Hx Hr) as Hs. constructor; [exact Hs |].
    constructor; [exact Hxp |].
    apply StronglySorted_inv in Hs. destruct Hs as [_ Hxs].
    rewrite Forall_forall in *. intros y Hy.
    destruct (lt y prev) eqn:Hyp; [| reflexivity].
    assert (Hdy : dom y) by (apply Hr; eapply firstn_In; eauto).
    destruct (lt_negtrans y x prev) as [H | H]; auto; [| congruence].
    rewrite (Hxs y Hy) in H. discriminate.
Qed.

Lemma run_descending_sorted (l : list A) :
  forall prev, dom prev -> Forall dom l ->
    StronglySorted (fun a b => lt b a = true)
      (prev :: firstn (run_descending lt prev l) l).
Proof.
  induction l as [| x rest IH]; intros prev Hp Hl; cbn [run_descending firstn].
  - repeat constructor.
  - inversion Hl as [| ? ? Hx Hr]; subst.
    destruct (lt x prev) eqn:Hxp; cbn [firstn]; [| repeat constructor].
    pose proof (IH x Hx Hr) as Hs. constructor; [exact Hs |].
    constructor; [exact Hxp |].
    apply StronglySorted_inv in Hs. destruct Hs as [_ Hxs].
    rewrite Forall_forall in *. intros y Hy.
    assert (Hdy : dom y) by (apply Hr; eapply firstn_In; eauto).
    pose proof (Hxs y Hy) as Hyx.
    destruct (lt_negtrans y prev x) as [H | H]; auto.
    rewrite (lt_asym x prev Hx Hp Hxp) in H. discriminate.
Qed.

Lemma strictly_descending_filter (p : A -> bool) (l : list A) :
  StronglySorted (fun a b => lt b a = true) l -> tie_class lt p l ->
  filter p (rev l) = filter p l.
Proof.
  intros Hs Hc. rewrite filter_rev.
  assert (H : filter p l = [] \/ exists x, filter p l = [x]).
  { induction Hs as [| a l Hs IH Ha]; [left; reflexivity |].
    cbn [filter]. destruct (p a) eqn:Hpa.
    - right. exists a. f_equal.
      destruct (filter p l) as [| y ys] eqn:Hf; [reflexivity |]. exfalso.
      assert (Hy : In y (filter p l)) by (rewrite Hf; left; reflexivity).
      apply filter_In in Hy. destruct Hy as [Hy Hpy].
      rewrite Forall_forall in Ha. pose proof (Ha y Hy) as Hlt.
      rewrite (Hc y a) in Hlt; try assumption; try discriminate.
      + right. exact Hy.
      + left. reflexivity.
    - apply IH. intros x y Hx Hy. apply Hc; right; assumption. }
  destruct H as [-> | [x ->]]; reflexivity.
Qed.

Lemma list_sort_ascending (l : list A) :
  Forall dom l -> ascending lt (list_sort lt l).
Proof.
  intros Hl. unfold list_sort, count_run.
  destruct l as [| x rest]; [constructor |].
  inversion Hl as [| ? ? Hx Hr]; subst.
  destruct rest as [| y rest']; [repeat constructor |].
  assert (Hskip : forall n, Forall dom (skipn n (x :: y :: rest'))).
  { intros n. rewrite Forall_forall in *. intros z Hz.
    apply Hl. rewrite <- (firstn_skipn n). apply in_or_app. right. exact Hz. }
  assert (Hfirst : forall n, Forall dom (firstn n (x :: y :: rest'))).
  { intros n. rewrite Forall_forall in *. intros z Hz.
    apply Hl. rewrite <- (firstn_skipn n). apply in_or_app. left. exact Hz. }
  destruct (lt y x) eqn:Hyx.
  - apply binarysort_ascending; [| apply Hskip |].
    + rewrite Forall_forall. intros z Hz. apply in_rev in Hz.
      pose proof (Hfirst (S (run_descending lt x (y :: rest')))) as H.
      rewrite Forall_forall in H. auto.
    + pose proof (run_descending_sorted (y :: rest') x Hx Hr) as Hs.
      change (x :: firstn (run_descending lt x (y :: rest')) (y :: rest'))
        with (firstn (S (run_descending lt x (y :: rest'))) (x :: y :: rest')) in Hs.
      apply StronglySorted_rev in Hs.
      eapply StronglySorted_weaken; [| exact Hs]. cbn beta.
      intros a b Ha Hb Hab. apply in_rev in Ha, Hb.
      pose proof (Hfirst (S (run_descending lt x (y :: rest')))) as H.
      rewrite Forall_forall in H. apply lt_asym; auto.
  - apply binarysort_ascending; [apply Hfirst | apply Hskip |].
    apply (run_ascending_sorted (y :: rest') x Hx Hr).
Qed.

Lemma list_sort_filter (p : A -> bool) (l : list A) :
  Forall dom l -> tie_class lt p l -> filter p (list_sort lt l) = filter p l.
Proof.
  intros Hl Hc. unfold list_sort, count_run.
  destruct l as [| x rest]; [reflexivity |].
  inversion Hl as [| ? ? Hx Hr]; subst.
  destruct rest as [| y rest']; [reflexivity |].
  assert (Hskip : forall n, Forall dom (skipn n (x :: y :: rest'))).
  { intros n. rewrite Forall_forall in *. intros z Hz.
    apply Hl. rewrite <- (firstn_skipn n). apply in_or_app. right. exact Hz. }
  assert (Hfirst : forall n, Forall dom (firstn n (x :: y :: rest'))).
  { intros n. rewrite Forall_forall in *. intros z Hz.
    apply Hl. rewrite <- (firstn_skipn n). apply in_or_app. left. exact Hz. }
  assert (Hcut : forall n,
            filter p (firstn n (x :: y :: rest')) ++
            filter p (skipn n (x :: y :: rest')) = filter p (x :: y :: rest')).
  { intros n. rewrite <- filter_app, firstn_skipn. reflexivity. }
  destruct (lt y x) eqn:Hyx.
  - set (n := S (run_descending lt x (y :: rest'))).
    pose proof (run_descending_sorted (y :: rest') x Hx Hr) as Hs.
    change (x :: firstn (run_descending lt x (y :: rest')) (y :: rest'))
      with (firstn n (x :: y :: rest')) in Hs.
    assert (Hcn : tie_class lt p (firstn n (x :: y :: rest'))).
    { intros a b Ha Hb. apply Hc; rewrite <- (firstn_skipn n);
        apply in_or_app; left; assumption. }
    rewrite binarysort_filter.
    + rewrite (strictly_descending_filter p _ Hs Hcn). apply Hcut.
    + rewrite Forall_forall. intros z Hz. apply in_rev in Hz.
      pose proof (Hfirst n) as H. rewrite Forall_forall in H. auto.
    + apply Hskip.
    + apply StronglySorted_rev in Hs.
      eapply StronglySorted_weaken; [| exact Hs]. cbn beta.
      intros a b Ha Hb Hab. apply in_rev in Ha, Hb.
      pose proof (Hfirst n) as H. rewrite Forall_forall in H.
      apply lt_asym; auto.
    + apply tie_class_perm with (x :: y :: rest'); [| exact Hc].
      rewrite <- (firstn_skipn n (x :: y :: rest')) at 1.
      apply Permutation_app_tail, Permutation_rev.
  - set (n := S (run_ascending lt x (y :: rest'))).
    rewrite binarysort_filter.
    + apply Hcut.
    + apply Hfirst.
    + apply Hskip.
    + apply (run_ascending_sorted (y :: rest') x Hx Hr).
    + rewrite firstn_skipn. exact Hc.
Qed.

Lemma ascending_rev (l : list A) : ascending lt l -> descending lt (rev l).
Proof.
  intros H. apply (StronglySorted_rev _ _ H).
Qed.

Lemma py_sorted_descending (l : list A) :
  Forall dom l -> descending lt (py_sorted lt true l).
Proof.
  intros Hl. unfold py_sorted. apply ascending_rev, list_sort_ascending.
  rewrite Forall_forall in *. intros x Hx. apply Hl, in_rev, Hx.
Qed.

Lemma py_sorted_filter (p : A -> bool) (reverse : bool) (l : list A) :
  Forall dom l -> tie_class lt p l ->
  filter p (py_sorted lt reverse l) = filter p l.
Proof.
  intros Hl Hc. unfold py_sorted; destruct reverse.
  - rewrite filter_rev, list_sort_filter, filter_rev, rev_involutive; auto.
    + rewrite Forall_forall in *. intros x Hx. apply Hl, in_rev, Hx.
    + apply tie_class_perm with l; [apply Permutation_rev | exact Hc].
  - apply list_sort_filter; assumption.
Qed.

(** *** The stable arrangement is unique

    On a strict weak order there is one arrangement of the items by
    descending key with ties in input order, so every stable sort gives
    what [py_sorted] gives, whatever its length and its algorithm. *)

Lemma tied_class (x : A) (l : list A) :
  dom x -> Forall dom l -> tie_class lt (tied lt x) l.
Proof.
  intros Hx Hl a b Ha Hb Hta Htb. rewrite Forall_forall in Hl.
  unfold tied in *. apply andb_prop in Hta, Htb.
  destruct Hta as [_ Hax], Htb as [Hxb _]. apply negb_true_iff in Hax, Hxb.
  destruct (lt a b) eqn:Hab; [| reflexivity].
  destruct (lt_negtrans a x b) as [H | H]; auto; congruence.
Qed.

Lemma lt_irrefl (x : A) : dom x -> lt x x = false.
Proof.
  intros Hx. destruct (lt x x) eqn:H; [| reflexivity].
  rewrite (lt_asym x x Hx Hx H) in H. discriminate.
Qed.

Lemma stable_ascending_unique (out1 : list A) :
  forall out2,
    Forall dom out1 -> Permutation out1 out2 ->
    ascending lt out1 -> ascending lt out2 ->
    (forall x, In x out1 -> filter (tied lt x) out1 = filter (tied lt x) out2) ->
    out1 = out2.
Proof.
  induction out1 as [| h1 t1 IH]; intros out2 Hd HP H1 H2 Hf.
  - apply Permutation_nil in HP. congruence.
  - destruct out2 as [| h2 t2];
      [apply Permutation_sym, Permutation_nil in HP; discriminate |].
    inversion Hd as [| ? ? Hh1 Ht1]; subst.
    apply StronglySorted_inv in H1, H2.
    destruct H1 as [Hs1 Hm1], H2 as [Hs2 Hm2].
    rewrite Forall_forall in Hm1, Hm2.
    assert (Hh : h1 = h2).
    { assert (H21 : lt h2 h1 = false).
      { assert (Hin : In h2 (h1 :: t1)).
        { apply (Permutation_in _ (Permutation_sym HP)). left. reflexivity. }
        destruct Hin as [<- | Hin]; [apply lt_irrefl, Hh1 | auto]. }
      assert (H12 : lt h1 h2 = false).
      { assert (Hin : In h1 (h2 :: t2)).
        { apply (Permutation_in _ HP). left. reflexivity. }
        destruct Hin as [<- | Hin]; [apply lt_irrefl, Hh1 | auto]. }
      assert (T11 : tied lt h1 h1 = true).
      { unfold tied. rewrite (lt_irrefl h1 Hh1). reflexivity. }
      assert (T12 : tied lt h1 h2 = true).
      { unfold tied. rewrite H12, H21. reflexivity. }
      pose proof (Hf h1 (or_introl eq_refl)) as E. cbn [filter] in E.
      rewrite T11, T12 in E. congruence. }
    subst h2. f_equal. apply Permutation_cons_inv in HP.
    apply IH; try assumption.
    intros x Hx. pose proof (Hf x (or_intror Hx)) as E. cbn [filter] in E.
    destruct (tied lt x h1); [congruence | exact E].
Qed.

Lemma py_sorted_unique (l out : list A) :
  Forall dom l -> Permutation out l -> descending lt out ->
  (forall x, In x l -> filter (tied lt x) out = filter (tied lt x) l) ->
  out = py_sorted lt true l.
Proof.
  intros Hl HP Hs Hf. unfold py_sorted.
  rewrite <- (rev_involutive out). f_equal.
  assert (Hrl : Forall dom (rev l)).
  { rewrite Forall_forall in *. intros x Hx. apply Hl, in_rev, Hx. }
  assert (Hro : Forall dom (rev out)).
  { rewrite Forall_forall in *. intros x Hx. apply Hl.
    apply (Permutation_in _ HP), in_rev, Hx. }
  apply stable_ascending_unique.
  - exact Hro.
  - eapply perm_trans; [apply Permutation_sym, Permutation_rev |].
    eapply perm_trans; [exact HP |].
    eapply perm_trans; [apply Permutation_rev |].
    apply Permutation_sym, list_sort_perm.
  - apply (StronglySorted_rev _ _ Hs).
  - apply list_sort_ascending, Hrl.
  - intros x Hx. apply in_rev in Hx.
    assert (Hxl : In x l) by (apply (Permutation_in _ HP), Hx).
    rewrite list_sort_filter.
    + rewrite !filter_rev. f_equal. apply Hf, Hxl.
    + exact Hrl.
    + rewrite Forall_forall in Hl. apply tied_class; auto.
Qed.

End SortedFacts.

(** ** The serializer *)

Section SerializerFacts.

Variable container_repr : value -> string.

Lemma get_field_default (d : list (string * value)) (key : string)
    (default : value) :
  dict_get key d = None \/ dict_get key d = Some VNone ->
  safe_get_nested (VDict d) [key] default = default.
Proof.
  intros [H | H]; simpl; rewrite H; reflexivity.
Qed.

Lemma get_field_not_record (v : value) (key : string) (default : value) :
  is_dict v = false -> safe_get_nested v [key] default = default.
Proof.
  destruct v; simpl; intros H; try reflexivity. discriminate.
Qed.

Lemma get_field_ok (ok : value -> bool) (d : list (string * value))
    (key : string) (default : value) :
  ok default = true ->
  field_ok ok d key = true ->
  ok (safe_get_nested (VDict d) [key] default) = true.
Proof.
  unfold field_ok; simpl. intros Hd H.
  destruct (dict_get key d) as [v |]; [| exact Hd].
  unfold py_or. destruct (truthy v) eqn:Ht; [| exact Hd].
  destruct v; auto. discriminate.
Qed.

Lemma get_record_ok (fields : list (string * value) -> bool)
    (ok : value -> bool) (v : value) (key : string) (default : value) :
  record_ok fields v = true ->
  ok default = true ->
  (forall d, fields d = true -> field_ok ok d key = true) ->
  ok (safe_get_nested v [key] default) = true.
Proof.
  intros Hv Hd Hf. destruct v; try exact Hd.
  apply get_field_ok; auto.
Qed.

Lemma safe_join_list (l : list value) :
  safe_join container_repr (VList l) VNone =
  Ok (String.concat " " (map (py_str container_repr) l)).
Proof.
  unfold safe_join. destruct l; reflexivity.
Qed.

Lemma safe_join_is_list (v : value) :
  is_list v = true -> returns (safe_join container_repr v VNone).
Proof.
  destruct v; try discriminate. intros _.
  rewrite safe_join_list. eexists; reflexivity.
Qed.

Lemma py_add_lists (a b : value) :
  is_list a = true -> is_list b = true ->
  exists c, py_add a b = Ok c /\ is_list c = true.
Proof.
  destruct a, b; try discriminate. intros _ _.
  eexists; split; reflexivity.
Qed.

Lemma mapM_as_str (l : list value) :
  forallb is_str l = true -> returns (mapM as_str l).
Proof.
  intros H. apply mapM_returns. rewrite forallb_forall in H.
  apply Forall_forall. intros x Hx. specialize (H x Hx).
  destruct x; try discriminate. eexists; reflexivity.
Qed.

Lemma job_role_line_returns (job : value) :
  job_entry_ok job = true -> returns (job_role_line container_repr job).
Proof.
  intros H. unfold job_role_line, py_join. unfold job_entry_ok in H.
  assert (Ha : is_str_list (safe_get_nested job ["achievements"] (VList [])) = true).
  { apply (get_record_ok _ _ _ _ _ H); auto. }
  destruct (safe_get_nested job ["achievements"] (VList [])) as [| | | | l |];
    try discriminate.
  simpl in Ha. destruct (mapM_as_str l Ha) as [ss Hss].
  simpl. rewrite Hss. simpl. eexists; reflexivity.
Qed.

Lemma andb4 (a b c d : bool) :
  a && b && c && d = true -> a = true /\ b = true /\ c = true /\ d = true.
Proof.
  destruct a, b, c, d; simpl; intuition discriminate.
Qed.

Lemma andb3 (a b c : bool) :
  a && b && c = true -> a = true /\ b = true /\ c = true.
Proof.
  destruct a, b, c; simpl; intuition discriminate.
Qed.

(** A field of a record of the expected shape is of the expected kind. *)
Ltac field_of H :=
  apply (get_record_ok _ _ _ _ _ H);
  [ reflexivity
  | let d := fresh "d" in
    let Hd := fresh "Hd" in
    intros d Hd;
    first [apply andb4 in Hd | apply andb3 in Hd | apply andb_prop in Hd];
    tauto ].

Lemma format_resume_returns (candidate_data : value) :
  resume_ok candidate_data = true ->
  returns (format_resume container_repr candidate_data).
Proof.
  intros H. unfold format_resume. unfold resume_ok in H.
  assert (Hs : skills_ok
                 (safe_get_nested candidate_data ["skills_section"] (VDict [])) = true)
    by field_of H.
  assert (Hw : work_experience_ok
                 (safe_get_nested candidate_data ["work_experience"] (VList [])) = true)
    by field_of H.
  assert (Hp : is_list
                 (safe_get_nested candidate_data ["projects"] (VList [])) = true)
    by field_of H.
  assert (Hc : is_list
                 (safe_get_nested candidate_data ["certifications"] (VList [])) = true)
    by field_of H.
  set (skills_section :=
         safe_get_nested candidate_data ["skills_section"] (VDict [])) in *.
  unfold skills_ok in Hs.
  assert (H1 : is_list
                 (safe_get_nested skills_section ["programming_languages"] (VList [])) = true)
    by field_of Hs.
  assert (H2 : is_list
                 (safe_get_nested skills_section ["frameworks_and_libraries"] (VList [])) = true)
    by field_of Hs.
  assert (H3 : is_list
                 (safe_get_nested skills_section ["platforms_and_tools"] (VList [])) = true)
    by field_of Hs.
  destruct (py_add_lists _ _ H1 H2) as (first_two & -> & H12). cbn [bind].
  destruct (py_add_lists _ _ H12 H3) as (all_skills & -> & Hall). cbn [bind].
  destruct (safe_get_nested candidate_data ["work_experience"] (VList []))
    as [| | | | jobs |]; try discriminate.
  cbn [work_experience_ok] in Hw. cbn [bind py_iter].
  assert (Hjobs : returns (mapM (job_role_line container_repr) jobs)).
  { apply mapM_returns. rewrite forallb_forall in Hw. apply Forall_forall.
    intros j Hj. apply job_role_line_returns, Hw, Hj. }
  destruct Hjobs as [job_roles ->]. cbn [bind].
  destruct (safe_get_nested candidate_data ["projects"] (VList []))
    as [| | | | projs |]; try discriminate.
  cbn [bind py_iter].
  destruct (safe_join_is_list _ Hall) as [skills ->]. cbn [bind].
  rewrite !safe_join_list. cbn [bind].
  destruct (safe_join_is_list _ Hc) as [certificates ->]. cbn [bind].
  eexists; reflexivity.
Qed.

Lemma format_job_description_returns (job : value) :
  job_ok job = true ->
  returns (format_job_description container_repr job).
Proof.
  intros H. unfold format_job_description. unfold job_ok in H.
  assert (Hr : role_description_ok
                 (safe_get_nested job ["role_description"] (VDict [])) = true)
    by field_of H.
  assert (Hh : hard_requirements_ok
                 (safe_get_nested job ["hard_requirements"] (VDict [])) = true)
    by field_of H.
  assert (Hq : preferred_qualifications_ok
                 (safe_get_nested job ["preferred_qualifications"] (VDict [])) = true)
    by field_of H.
  set (role_description := safe_get_nested job ["role_description"] (VDict [])) in *.
  set (hard_requirements := safe_get_nested job ["hard_requirements"] (VDict [])) in *.
  set (preferred_quals :=
         safe_get_nested job ["preferred_qualifications"] (VDict [])) in *.
  unfold role_description_ok in Hr.
  unfold hard_requirements_ok in Hh.
  unfold preferred_qualifications_ok in Hq.
  assert (H1 : is_list
                 (safe_get_nested role_description ["key_responsibilities"] (VList [])) = true)
    by field_of Hr.
  assert (H2 : is_list
                 (safe_get_nested hard_requirements ["must_have_skills"] (VList [])) = true)
    by field_of Hh.
  assert (H3 : is_list
                 (safe_get_nested hard_requirements ["must_have_tools"] (VList [])) = true)
    by field_of Hh.
  assert (H4 : is_list
                 (safe_get_nested preferred_quals ["preferred_skills"] (VList [])) = true)
    by field_of Hq.
  assert (H5 : is_list
                 (safe_get_nested preferred_quals ["preferred_tools"] (VList [])) = true)
    by field_of Hq.
  assert (H6 : is_list
                 (safe_get_nested hard_requirements ["required_experience_type"] (VList [])) = true)
    by field_of Hh.
  assert (H7 : is_list
                 (safe_get_nested role_description ["domain_knowledge"] (VList [])) = true)
    by field_of Hr.
  destruct (safe_join_is_list _ H1) as [s1 ->]. cbn [bind].
  destruct (safe_join_is_list _ H2) as [s2 ->]. cbn [bind].
  destruct (safe_join_is_list _ H3) as [s3 ->]. cbn [bind].
  destruct (safe_join_is_list _ H4) as [s4 ->]. cbn [bind].
  destruct (safe_join_is_list _ H5) as [s5 ->]. cbn [bind].
  destruct (safe_join_is_list _ H6) as [s6 ->]. cbn [bind].
  destruct (safe_join_is_list _ H7) as [s7 ->]. cbn [bind].
  eexists; reflexivity.
Qed.

Lemma same_fields_get (d1 d2 : list (string * value)) (key : string)
    (default : value) :
  same_fields d1 d2 ->
  safe_get_nested (VDict d1) [key] default =
  safe_get_nested (VDict d2) [key] default.
Proof.
  intros H. simpl. rewrite (H key). reflexivity.
Qed.

Lemma format_resume_same_fields (d1 d2 : list (string * value)) :
  same_fields d1 d2 ->
  format_resume container_repr (VDict d1) = format_resume container_repr (VDict d2).
Proof.
  intros H. unfold format_resume.
  rewrite !(fun key default => same_fields_get d1 d2 key default H).
  reflexivity.
Qed.

Lemma format_job_description_same_fields (d1 d2 : list (string * value)) :
  same_fields d1 d2 ->
  format_job_description container_repr (VDict d1) =
  format_job_description container_repr (VDict d2).
Proof.
  intros H. unfold format_job_description.
  rewrite !(fun key default => same_fields_get d1 d2 key default H).
  reflexivity.
Qed.

Lemma format_resume_not_record (v : value) :
  is_dict v = false ->
  format_resume container_repr v = Ok (resume_signal_text "" "" "" "" "").
Proof.
  intros H. unfold format_resume.
  rewrite !(fun key default => get_field_not_record v key default H).
  reflexivity.
Qed.

(** C7.  The serializer is deterministic: the text of a job specification
    and the text of a candidate record are functions of the record alone, so
    serializing the same record twice yields the same text, byte for byte;
    moreover the text depends on a record only through the values bound to
    its keys. *)
Theorem serializer_deterministic (job1 job2 resume1 resume2 : value) :
  job1 = job2 -> resume1 = resume2 ->
  format_job_description container_repr job1 =
    format_job_description container_repr job2 /\
  format_resume container_repr resume1 = format_resume container_repr resume2 /\
  (forall d1 d2, same_fields d1 d2 ->
     format_job_description container_repr (VDict d1) =
       format_job_description container_repr (VDict d2) /\
     format_resume container_repr (VDict d1) =
       format_resume container_repr (VDict d2)).
Proof.
  intros -> ->. repeat split.
  - apply format_job_description_same_fields; assumption.
  - apply format_resume_same_fields; assumption.
Qed.

(** C8, as amended.  The serializer raises neither for a missing or null
    field, at any depth, nor for a value that is not a record where a record
    is expected: each is read as the empty string or the empty list.  A
    candidate with an empty skills list and no work experience is serialized
    to the template with those places empty.  Hence the serializer raises
    only when a field that is present and not null is not of the kind the
    schema gives it (a list; a list of strings for the achievements). *)
Theorem serializer_permissive (candidate_data job : value) :
  resume_ok candidate_data = true -> job_ok job = true ->
  returns (format_resume container_repr candidate_data) /\
  returns (format_job_description container_repr job) /\
  (forall d key default,
     dict_get key d = None \/ dict_get key d = Some VNone ->
     safe_get_nested (VDict d) [key] default = default) /\
  (forall v, is_dict v = false ->
     format_resume container_repr v = Ok (resume_signal_text "" "" "" "" "")) /\
  format_resume container_repr hollow_candidate =
    Ok (resume_signal_text "" "" " at :   at : " ": " "") /\
  format_resume container_repr bare_candidate =
    Ok (resume_signal_text "Engineer" "" "" "" "") /\
  (forall r, raises (format_resume container_repr r) -> resume_ok r = false) /\
  (forall j, raises (format_job_description container_repr j) -> job_ok j = false).
Proof.
  intros Hr Hj. repeat split.
  - apply format_resume_returns, Hr.
  - apply format_job_description_returns, Hj.
  - apply get_field_default.
  - apply format_resume_not_record.
  - intros r [e He]. destruct (resume_ok r) eqn:Hok; [| reflexivity].
    destruct (format_resume_returns r Hok) as [t Ht]. congruence.
  - intros j [e He]. destruct (job_ok j) eqn:Hok; [| reflexivity].
    destruct (format_job_description_returns j Hok) as [t Ht]. congruence.
Qed.

End SerializerFacts.

(** ** Names as dictionary keys *)

Lemma key_eqb_sym (a b : value) : key_eqb a b = key_eqb b a.
Proof.
  destruct a, b; simpl; try reflexivity;
    try apply Z.eqb_sym; apply String.eqb_sym.
Qed.

Lemma key_eqb_refl (a : value) : hashable a = true -> key_eqb a a = true.
Proof.
  destruct a; simpl; intros H; try reflexivity; try discriminate;
    try apply Z.eqb_refl; apply String.eqb_refl.
Qed.

Lemma key_eqb_cong (a b c : value) :
  key_eqb a b = true -> key_eqb c a = key_eqb c b.
Proof.
  destruct a, b; simpl; intros H; try discriminate;
    try (apply Z.eqb_eq in H); try (apply String.eqb_eq in H);
    destruct c; simpl; try reflexivity; try (rewrite H; reflexivity);
    congruence.
Qed.

Lemma dict_find_cong (a b : value) (d : list (value * value)) :
  key_eqb a b = true -> dict_find a d = dict_find b d.
Proof.
  intros H. induction d as [| [k v] d IH]; simpl; [reflexivity |].
  rewrite (key_eqb_sym a k), (key_eqb_sym b k), (key_eqb_cong a b k H), IH.
  reflexivity.
Qed.

Lemma dict_find_set (k kc c : value) (d : list (value * value)) :
  dict_find k (dict_set kc c d) =
  if key_eqb k kc then Some c else dict_find k d.
Proof.
  induction d as [| [k' v'] d IH]; simpl; [reflexivity |].
  destruct (key_eqb kc k') eqn:Hc; simpl.
  - rewrite (key_eqb_cong kc k' k Hc). destruct (key_eqb k k'); reflexivity.
  - rewrite IH. destruct (key_eqb k k') eqn:Hk; [| reflexivity].
    destruct (key_eqb k kc) eqn:Hkc; [| reflexivity].
    rewrite key_eqb_sym in Hkc. rewrite (key_eqb_cong k k' kc Hk) in Hkc.
    congruence.
Qed.

Lemma find_app {A : Type} (f : A -> bool) (l1 l2 : list A) :
  find f (l1 ++ l2) =
  match find f l1 with
  | Some x => Some x
  | None => find f l2
  end.
Proof.
  induction l1 as [| x l1 IH]; simpl; [reflexivity |].
  destruct (f x); [reflexivity | exact IH].
Qed.

(** The record a name resolves to is the last one of [structured_resumes]
    that carries this name. *)
Lemma index_by_name_find (structured_resumes : list value)
    (d0 d : list (value * value)) (k : value) :
  index_by_name structured_resumes d0 = Ok d ->
  dict_find k d =
  match find (fun c => key_eqb k (record_name c)) (rev structured_resumes) with
  | Some c => Some c
  | None => dict_find k d0
  end.
Proof.
  revert d0. induction structured_resumes as [| c rest IH]; intros d0 H;
    cbn [index_by_name rev] in *.
  - injection H as <-. reflexivity.
  - destruct (hashable (record_name c)); [| discriminate].
    rewrite (IH _ H), find_app, dict_find_set. cbn [find].
    destruct (find _ (rev rest)); [reflexivity |].
    destruct (key_eqb k (record_name c)); reflexivity.
Qed.

Lemma index_by_name_resolves (structured_resumes : list value)
    (d : list (value * value)) (k c : value) :
  index_by_name structured_resumes [] = Ok d ->
  dict_find k d = Some c ->
  In c structured_resumes /\ key_eqb k (record_name c) = true.
Proof.
  intros H Hf. rewrite (index_by_name_find _ _ _ k H) in Hf. simpl in Hf.
  destruct (find _ (rev structured_resumes)) as [c' |] eqn:Hfind; [| discriminate].
  injection Hf as <-. apply find_some in Hfind. destruct Hfind as [Hin Hk].
  split; [apply in_rev, Hin | exact Hk].
Qed.

Lemma index_by_name_misses (structured_resumes : list value)
    (d : list (value * value)) (k : value) :
  index_by_name structured_resumes [] = Ok d ->
  Forall (fun c => key_eqb k (record_name c) = false) structured_resumes ->
  dict_find k d = None.
Proof.
  intros H Hall. rewrite (index_by_name_find _ _ _ k H). simpl.
  destruct (find _ (rev structured_resumes)) as [c |] eqn:Hfind; [| reflexivity].
  apply find_some in Hfind. destruct Hfind as [Hin Hk].
  rewrite Forall_forall in Hall. apply in_rev in Hin.
  rewrite (Hall c Hin) in Hk. discriminate.
Qed.

(** ** Stage 1 *)

Section FilterFacts.

Context {num : Type} {arith : Arith num}.

Variable container_repr : value -> string.
Variable similarity : string -> string -> result num.

Abbreviation entry_of := (similarity_entry container_repr similarity).
Abbreviation stage1 := (bi_encoder_resume_filtering container_repr similarity).

Lemma similarity_entry_Ok (job_des_text : string) (candidate_data : value)
    (e : ranking_entry num) :
  entry_of job_des_text candidate_data = Ok e ->
  candidate_name e = identity candidate_data /\
  exists text,
    format_resume container_repr candidate_data = Ok text /\
    similarity job_des_text text = Ok (rank e).
Proof.
  unfold similarity_entry. intros H. inv_bind H. inv_bind H.
  injection H as <-. simpl. eauto.
Qed.

(** The name lookup cannot make Stage 1 fail: an item is produced as soon as
    the resume serializes and the embedder answers. *)
Lemma similarity_entry_returns (job_des_text : string) (candidate_data : value)
    (text : string) (score : num) :
  format_resume container_repr candidate_data = Ok text ->
  similarity job_des_text text = Ok score ->
  entry_of job_des_text candidate_data =
    Ok {| candidate_name := identity candidate_data; rank := score |}.
Proof.
  unfold similarity_entry. intros -> H. cbn [bind]. rewrite H. reflexivity.
Qed.

Lemma stage1_Ok (job : value) (pool : list value)
    (out : list (ranking_entry num)) :
  stage1 job pool = Ok out ->
  exists job_des_text results,
    format_job_description container_repr job = Ok job_des_text /\
    Forall2 (fun c e => entry_of job_des_text c = Ok e) pool results /\
    out = py_sorted by_rank true results.
Proof.
  unfold bi_encoder_resume_filtering. intros H. inv_bind H. inv_bind H.
  injection H as <-. exists a, a0. repeat split; auto.
  apply mapM_Forall2, Ha0.
Qed.

Lemma stage1_returns (job : value) (pool : list value) (job_des_text : string) :
  format_job_description container_repr job = Ok job_des_text ->
  Forall (fun c => returns (entry_of job_des_text c)) pool ->
  returns (stage1 job pool).
Proof.
  unfold bi_encoder_resume_filtering. intros -> H. cbn [bind].
  destruct (mapM_returns _ _ H) as [results ->]. cbn [bind].
  eexists; reflexivity.
Qed.

Lemma results_names (job_des_text : string) (pool : list value)
    (results : list (ranking_entry num)) :
  Forall2 (fun c e => entry_of job_des_text c = Ok e) pool results ->
  map candidate_name results = map identity pool.
Proof.
  apply Forall2_map_eq. intros c e H.
  apply similarity_entry_Ok in H. tauto.
Qed.

Lemma nameless_identity (candidate_data : value) :
  nameless candidate_data = true ->
  identity candidate_data = VStr "Unknown Candidate".
Proof.
  unfold nameless, identity. destruct candidate_data as [| | | | | d];
    try reflexivity.
  simpl. destruct (dict_get "contact_info" d) as [[| | | | | ci] |];
    try reflexivity.
  destruct (dict_get "name" ci) as [[| | | name | |] |];
    try reflexivity; try discriminate.
  destruct name; [reflexivity | discriminate].
Qed.

Lemma nameless_record_name (candidate_data : value) :
  nameless candidate_data = true -> record_name candidate_data = VNone.
Proof.
  unfold nameless, record_name. destruct candidate_data as [| | | | | d];
    try reflexivity.
  simpl. destruct (dict_get "contact_info" d) as [[| | | | | ci] |];
    try reflexivity.
  destruct (dict_get "name" ci) as [[| | | name | |] |];
    try reflexivity; try discriminate.
  destruct name; [reflexivity | discriminate].
Qed.

(** Every nameless candidate is an item named "Unknown Candidate". *)
Lemma results_unknown (job_des_text : string) (pool : list value)
    (results : list (ranking_entry num)) :
  Forall2 (fun c e => entry_of job_des_text c = Ok e) pool results ->
  List.length (filter nameless pool) <= count_name (VStr "Unknown Candidate") results.
Proof.
  unfold count_name. induction 1 as [| c e pool results H _ IH]; simpl; [lia |].
  apply similarity_entry_Ok in H. destruct H as [Hn _].
  destruct (nameless c) eqn:Hc.
  - rewrite Hn, (nameless_identity c Hc). simpl. lia.
  - destruct (key_eqb (candidate_name e) (VStr "Unknown Candidate")); simpl; lia.
Qed.

Lemma count_name_perm (name : value) (l l' : list (ranking_entry num)) :
  Permutation l l' -> count_name name l = count_name name l'.
Proof.
  unfold count_name. induction 1; simpl; try lia.
  - destruct (key_eqb (candidate_name x) name); simpl; lia.
  - destruct (key_eqb (candidate_name x) name),
             (key_eqb (candidate_name y) name); simpl; lia.
Qed.

(** C3, as amended.  Stage 1 returns whenever the serializer and the
    embedder raise nothing, and its output then has one item for each
    candidate of the pool: its length is the length of the pool and its
    identities are the identities of the pool, each as many times as in the
    pool.  So every identity of the pool is in the output, and exactly once
    when the identities of the pool are pairwise distinct. *)
Theorem stage1_complete (job : value) (pool : list value)
    (out : list (ranking_entry num)) :
  bi_encoder_resume_filtering container_repr similarity job pool = Ok out ->
  List.length out = List.length pool /\
  Permutation (map candidate_name out) (map identity pool) /\
  (forall c, In c pool -> In (identity c) (map candidate_name out)) /\
  (NoDup (map identity pool) -> NoDup (map candidate_name out)) /\
  (forall job_des_text,
     format_job_description container_repr job = Ok job_des_text ->
     Forall (fun c => returns (similarity_entry container_repr similarity
                                 job_des_text c)) pool ->
     returns (bi_encoder_resume_filtering container_repr similarity job pool)).
Proof.
  intros H. destruct (stage1_Ok _ _ _ H) as (jt & results & Hj & Hr & ->).
  assert (HP : Permutation (map candidate_name (py_sorted by_rank true results))
                 (map identity pool)).
  { rewrite <- (results_names _ _ _ Hr).
    apply Permutation_map, py_sorted_perm. }
  repeat split.
  - rewrite <- (length_map candidate_name), (Permutation_length HP).
    apply length_map.
  - exact HP.
  - intros c Hc. apply Permutation_in with (map identity pool).
    + apply Permutation_sym, HP.
    + apply in_map, Hc.
  - intros Hnd. apply Permutation_NoDup with (map identity pool); auto.
    apply Permutation_sym, HP.
  - intros jt'. apply stage1_returns.
Qed.

End FilterFacts.

(** ** Stage 2: the two loops *)

Section FunnelFacts.

Context {num : Type} {arith : Arith num}.

Variable container_repr : value -> string.
Variable similarity : string -> string -> result num.
Variable predict : string -> string -> result num.
Variable judge : nat -> value -> value -> result (LLMJudgment num).

Abbreviation turn := (score_candidate container_repr predict judge).
Abbreviation first_loop := (score_candidates container_repr predict judge).
Abbreviation stage2 := (score_and_rank container_repr predict judge).

(** Turn [fst tn] of the first loop, on the name [snd tn], appends [r]. *)
Abbreviation gives job job_text d :=
  (fun (tn : nat * value) r => turn job job_text d (fst tn) (snd tn) = Ok r).

Lemma enumerate_names {A : Type} (start : nat) (l : list A) :
  map snd (enumerate start l) = l.
Proof.
  revert start. induction l as [| x l IH]; intros start; cbn [enumerate map snd];
    [reflexivity |].
  rewrite IH. reflexivity.
Qed.

Lemma score_candidates_spec (job : value) (job_text : string)
    (d : list (value * value)) (request : nat) (names : list value)
    (L L' : list (llm_result num)) (C C' : list (cross_result num)) :
  first_loop job job_text d request names L C = Ok (L', C') ->
  exists rs,
    Forall2 (gives job job_text d) (enumerate request names) rs /\
    L' = L ++ map fst (somes rs) /\
    C' = C ++ map snd (somes rs).
Proof.
  revert request L C. induction names as [| name rest IH]; intros request L C H;
    cbn [score_candidates enumerate] in *.
  - injection H as <- <-. exists []. rewrite !app_nil_r. repeat constructor.
  - inv_bind H. destruct a as [candidate_data |].
    + inv_bind H. inv_bind H. inv_bind H.
      destruct (IH _ _ _ H) as (rs & Hrs & -> & ->).
      eexists (Some (_, _) :: rs). split; [| split].
      * constructor; [| exact Hrs]. cbn [fst snd].
        unfold score_candidate. rewrite Ha. cbn [bind].
        rewrite Ha0. cbn [bind]. rewrite Ha1. cbn [bind]. rewrite Ha2.
        reflexivity.
      * cbn [somes map fst]. rewrite <- app_assoc. reflexivity.
      * cbn [somes map snd]. rewrite <- app_assoc. reflexivity.
    + destruct (IH _ _ _ H) as (rs & Hrs & -> & ->).
      exists (None :: rs). split; [| split]; try reflexivity.
      constructor; [| exact Hrs]. cbn [fst snd].
      unfold score_candidate. rewrite Ha. reflexivity.
Qed.


Lemma score_candidate_Some (job : value) (job_text : string)
    (d : list (value * value)) (request : nat) (name : value)
    (lr : llm_result num) (cr : cross_result num) :
  turn job job_text d request name = Ok (Some (lr, cr)) ->
  hashable name = true /\ llm_name lr = name /\ cross_name cr = name /\
  exists candidate_data,
    dict_find name d = Some candidate_data /\
    scored_from container_repr predict judge job job_text request
      candidate_data lr cr.
Proof.
  unfold score_candidate, dict_lookup. intros H.
  destruct (hashable name); [| discriminate]. cbn [bind] in H.
  destruct (dict_find name d) as [candidate_data |]; [| discriminate].
  inv_bind H. inv_bind H. inv_bind H. injection H as <- <-.
  repeat split. exists candidate_data. split; [reflexivity |].
  split; [reflexivity |]. eauto.
Qed.

Lemma score_candidate_None (job : value) (job_text : string)
    (d : list (value * value)) (request : nat) (name : value) :
  turn job job_text d request name = Ok None ->
  hashable name = true /\ dict_find name d = None.
Proof.
  unfold score_candidate, dict_lookup. intros H.
  destruct (hashable name); [| discriminate]. cbn [bind] in H.
  destruct (dict_find name d) as [candidate_data |]; [| auto].
  inv_bind H. inv_bind H. inv_bind H. discriminate.
Qed.

(** Whether a turn returns does not depend on the Judge. *)
Lemma score_candidate_any_judge
    (judge' : nat -> value -> value -> result (LLMJudgment num))
    (job : value) (job_text : string) (d : list (value * value))
    (request : nat) (name : value) :
  returns (turn job job_text d request name) ->
  returns (score_candidate container_repr predict judge' job job_text d
             request name).
Proof.
  unfold score_candidate. intros [r Hr].
  destruct (dict_lookup name d) as [[candidate_data |] | e]; cbn [bind] in *;
    try discriminate; [| eexists; reflexivity].
  destruct (format_resume container_repr candidate_data) as [text | e];
    cbn [bind] in *; [| discriminate].
  destruct (predict job_text text) as [raw | e]; cbn [bind] in *;
    [| discriminate].
  destruct (rescale raw) as [score | e]; cbn [bind] in *; [| discriminate].
  eexists; reflexivity.
Qed.

Lemma find_unresolved (job : value) (job_text : string)
    (d : list (value * value)) (turns : list (nat * value))
    (rs : list (option (llm_result num * cross_result num))) (name : value) :
  Forall2 (gives job job_text d) turns rs ->
  dict_find name d = None ->
  find (fun r => key_eqb (llm_name r) name) (map fst (somes rs)) = None /\
  find (fun s => key_eqb (cross_name s) name) (map snd (somes rs)) = None.
Proof.
  intros H Hname.
  induction H as [| [k n] r turns rs Hr _ IH]; [split; reflexivity |].
  cbn [fst snd] in Hr.
  destruct r as [[lr cr] |]; cbn [somes map fst snd find]; [| exact IH].
  destruct (score_candidate_Some _ _ _ _ _ _ _ Hr)
    as (_ & -> & -> & candidate_data & Hfind & _).
  destruct (key_eqb n name) eqn:Hk; [| exact IH].
  rewrite (dict_find_cong _ _ d Hk) in Hfind. congruence.
Qed.

(** The stored results of a name are those of the first turn on this name. *)
Lemma find_first (job : value) (job_text : string)
    (d : list (value * value)) (before after : list (nat * value))
    (request : nat) (n : value)
    (rs : list (option (llm_result num * cross_result num)))
    (name candidate_data : value) :
  Forall2 (gives job job_text d) (before ++ (request, n) :: after) rs ->
  Forall (fun tn => key_eqb (snd tn) name = false) before ->
  key_eqb n name = true ->
  dict_find name d = Some candidate_data ->
  exists lr cr,
    find (fun r => key_eqb (llm_name r) name) (map fst (somes rs)) = Some lr /\
    find (fun s => key_eqb (cross_name s) name) (map snd (somes rs)) = Some cr /\
    llm_name lr = n /\
    scored_from container_repr predict judge job job_text request
      candidate_data lr cr.
Proof.
  intros H Hbefore Hk Hname. revert rs H.
  induction Hbefore as [| [k' n'] before Hn' _ IH]; intros rs H;
    cbn [app] in H; inversion H as [| tn r tns rs' Hr Hrest]; subst;
    cbn [fst snd] in *.
  - destruct r as [[lr cr] |]; cbn [somes map fst snd find].
    + destruct (score_candidate_Some _ _ _ _ _ _ _ Hr)
        as (_ & Hl & Hc & candidate_data' & Hfind & Hs).
      rewrite Hl, Hc, Hk. exists lr, cr.
      rewrite (dict_find_cong _ _ d Hk) in Hfind.
      assert (candidate_data' = candidate_data) by congruence. subst.
      auto.
    + destruct (score_candidate_None _ _ _ _ _ Hr) as [_ Hnone].
      rewrite (dict_find_cong _ _ d Hk) in Hnone. congruence.
  - destruct r as [[lr cr] |]; cbn [somes map fst snd find];
      [| apply IH, Hrest].
    destruct (score_candidate_Some _ _ _ _ _ _ _ Hr) as (_ & -> & -> & _).
    rewrite Hn'. apply IH, Hrest.
Qed.

Lemma find_resolved (job : value) (job_text : string)
    (d : list (value * value)) (turns : list (nat * value))
    (rs : list (option (llm_result num * cross_result num)))
    (name candidate_data : value) :
  Forall2 (gives job job_text d) turns rs ->
  In name (map snd turns) ->
  dict_find name d = Some candidate_data ->
  exists request lr cr,
    find (fun r => key_eqb (llm_name r) name) (map fst (somes rs)) = Some lr /\
    find (fun s => key_eqb (cross_name s) name) (map snd (somes rs)) = Some cr /\
    key_eqb (llm_name lr) name = true /\
    In (request, llm_name lr) turns /\
    scored_from container_repr predict judge job job_text request
      candidate_data lr cr.
Proof.
  intros H Hin Hname.
  induction H as [| [k n] r turns rs Hr _ IH]; [destruct Hin |].
  cbn [fst snd map] in *.
  destruct r as [[lr cr] |]; cbn [somes map fst snd find].
  - destruct (score_candidate_Some _ _ _ _ _ _ _ Hr)
      as (Hh & Hl & Hc & candidate_data' & Hfind & Hs).
    rewrite Hl, Hc. destruct (key_eqb n name) eqn:Hk.
    + exists k, lr, cr. rewrite Hl.
      rewrite (dict_find_cong _ _ d Hk) in Hfind.
      assert (candidate_data' = candidate_data) by congruence. subst.
      split; [reflexivity |]. split; [reflexivity |]. split; [exact Hk |].
      split; [left; reflexivity | exact Hs].
    + destruct IH as (k' & lr' & cr' & H1 & H2 & H3 & H4 & H5).
      { destruct Hin as [-> | Hin]; [| exact Hin].
        rewrite key_eqb_refl in Hk; [discriminate | exact Hh]. }
      exists k', lr', cr'.
      split; [exact H1 |]. split; [exact H2 |]. split; [exact H3 |].
      split; [right; exact H4 | exact H5].
  - destruct (score_candidate_None _ _ _ _ _ Hr) as [Hh Hnone].
    destruct IH as (k' & lr' & cr' & H1 & H2 & H3 & H4 & H5).
    { destruct Hin as [-> | Hin]; [congruence | exact Hin]. }
    exists k', lr', cr'.
    split; [exact H1 |]. split; [exact H2 |]. split; [exact H3 |].
    split; [right; exact H4 | exact H5].
Qed.

Lemma enumerate_In {A : Type} (start : nat) (l : list A) (k : nat) (x : A) :
  In (k, x) (enumerate start l) ->
  start <= k /\ nth_error l (k - start) = Some x.
Proof.
  revert start. induction l as [| y l IH]; intros start; cbn [enumerate In];
    [contradiction |].
  intros [Heq | Hin].
  - injection Heq as <- <-. rewrite Nat.sub_diag. split; [lia | reflexivity].
  - destruct (IH _ Hin) as [Hle Hnth]. split; [lia |].
    replace (k - start) with (S (k - S start)) by lia. exact Hnth.
Qed.

(** The anatomy of a run of Stage 2 that returns. *)
Lemma score_and_rank_Ok (bi_encoder_ranking : list (ranking_entry num))
    (structured_resumes : list value) (job : value) (top_n : Z)
    (llm_weight cross_encoder_weight : num) (out : list (fusion_entry num)) :
  stage2 bi_encoder_ranking structured_resumes job top_n llm_weight
    cross_encoder_weight = Ok out ->
  exists d job_text rs,
    index_by_name structured_resumes [] = Ok d /\
    format_job_description container_repr job = Ok job_text /\
    Forall2 (gives job job_text d)
      (enumerate 0 (map candidate_name (py_slice_to bi_encoder_ranking top_n)))
      rs /\
    out = py_sorted by_combined true
            (map (combine (map fst (somes rs)) (map snd (somes rs))
                    llm_weight cross_encoder_weight)
               (map candidate_name (py_slice_to bi_encoder_ranking top_n))).
Proof.
  unfold score_and_rank. intros H.
  inv_bind H. inv_bind H. inv_bind H. destruct a1 as [L C].
  injection H as <-.
  destruct (score_candidates_spec _ _ _ _ _ _ _ _ _ Ha1) as (rs & Hrs & -> & ->).
  exists a, a0, rs. repeat split; auto.
Qed.

Lemma score_candidates_complete (job : value) (job_text : string)
    (d : list (value * value)) (request : nat) (names : list value)
    (rs : list (option (llm_result num * cross_result num)))
    (L : list (llm_result num)) (C : list (cross_result num)) :
  Forall2 (gives job job_text d) (enumerate request names) rs ->
  first_loop job job_text d request names L C =
    Ok (L ++ map fst (somes rs), C ++ map snd (somes rs)).
Proof.
  revert request rs L C. induction names as [| name rest IH];
    intros request rs L C H; cbn [score_candidates enumerate] in *;
    inversion H as [| tn r tns rs' Hr Hrest]; subst; cbn [somes map].
  - rewrite !app_nil_r. reflexivity.
  - cbn [fst snd] in Hr. unfold score_candidate in Hr.
    destruct (dict_lookup name d) as [[candidate_data |] | e]; cbn [bind] in *;
      try discriminate.
    + destruct (format_resume container_repr candidate_data) as [text | e];
        cbn [bind] in *; [| discriminate].
      destruct (predict job_text text) as [raw | e]; cbn [bind] in *;
        [| discriminate].
      destruct (rescale raw) as [score | e]; cbn [bind] in *; [| discriminate].
      injection Hr as <-. rewrite (IH _ _ _ _ Hrest). cbn [somes map fst snd].
      rewrite <- !app_assoc. reflexivity.
    + injection Hr as <-. rewrite (IH _ _ _ _ Hrest). reflexivity.
Qed.

Lemma score_and_rank_compose (bi_encoder_ranking : list (ranking_entry num))
    (structured_resumes : list value) (job : value) (top_n : Z)
    (llm_weight cross_encoder_weight : num)
    (d : list (value * value)) (job_text : string)
    (rs : list (option (llm_result num * cross_result num))) :
  index_by_name structured_resumes [] = Ok d ->
  format_job_description container_repr job = Ok job_text ->
  Forall2 (gives job job_text d)
    (enumerate 0 (map candidate_name (py_slice_to bi_encoder_ranking top_n)))
    rs ->
  stage2 bi_encoder_ranking structured_resumes job top_n llm_weight
    cross_encoder_weight =
  Ok (py_sorted by_combined true
        (map (combine (map fst (somes rs)) (map snd (somes rs))
                llm_weight cross_encoder_weight)
           (map candidate_name (py_slice_to bi_encoder_ranking top_n)))).
Proof.
  intros Hd Hj Hrs. unfold score_and_rank. rewrite Hd. cbn [bind].
  rewrite Hj. cbn [bind].
  rewrite (score_candidates_complete _ _ _ _ _ _ [] [] Hrs). reflexivity.
Qed.


(** The weights are not inspected: whether Stage 2 returns does not depend
    on them. *)
Lemma stage2_any_weights (bi_encoder_ranking : list (ranking_entry num))
    (structured_resumes : list value) (job : value) (top_n : Z)
    (llm_weight cross_encoder_weight llm_weight' cross_encoder_weight' : num)
    (out : list (fusion_entry num)) :
  stage2 bi_encoder_ranking structured_resumes job top_n llm_weight
    cross_encoder_weight = Ok out ->
  returns (stage2 bi_encoder_ranking structured_resumes job top_n llm_weight'
             cross_encoder_weight').
Proof.
  intros H. destruct (score_and_rank_Ok _ _ _ _ _ _ _ H)
    as (d & jt & rs & Hd & Hj & Hrs & _).
  eexists. apply (score_and_rank_compose _ _ _ _ _ _ _ _ _ Hd Hj Hrs).
Qed.

(** A failing Judge does not make Stage 2 fail: whether Stage 2 returns does
    not depend on the Judge. *)
Lemma stage2_any_judge
    (judge' : nat -> value -> value -> result (LLMJudgment num))
    (bi_encoder_ranking : list (ranking_entry num))
    (structured_resumes : list value) (job : value) (top_n : Z)
    (llm_weight cross_encoder_weight : num) (out : list (fusion_entry num)) :
  stage2 bi_encoder_ranking structured_resumes job top_n llm_weight
    cross_encoder_weight = Ok out ->
  returns (score_and_rank container_repr predict judge' bi_encoder_ranking
             structured_resumes job top_n llm_weight cross_encoder_weight).
Proof.
  intros H. destruct (score_and_rank_Ok _ _ _ _ _ _ _ H)
    as (d & jt & rs & Hd & Hj & Hrs & _).
  unfold score_and_rank. rewrite Hd. cbn [bind]. rewrite Hj. cbn [bind].
  assert (Hret : returns (score_candidates container_repr predict judge' job jt d
            0 (map candidate_name (py_slice_to bi_encoder_ranking top_n)) [] [])).
  { revert Hrs.
    generalize (@nil (llm_result num)) (@nil (cross_result num)) 0 rs.
    induction (map candidate_name (py_slice_to bi_encoder_ranking top_n))
      as [| name names IH]; intros L C request rs' Hrs;
      cbn [score_candidates enumerate] in *.
    - eexists; reflexivity.
    - inversion Hrs as [| tn r tns rs'' Hr Hrest]; subst. cbn [fst snd] in Hr.
      unfold score_candidate in Hr.
      destruct (dict_lookup name d) as [[candidate_data |] | e]; cbn [bind] in *;
        try discriminate; [| eapply IH, Hrest].
      destruct (format_resume container_repr candidate_data) as [text | e];
        cbn [bind] in *; [| discriminate].
      destruct (predict jt text) as [raw | e]; cbn [bind] in *;
        [| discriminate].
      destruct (rescale raw) as [score | e]; cbn [bind] in *; [| discriminate].
      eapply IH, Hrest. }
  destruct Hret as [[L C] ->]. cbn [bind]. eexists; reflexivity.
Qed.

Lemma combine_name (L : list (llm_result num)) (C : list (cross_result num))
    (llm_weight cross_encoder_weight : num) (names : list value) :
  map fused_name (map (combine L C llm_weight cross_encoder_weight) names) = names.
Proof.
  rewrite map_map. simpl. apply map_id.
Qed.

Lemma stage2_names (bi_encoder_ranking : list (ranking_entry num))
    (structured_resumes : list value) (job : value) (top_n : Z)
    (llm_weight cross_encoder_weight : num) (out : list (fusion_entry num)) :
  stage2 bi_encoder_ranking structured_resumes job top_n llm_weight
    cross_encoder_weight = Ok out ->
  Permutation (map fused_name out)
    (map candidate_name (py_slice_to bi_encoder_ranking top_n)).
Proof.
  intros H. destruct (score_and_rank_Ok _ _ _ _ _ _ _ H)
    as (d & jt & rs & _ & _ & _ & ->).
  eapply perm_trans; [apply Permutation_map, py_sorted_perm |].
  rewrite combine_name. apply Permutation_refl.
Qed.

Lemma stage2_length (bi_encoder_ranking : list (ranking_entry num))
    (structured_resumes : list value) (job : value) (top_n : Z)
    (llm_weight cross_encoder_weight : num) (out : list (fusion_entry num)) :
  stage2 bi_encoder_ranking structured_resumes job top_n llm_weight
    cross_encoder_weight = Ok out ->
  List.length out = List.length (py_slice_to bi_encoder_ranking top_n).
Proof.
  intros H. apply stage2_names in H. apply Permutation_length in H.
  rewrite !length_map in H. exact H.
Qed.

Lemma stage2_In (bi_encoder_ranking : list (ranking_entry num))
    (structured_resumes : list value) (job : value) (top_n : Z)
    (llm_weight cross_encoder_weight : num) (out : list (fusion_entry num))
    (e : fusion_entry num) :
  stage2 bi_encoder_ranking structured_resumes job top_n llm_weight
    cross_encoder_weight = Ok out ->
  (In e out <->
   exists d job_text rs name,
     index_by_name structured_resumes [] = Ok d /\
     format_job_description container_repr job = Ok job_text /\
     Forall2 (gives job job_text d)
       (enumerate 0 (map candidate_name (py_slice_to bi_encoder_ranking top_n)))
       rs /\
     In name (map candidate_name (py_slice_to bi_encoder_ranking top_n)) /\
     e = combine (map fst (somes rs)) (map snd (somes rs)) llm_weight
           cross_encoder_weight name).
Proof.
  intros H. destruct (score_and_rank_Ok _ _ _ _ _ _ _ H)
    as (d & jt & rs & Hd & Hj & Hrs & ->).
  split.
  - intros Hin. apply (Permutation_in _ (py_sorted_perm _ _ _)) in Hin.
    apply in_map_iff in Hin. destruct Hin as (name & <- & Hname).
    exists d, jt, rs, name. auto.
  - intros (d' & jt' & rs' & name & Hd' & Hj' & Hrs' & Hname & ->).
    assert (d' = d) by congruence. assert (jt' = jt) by congruence. subst.
    assert (Heq : rs' = rs).
    { clear - Hrs Hrs'. revert rs' Hrs'.
      induction Hrs as [| n r names rs Hr _ IH]; intros rs' Hrs';
        inversion Hrs'; subst; [reflexivity |].
      f_equal; [congruence | auto]. }
    subst. apply (Permutation_in _ (Permutation_sym (py_sorted_perm _ _ _))).
    apply in_map, Hname.
Qed.

(** C1, as amended.  A candidate among the top entries of the ranking whose
    name carries no record is given no scores, and is nevertheless listed in
    the Stage 2 output: with judgment score 0, pairwise score 0, the
    combined score of these two and an empty analysis.  The output has one
    item for each of the top entries, resolved or not: for [top_n >= 0] its
    size is the smaller of [top_n] and the size of the ranking. *)
Theorem unresolved_listed_with_zero_scores
    (bi_encoder_ranking : list (ranking_entry num))
    (structured_resumes : list value) (job : value) (top_n : Z)
    (llm_weight cross_encoder_weight : num) (out : list (fusion_entry num))
    (name : value) :
  score_and_rank container_repr predict judge bi_encoder_ranking
    structured_resumes job top_n llm_weight cross_encoder_weight = Ok out ->
  In name (map candidate_name (py_slice_to bi_encoder_ranking top_n)) ->
  Forall (fun c => key_eqb name (record_name c) = false) structured_resumes ->
  In {| fused_name := name;
        llm_score := of_int 0;
        cross_score := of_int 0;
        combined_score :=
          add (mul (of_int 0) llm_weight) (mul (of_int 0) cross_encoder_weight);
        llm_analysis := None |} out /\
  List.length out = List.length (py_slice_to bi_encoder_ranking top_n) /\
  ((0 <= top_n)%Z ->
   List.length out = Nat.min (Z.to_nat top_n) (List.length bi_encoder_ranking)).
Proof.
  intros H Hname Hnone.
  assert (Hlen : List.length out =
                 List.length (py_slice_to bi_encoder_ranking top_n))
    by (eapply stage2_length; eauto).
  split; [| split; [exact Hlen |]].
  2: { intros Hn. rewrite Hlen. unfold py_slice_to.
       apply Z.leb_le in Hn. rewrite Hn. apply length_firstn. }
  apply (stage2_In _ _ _ _ _ _ _ _ H).
  destruct (score_and_rank_Ok _ _ _ _ _ _ _ H)
    as (d & jt & rs & Hd & Hj & Hrs & _).
  exists d, jt, rs, name. repeat split; auto.
  pose proof (index_by_name_misses _ _ _ Hd Hnone) as Hmiss.
  destruct (find_unresolved _ _ _ _ _ _ Hrs Hmiss) as [Hllm Hcross].
  unfold combine. rewrite Hllm, Hcross. reflexivity.
Qed.

Lemma py_slice_to_all {A : Type} (l : list A) (n : Z) :
  (Z.of_nat (List.length l) <= n)%Z -> py_slice_to l n = l.
Proof.
  intros H. unfold py_slice_to.
  destruct (0 <=? n)%Z eqn:Hn; [| apply Z.leb_gt in Hn; lia].
  apply firstn_all2. lia.
Qed.

Lemma In_firstn {A : Type} (n : nat) (l : list A) (x : A) :
  In x (firstn n l) -> In x l.
Proof using Type.
  revert l. induction n as [| n IH]; intros l H; [destruct H |].
  destruct l as [| y l]; [destruct H |]. cbn [firstn] in H.
  destruct H as [<- | H]; [left; reflexivity | right; apply IH, H].
Qed.

Lemma py_slice_to_incl {A : Type} (l : list A) (n : Z) (x : A) :
  In x (py_slice_to l n) -> In x l.
Proof.
  unfold py_slice_to. destruct (0 <=? n)%Z; apply In_firstn.
Qed.

(** C4, as amended.  The identities of the Stage 2 output are those of the
    entries [bi_encoder_ranking[:top_n]] of the ranking: of its first
    [top_n] entries for [top_n >= 0], all of them when there are fewer; none
    for [top_n = 0]; and for a negative [top_n], which is not rejected, of
    all but its last [-top_n] entries. *)
Theorem stage2_gated (bi_encoder_ranking : list (ranking_entry num))
    (structured_resumes : list value) (job : value) (top_n : Z)
    (llm_weight cross_encoder_weight : num) (out : list (fusion_entry num)) :
  score_and_rank container_repr predict judge bi_encoder_ranking
    structured_resumes job top_n llm_weight cross_encoder_weight = Ok out ->
  Permutation (map fused_name out)
    (map candidate_name (py_slice_to bi_encoder_ranking top_n)) /\
  (forall e, In e out -> In (fused_name e) (map candidate_name bi_encoder_ranking)) /\
  ((0 <= top_n)%Z ->
   forall e, In e out ->
     In (fused_name e)
        (map candidate_name (firstn (Z.to_nat top_n) bi_encoder_ranking))) /\
  ((Z.of_nat (List.length bi_encoder_ranking) <= top_n)%Z ->
   Permutation (map fused_name out) (map candidate_name bi_encoder_ranking)) /\
  (top_n = 0%Z -> out = []) /\
  ((top_n < 0)%Z ->
   List.length out =
     List.length bi_encoder_ranking - Z.to_nat (- top_n) /\
   Permutation (map fused_name out)
     (map candidate_name
        (firstn (List.length bi_encoder_ranking - Z.to_nat (- top_n))
           bi_encoder_ranking))).
Proof.
  intros H. pose proof (stage2_names _ _ _ _ _ _ _ H) as HP.
  pose proof (stage2_length _ _ _ _ _ _ _ H) as HL.
  split; [exact HP |]. split; [| split; [| split; [| split]]].
  - intros e He. apply (in_map fused_name) in He.
    apply (Permutation_in _ HP) in He. apply in_map_iff in He.
    destruct He as (r & <- & Hr). apply in_map, (py_slice_to_incl _ _ _ Hr).
  - intros Hn e He. apply (in_map fused_name) in He.
    apply (Permutation_in _ HP) in He. unfold py_slice_to in He.
    apply Z.leb_le in Hn. rewrite Hn in He. exact He.
  - intros Hn. rewrite (py_slice_to_all _ _ Hn) in HP. exact HP.
  - intros ->. destruct out; [reflexivity | discriminate].
  - intros Hn. unfold py_slice_to in HL, HP.
    assert (Hneg : (0 <=? top_n)%Z = false) by (apply Z.leb_gt; exact Hn).
    rewrite Hneg in HL, HP. split; [| exact HP].
    rewrite HL. apply firstn_length_le. lia.
Qed.

End FunnelFacts.

(** ** The order of the doubles *)

(** [<] on doubles other than NaN is a strict weak order. *)
Lemma SFcompare_antisym (x y : spec_float) :
  SFcompare y x = option_map CompOpp (SFcompare x y).
Proof.
  destruct x as [sx | sx | | sx mx ex], y as [sy | sy | | sy my ey];
    try reflexivity; try (destruct sx; reflexivity);
    try (destruct sy; reflexivity);
    try (destruct sx, sy; reflexivity).
  cbn. change (Pos.compare_cont Eq my mx) with (Pos.compare my mx).
  change (Pos.compare_cont Eq mx my) with (Pos.compare mx my).
  rewrite (Z.compare_antisym ex ey), (Pos.compare_antisym mx my).
  destruct sx, sy, (ex ?= ey)%Z, (mx ?= my)%positive; reflexivity.
Qed.

Lemma SFltb_trans_neg (x y z : spec_float) :
  B64.is_nan y = false ->
  SFltb x z = true -> SFltb x y = true \/ SFltb y z = true.
Proof.
  unfold SFltb.
  destruct x as [sx | sx | | sx mx ex], y as [sy | sy | | sy my ey],
    z as [sz | sz | | sz mz ez]; cbn; try discriminate; intros _;
    try (destruct sx, sy, sz; cbn; auto; discriminate);
    try (destruct sx, sz; cbn; auto; discriminate);
    try (destruct sx, sy; cbn; auto; discriminate);
    try (destruct sy, sz; cbn; auto; discriminate).
  change (Pos.compare_cont Eq) with Pos.compare.
  destruct sx, sy, sz; cbn; auto; try discriminate;
    destruct (Z.compare_spec ex ez), (Z.compare_spec ex ey),
      (Z.compare_spec ey ez); cbn; auto; try discriminate; try lia;
    destruct (Pos.compare_spec mx mz), (Pos.compare_spec mx my),
      (Pos.compare_spec my mz); cbn; auto; try discriminate; lia.
Qed.

Lemma b64_strict_weak_on (libm_exp : spec_float -> result spec_float)
    (scores : list spec_float) :
  Forall (fun x => B64.is_nan x = false) scores ->
  @strict_weak_on _ (B64.arith libm_exp) scores.
Proof.
  intros H. rewrite Forall_forall in H. split.
  - intros x y _ _. cbn. unfold SFltb. rewrite (SFcompare_antisym x y).
    destruct (SFcompare x y) as [[| |] |]; cbn; congruence.
  - intros x y z _ Hy _. cbn. apply SFltb_trans_neg. auto.
Qed.

(** ** The two stages together *)

Section RankingFacts.

Context {num : Type} {arith : Arith num}.

Variable container_repr : value -> string.
Variable similarity : string -> string -> result num.
Variable predict : string -> string -> result num.
Variable judge : nat -> value -> value -> result (LLMJudgment num).

Abbreviation filtering := (bi_encoder_resume_filtering container_repr similarity).
Abbreviation fusion := (score_and_rank container_repr predict judge).

Lemma py_sorted_by_key {E : Type} (key : E -> num) (l : list E) :
  strict_weak_on (map key l) ->
  descending (fun a b => ltb (key a) (key b))
    (py_sorted (fun a b => ltb (key a) (key b)) true l).
Proof.
  intros [Hasym Hneg].
  apply py_sorted_descending with (dom := fun x => In x l).
  - intros x y Hx Hy. apply Hasym; apply in_map; assumption.
  - intros x y z Hx Hy Hz. apply Hneg; apply in_map; assumption.
  - apply Forall_forall. auto.
Qed.

Lemma py_sorted_filter_by_key {E : Type} (key : E -> num) (p : E -> bool)
    (l : list E) :
  strict_weak_on (map key l) ->
  tie_class (fun a b => ltb (key a) (key b)) p l ->
  filter p (py_sorted (fun a b => ltb (key a) (key b)) true l) = filter p l.
Proof.
  intros [Hasym Hneg] Hc.
  apply py_sorted_filter with (dom := fun x => In x l).
  - intros x y Hx Hy. apply Hasym; apply in_map; assumption.
  - intros x y z Hx Hy Hz. apply Hneg; apply in_map; assumption.
  - apply Forall_forall. auto.
  - exact Hc.
Qed.

Lemma strict_weak_on_perm (l l' : list num) :
  Permutation l l' -> strict_weak_on l -> strict_weak_on l'.
Proof.
  intros HP [Hasym Hneg]. apply Permutation_sym in HP. split.
  - intros x y Hx Hy. apply Hasym; eapply Permutation_in; eauto.
  - intros x y z Hx Hy Hz. apply Hneg; eapply Permutation_in; eauto.
Qed.

Lemma tied_tie_class {E : Type} (key : E -> num) (l : list E) (x : E) :
  strict_weak_on (map key l) -> In x l ->
  tie_class (fun a b => ltb (key a) (key b))
    (tied (fun a b => ltb (key a) (key b)) x) l.
Proof.
  intros [_ Hneg] Hx a b Ha Hb Hta Htb. unfold tied in *.
  apply andb_prop in Hta, Htb. destruct Hta as [_ Hax], Htb as [Hxb _].
  apply negb_true_iff in Hax, Hxb.
  destruct (ltb (key a) (key b)) eqn:Hab; [| reflexivity].
  destruct (Hneg (key a) (key x) (key b)) as [H | H]; auto using in_map;
    congruence.
Qed.

(** C6, as amended.  When the scores are ordered by [<] (a strict weak
    order, which [<] is on any doubles none of which is NaN: the last part),
    both stages return their items by descending score, items that tie in
    the order of the input.  Stage 1: the output is a
    rearrangement of the items computed for the candidates in pool order, no
    item is followed by one of greater [rank], and the items whose [rank]
    ties with that of a given one (more generally, any class of items none
    of which has a smaller [rank] than another) come in pool order.  Stage
    2: the same for the items computed for the top names in ranking order,
    by [combined_score]. *)
Theorem rankings_descending_and_stable
    (job : value) (pool : list value) (ranked : list (ranking_entry num))
    (bi_encoder_ranking : list (ranking_entry num))
    (structured_resumes : list value) (top_n : Z)
    (llm_weight cross_encoder_weight : num) (fused : list (fusion_entry num)) :
  bi_encoder_resume_filtering container_repr similarity job pool = Ok ranked ->
  strict_weak_on (map rank ranked) ->
  score_and_rank container_repr predict judge bi_encoder_ranking
    structured_resumes job top_n llm_weight cross_encoder_weight = Ok fused ->
  strict_weak_on (map combined_score fused) ->
  (exists job_des_text results,
     Forall2 (fun c e => similarity_entry container_repr similarity job_des_text c
                         = Ok e) pool results /\
     Permutation ranked results /\
     StronglySorted (fun a b => ltb (rank a) (rank b) = false) ranked /\
     (forall x, In x results ->
        filter (fun y => negb (ltb (rank x) (rank y)) &&
                         negb (ltb (rank y) (rank x))) ranked =
        filter (fun y => negb (ltb (rank x) (rank y)) &&
                         negb (ltb (rank y) (rank x))) results) /\
     (forall p,
        (forall x y, In x results -> In y results -> p x = true -> p y = true ->
           ltb (rank x) (rank y) = false) ->
        filter p ranked = filter p results)) /\
  (exists llm_results cross_encoder_scores,
     let combined_results :=
       map (combine llm_results cross_encoder_scores llm_weight
              cross_encoder_weight)
           (map candidate_name (py_slice_to bi_encoder_ranking top_n)) in
     Permutation fused combined_results /\
     StronglySorted
       (fun a b => ltb (combined_score a) (combined_score b) = false) fused /\
     (forall x, In x combined_results ->
        filter (fun y => negb (ltb (combined_score x) (combined_score y)) &&
                         negb (ltb (combined_score y) (combined_score x))) fused =
        filter (fun y => negb (ltb (combined_score x) (combined_score y)) &&
                         negb (ltb (combined_score y) (combined_score x)))
          combined_results) /\
     (forall p,
        (forall x y, In x combined_results -> In y combined_results ->
           p x = true -> p y = true ->
           ltb (combined_score x) (combined_score y) = false) ->
        filter p fused = filter p combined_results)) /\
  (forall libm_exp scores,
     Forall (fun x => B64.is_nan x = false) scores ->
     @strict_weak_on _ (B64.arith libm_exp) scores).
Proof.
  intros H1 Hw1 H2 Hw2. split; [| split; [| apply b64_strict_weak_on]].
  - destruct (stage1_Ok _ _ _ _ _ H1) as (jt & results & _ & Hr & ->).
    assert (Hw : strict_weak_on (map rank results)).
    { apply strict_weak_on_perm with (2 := Hw1).
      apply Permutation_map, py_sorted_perm. }
    exists jt, results.
    split; [exact Hr |]. split; [apply py_sorted_perm |].
    split; [apply (py_sorted_by_key rank), Hw |]. split.
    + intros x Hx.
      apply (py_sorted_filter_by_key rank); [exact Hw |].
      apply (tied_tie_class rank); assumption.
    + intros p Hp.
      apply (py_sorted_filter_by_key rank); [exact Hw | exact Hp].
  - destruct (score_and_rank_Ok _ _ _ _ _ _ _ _ _ _ H2)
      as (d & jt & rs & _ & _ & _ & ->).
    exists (map fst (somes rs)), (map snd (somes rs)). cbv zeta.
    match goal with
    | |- Permutation _ ?l /\ _ => set (combined_results := l) in *
    end.
    assert (Hw : strict_weak_on (map combined_score combined_results)).
    { apply strict_weak_on_perm with (2 := Hw2).
      apply Permutation_map, py_sorted_perm. }
    split; [apply py_sorted_perm |].
    split; [apply (py_sorted_by_key combined_score), Hw |]. split.
    + intros x Hx.
      apply (py_sorted_filter_by_key combined_score); [exact Hw |].
      apply (tied_tie_class combined_score); assumption.
    + intros p Hp.
      apply (py_sorted_filter_by_key combined_score); [exact Hw | exact Hp].
Qed.

Lemma key_eqb_str (s : string) (v : value) :
  key_eqb (VStr s) v = true -> v = VStr s.
Proof.
  destruct v; simpl; try discriminate.
  intros H. apply String.eqb_eq in H. congruence.
Qed.

(** C10.  A candidate whose [contact_info.name] is missing, null or empty
    does not make Stage 1 fail: its item is produced as for any candidate
    and carries the identity "Unknown Candidate".  So the output of Stage 1
    has at least as many items of that identity as the pool has such
    candidates.  In Stage 2 the name resolves to at most one record, which
    then is a record that literally carries this name, and all items of the
    output with one name are the same item. *)
Theorem unknown_candidates_share_identity
    (job : value) (pool : list value) (ranked : list (ranking_entry num))
    (bi_encoder_ranking : list (ranking_entry num))
    (structured_resumes : list value) (top_n : Z)
    (llm_weight cross_encoder_weight : num) (fused : list (fusion_entry num))
    (d : list (value * value)) :
  bi_encoder_resume_filtering container_repr similarity job pool = Ok ranked ->
  index_by_name structured_resumes [] = Ok d ->
  score_and_rank container_repr predict judge bi_encoder_ranking
    structured_resumes job top_n llm_weight cross_encoder_weight = Ok fused ->
  (forall c job_des_text text score,
     nameless c = true ->
     format_resume container_repr c = Ok text ->
     similarity job_des_text text = Ok score ->
     similarity_entry container_repr similarity job_des_text c =
       Ok {| candidate_name := VStr "Unknown Candidate"; rank := score |}) /\
  (forall c, In c pool -> nameless c = true ->
     In (VStr "Unknown Candidate") (map candidate_name ranked)) /\
  List.length (filter nameless pool) <=
    count_name (VStr "Unknown Candidate") ranked /\
  (forall r1 r2,
     dict_lookup (VStr "Unknown Candidate") d = Ok (Some r1) ->
     dict_lookup (VStr "Unknown Candidate") d = Ok (Some r2) ->
     r1 = r2) /\
  (forall r,
     dict_lookup (VStr "Unknown Candidate") d = Ok (Some r) ->
     In r structured_resumes /\
     record_name r = VStr "Unknown Candidate" /\ nameless r = false) /\
  (forall e1 e2, In e1 fused -> In e2 fused ->
     fused_name e1 = fused_name e2 -> e1 = e2).
Proof.
  intros H1 Hd H2.
  destruct (stage1_Ok _ _ _ _ _ H1) as (jt & results & _ & Hr & ->).
  split; [| split; [| split; [| split; [| split]]]].
  - intros c jt' text score Hc Ht Hs.
    rewrite (similarity_entry_returns _ _ _ _ _ _ Ht Hs).
    rewrite (nameless_identity _ Hc). reflexivity.
  - intros c Hc Hn.
    apply Permutation_in with (map candidate_name results).
    + apply Permutation_map, Permutation_sym, py_sorted_perm.
    + rewrite (results_names _ _ _ _ _ Hr), <- (nameless_identity _ Hn).
      apply in_map, Hc.
  - rewrite (count_name_perm _ _ _ (py_sorted_perm by_rank true results)).
    eapply results_unknown, Hr.
  - congruence.
  - intros r H. simpl in H. injection H as H.
    destruct (index_by_name_resolves _ _ _ _ Hd H) as [Hin Hk].
    apply key_eqb_str in Hk. repeat split; auto.
    destruct (nameless r) eqn:Hn; [| reflexivity].
    rewrite (nameless_record_name _ Hn) in Hk. discriminate.
  - intros e1 e2 He1 He2 Hname.
    apply (stage2_In _ _ _ _ _ _ _ _ _ _ _ H2) in He1, He2.
    destruct He1 as (d1 & jt1 & rs1 & n1 & Hd1 & Hj1 & Hrs1 & _ & ->).
    destruct He2 as (d2 & jt2 & rs2 & n2 & Hd2 & Hj2 & Hrs2 & _ & ->).
    simpl in Hname. subst n2.
    assert (d2 = d1) by congruence. assert (jt2 = jt1) by congruence. subst.
    assert (Heq : rs2 = rs1).
    { clear - Hrs1 Hrs2. revert rs2 Hrs2.
      induction Hrs1 as [| n r names rs Hr _ IH]; intros rs2 Hrs2;
        inversion Hrs2; subst; [reflexivity |].
      f_equal; [congruence | auto]. }
    subst. reflexivity.
Qed.

End RankingFacts.

(** ** Fusion *)

Section FusionFacts.

Context {num : Type} {arith : Arith num}.

Variable container_repr : value -> string.
Variable predict : string -> string -> result num.
Variable judge : nat -> value -> value -> result (LLMJudgment num).

Abbreviation fuse := (score_and_rank container_repr predict judge).
Abbreviation one_turn := (score_candidate container_repr predict judge).

Lemma combine_weighted_sum (L : list (llm_result num))
    (C : list (cross_result num)) (llm_weight cross_encoder_weight : num)
    (name : value) :
  let e := combine L C llm_weight cross_encoder_weight name in
  combined_score e =
  add (mul (llm_score e) llm_weight) (mul (cross_score e) cross_encoder_weight).
Proof.
  reflexivity.
Qed.

Lemma fused_weighted_sum (bi_encoder_ranking : list (ranking_entry num))
    (structured_resumes : list value) (job : value) (top_n : Z)
    (llm_weight cross_encoder_weight : num) (out : list (fusion_entry num))
    (e : fusion_entry num) :
  fuse bi_encoder_ranking structured_resumes job top_n llm_weight
    cross_encoder_weight = Ok out ->
  In e out ->
  combined_score e =
  add (mul (llm_score e) llm_weight) (mul (cross_score e) cross_encoder_weight).
Proof.
  intros H He. apply (stage2_In _ _ _ _ _ _ _ _ _ _ _ H) in He.
  destruct He as (d & jt & rs & name & _ & _ & _ & _ & ->). reflexivity.
Qed.


Lemma enumerate_app {A : Type} (start : nat) (l1 l2 : list A) :
  enumerate start (l1 ++ l2) =
  enumerate start l1 ++ enumerate (start + List.length l1) l2.
Proof.
  revert start. induction l1 as [| x l1 IH]; intros start;
    cbn [app enumerate List.length].
  - rewrite Nat.add_0_r. reflexivity.
  - rewrite IH, Nat.add_succ_r. reflexivity.
Qed.

Lemma enumerate_Forall {A : Type} (P : A -> Prop) (start : nat) (l : list A) :
  Forall P l -> Forall (fun tn => P (snd tn)) (enumerate start l).
Proof.
  intros H. revert start. induction H as [| x l Hx _ IH]; intros start;
    cbn [enumerate]; constructor; auto.
Qed.

(** The item of a top candidate that has a record and for which the Judge
    failed, at the first turn on its name. *)
Lemma judge_failure_entry (bi_encoder_ranking : list (ranking_entry num))
    (structured_resumes : list value) (job : value) (top_n : Z)
    (llm_weight cross_encoder_weight : num) (out : list (fusion_entry num))
    (d : list (value * value)) (before after : list value)
    (name candidate_data : value) (err : exn) :
  fuse bi_encoder_ranking structured_resumes job top_n llm_weight
    cross_encoder_weight = Ok out ->
  index_by_name structured_resumes [] = Ok d ->
  map candidate_name (py_slice_to bi_encoder_ranking top_n) =
    before ++ name :: after ->
  Forall (fun n => key_eqb n name = false) before ->
  dict_find name d = Some candidate_data ->
  judge (List.length before) job candidate_data = Raise err ->
  exists e lr job_text text raw,
    In e out /\ fused_name e = name /\
    llm_analysis e = Some lr /\ llm_judgement lr = None /\
    llm_score e = of_int 0 /\
    format_job_description container_repr job = Ok job_text /\
    format_resume container_repr candidate_data = Ok text /\
    predict job_text text = Ok raw /\
    rescale raw = Ok (cross_score e) /\
    combined_score e =
      add (mul (of_int 0) llm_weight) (mul (cross_score e) cross_encoder_weight) /\
    forall e', In e' out -> fused_name e' = name -> e' = e.
Proof.
  intros H Hd Hsplit Hbefore Hfind Hjudge.
  destruct (score_and_rank_Ok _ _ _ _ _ _ _ _ _ _ H)
    as (d' & jt & rs & Hd' & Hj & Hrs & Hout).
  assert (d' = d) by congruence. subst d'.
  assert (Hname : In name (map candidate_name
                             (py_slice_to bi_encoder_ranking top_n))).
  { rewrite Hsplit. apply in_or_app. right. left. reflexivity. }
  assert (Hk : key_eqb name name = true).
  { destruct (find_resolved _ _ _ _ _ _ _ _ _ _ Hrs
                ltac:(rewrite enumerate_names; exact Hname) Hfind)
      as (k & lr & cr & HL & _ & Hkl & _ & _).
    destruct name; try reflexivity; cbn;
      try apply Z.eqb_refl; try apply String.eqb_refl;
      destruct (llm_name lr); discriminate. }
  rewrite Hsplit, enumerate_app in Hrs. cbn [enumerate Nat.add] in Hrs.
  destruct (find_first _ _ _ _ _ _ _ _ _ _ _ _ _ Hrs
              (enumerate_Forall _ 0 _ Hbefore) Hk Hfind)
    as (lr & cr & HL & HC & _ & Hjd & text & raw & Ht & Hp & Hs).
  unfold llm_as_a_judge in Hjd. rewrite Hjudge in Hjd.
  exists (combine (map fst (somes rs)) (map snd (somes rs)) llm_weight
            cross_encoder_weight name), lr, jt, text, raw.
  split.
  { apply (stage2_In _ _ _ _ _ _ _ _ _ _ _ H).
    destruct (score_and_rank_Ok _ _ _ _ _ _ _ _ _ _ H)
      as (d2 & jt2 & rs2 & Hd2 & Hj2 & Hrs2 & _).
    exists d2, jt2, rs2, name. repeat split; auto.
    assert (d2 = d) by congruence. assert (jt2 = jt) by congruence. subst.
    f_equal; f_equal; f_equal.
    all: rewrite Hsplit, enumerate_app in Hrs2; cbn [enumerate Nat.add] in Hrs2;
      clear - Hrs Hrs2; revert rs2 Hrs2;
      induction Hrs as [| tn r tns rs Hr _ IH]; intros rs2 Hrs2;
      inversion Hrs2; subst; [reflexivity |]; f_equal; [congruence | auto]. }
  unfold combine. rewrite HL, HC. cbn.
  destruct lr as [n jd]. cbn in *. subst jd. repeat split; auto.
  intros e' He' Hname'.
  apply (stage2_In _ _ _ _ _ _ _ _ _ _ _ H) in He'.
  destruct He' as (d2 & jt2 & rs2 & name2 & Hd2 & Hj2 & Hrs2 & _ & ->).
  cbn [combine fused_name] in Hname'. subst name2.
  assert (Heq : rs2 = rs).
  { rewrite Hsplit, enumerate_app in Hrs2. cbn [enumerate Nat.add] in Hrs2.
    assert (d2 = d) by congruence. assert (jt2 = jt) by congruence. subst.
    clear - Hrs Hrs2. revert rs2 Hrs2.
    induction Hrs as [| tn r tns rs Hr _ IH]; intros rs2 Hrs2;
      inversion Hrs2; subst; [reflexivity |]. f_equal; [congruence | auto]. }
  subst rs2. unfold combine. rewrite HL, HC. reflexivity.
Qed.


End FusionFacts.

(** ** The arithmetic of the scores *)

Lemma b64_zero_judgment (libm_exp : spec_float -> result spec_float)
    (w x : spec_float) :
  B64.finite w = true -> B64.is_nan x = false ->
  SFcompare
    (@add _ (B64.arith libm_exp)
       (@mul _ (B64.arith libm_exp) (@of_int _ (B64.arith libm_exp) 0) w) x)
    x = Some Eq.
Proof.
  intros Hw Hx. destruct w as [sw | sw | | sw mw ew]; try discriminate;
    destruct x as [sx | sx | | sx mx ex]; try discriminate; cbn;
    try (destruct sw, sx; reflexivity).
  - rewrite Z.compare_refl, Pos.compare_cont_refl. destruct sx; reflexivity.
  - rewrite Z.compare_refl, Pos.compare_cont_refl. destruct sx; reflexivity.
Qed.

Lemma exact_zero_judgment (w x : R) :
  @add _ Exact.arith (@mul _ Exact.arith (@of_int _ Exact.arith 0) w) x = x.
Proof.
  cbn. ring.
Qed.

(** *** Rounding in binary64

    The operations of [SpecFloat] round correctly, and rounding keeps the
    order: what the bounds on the scores rest on. *)

Section Binary64Facts.

Local Open Scope Z_scope.

(** The exponent of the format at a magnitude, and the digits of a
    mantissa. *)
Lemma fexp_b64 (x : Z) : fexp B64.prec B64.emax x = Z.max (x - 53) (-1074).
Proof. reflexivity. Qed.

Lemma digits2_pos_log2 (p : positive) :
  Zpos (digits2_pos p) = Z.log2 (Zpos p) + 1.
Proof.
  assert (H : forall q, digits2_pos q = Pos.size q).
  { induction q as [q IH | q IH |]; simpl; congruence. }
  destruct p as [p | p |]; simpl; rewrite ?H; lia.
Qed.

Lemma digits2_pos_bounds (p : positive) :
  2 ^ (Zpos (digits2_pos p) - 1) <= Zpos p < 2 ^ Zpos (digits2_pos p).
Proof.
  rewrite digits2_pos_log2.
  replace (Z.log2 (Zpos p) + 1 - 1) with (Z.log2 (Zpos p)) by lia.
  apply (Z.log2_spec (Zpos p)). lia.
Qed.

Lemma digits2_pos_unique (p : positive) (d : Z) :
  2 ^ (d - 1) <= Zpos p < 2 ^ d -> 1 <= d -> Zpos (digits2_pos p) = d.
Proof.
  intros H Hd. rewrite digits2_pos_log2.
  rewrite (Z.log2_unique (Zpos p) (d - 1)); [lia | lia |].
  replace (Z.succ (d - 1)) with d by lia. exact H.
Qed.

Lemma Zdigits2_nonneg (z : Z) : 0 <= Zdigits2 z.
Proof. destruct z; simpl; lia. Qed.

Lemma Zdigits2_lt (z : Z) : 0 <= z -> z < 2 ^ Zdigits2 z.
Proof.
  intros Hz. destruct z as [| p | p]; simpl; [lia | | lia].
  apply digits2_pos_bounds.
Qed.

Lemma Zdigits2_le (z : Z) : 0 < z -> 2 ^ (Zdigits2 z - 1) <= z.
Proof.
  intros Hz. destruct z as [| p | p]; simpl; [lia | | lia].
  apply digits2_pos_bounds.
Qed.

Lemma Zdigits2_unique (z d : Z) :
  2 ^ (d - 1) <= z < 2 ^ d -> 1 <= d -> Zdigits2 z = d.
Proof.
  intros H Hd. destruct z as [| p | p]; simpl.
  - assert (0 < 2 ^ (d - 1)) by (apply Z.pow_pos_nonneg; lia). lia.
  - apply digits2_pos_unique; assumption.
  - assert (0 < 2 ^ (d - 1)) by (apply Z.pow_pos_nonneg; lia). lia.
Qed.

Lemma Zdigits2_mono (a b : Z) : 0 <= a <= b -> Zdigits2 a <= Zdigits2 b.
Proof.
  intros [Ha Hab]. destruct (Z.eq_dec a 0) as [-> | Hne].
  - apply Zdigits2_nonneg.
  - destruct (Z_lt_le_dec (Zdigits2 b) (Zdigits2 a)) as [Hlt | Hle]; [| exact Hle].
    exfalso. pose proof (Zdigits2_le a ltac:(lia)) as H1.
    pose proof (Zdigits2_lt b ltac:(lia)) as H2.
    assert (2 ^ Zdigits2 b <= 2 ^ (Zdigits2 a - 1)).
    { apply Z.pow_le_mono_r; [lia |]. lia. }
    lia.
Qed.

Lemma rneq_bounds (N D : Z) : N / D <= rneq N D <= N / D + 1.
Proof.
  unfold rneq. destruct (2 * (N mod D) ?= D); [destruct (Z.even (N / D)) | |]; lia.
Qed.

Lemma div_le_cross (N1 D1 N2 D2 : Z) :
  0 < D1 -> 0 < D2 -> N1 * D2 <= N2 * D1 -> N1 / D1 <= N2 / D2.
Proof.
  intros H1 H2 H.
  apply Z.div_le_lower_bound; [lia |].
  pose proof (Z.mul_div_le N1 D1 H1) as Hq.
  (* D2 * (N1/D1) <= N2 *)
  destruct (Z_le_gt_dec (D2 * (N1 / D1)) N2) as [Hle | Hgt]; [exact Hle |].
  exfalso. nia.
Qed.

Lemma rneq_mono (N1 D1 N2 D2 : Z) :
  0 < D1 -> 0 < D2 -> N1 * D2 <= N2 * D1 -> rneq N1 D1 <= rneq N2 D2.
Proof.
  intros H1 H2 H.
  pose proof (div_le_cross N1 D1 N2 D2 H1 H2 H) as Hq.
  pose proof (rneq_bounds N1 D1) as B1. pose proof (rneq_bounds N2 D2) as B2.
  destruct (Z.eq_dec (N1 / D1) (N2 / D2)) as [Heq | Hne]; [| lia].
  pose proof (Z.div_mod N1 D1 ltac:(lia)) as E1.
  pose proof (Z.div_mod N2 D2 ltac:(lia)) as E2.
  pose proof (Z.mod_pos_bound N1 D1 H1) as R1.
  pose proof (Z.mod_pos_bound N2 D2 H2) as R2.
  unfold rneq. rewrite <- Heq in *.
  set (q := N1 / D1) in *. set (r1 := N1 mod D1) in *. set (r2 := N2 mod D2) in *.
  assert (Hr : r1 * D2 <= r2 * D1) by nia.
  destruct (Z.compare_spec (2 * r1) D1) as [C1 | C1 | C1];
    destruct (Z.compare_spec (2 * r2) D2) as [C2 | C2 | C2];
    destruct (Z.even q); try lia; exfalso; nia.
Qed.

Lemma rneq_scale (N D k : Z) :
  0 < D -> 0 < k -> rneq (N * k) (D * k) = rneq N D.
Proof.
  intros HD Hk. unfold rneq.
  rewrite Z.div_mul_cancel_r by lia.
  rewrite Z.mul_mod_distr_r by lia.
  destruct (Z.compare_spec (2 * (N mod D * k)) (D * k));
    destruct (Z.compare_spec (2 * (N mod D)) D); try reflexivity; exfalso; nia.
Qed.

Lemma shr_1_fields (m : Z) (r s : bool) :
  0 <= m ->
  shr_1 {| shr_m := m; shr_r := r; shr_s := s |} =
  {| shr_m := Z.div2 m; shr_r := Z.odd m; shr_s := r || s |}.
Proof.
  intros Hm. destruct m as [| [p | p |] | p]; try reflexivity. lia.
Qed.

Lemma shr_1_inv (N P : Z) (mrs : shr_record) :
  0 < P -> shr_inv N P mrs -> shr_inv N (2 * P) (shr_1 mrs).
Proof.
  intros HP [Hm (t & Ht & Hb & Hs)]. destruct mrs as [m r s].
  cbn [shr_m shr_r shr_s] in *.
  assert (Hs' : (r || s)%bool = negb (Z.b2z r * P + t =? 0)).
  { subst s. destruct r; cbn [Z.b2z orb].
    - destruct (Z.eqb_spec (1 * P + t) 0); [lia | reflexivity].
    - replace (0 * P + t) with t by lia. reflexivity. }
  assert (Hr : 0 <= Z.b2z r <= 1) by (destruct r; cbn; lia).
  rewrite shr_1_fields by exact Hm. unfold shr_inv. cbn [shr_m shr_r shr_s].
  pose proof (Z.div2_odd m) as Hm2.
  assert (Ho : 0 <= Z.b2z (Z.odd m) <= 1) by (destruct (Z.odd m); cbn; lia).
  split; [lia |]. exists (Z.b2z r * P + t).
  split; [| split; [nia | exact Hs']].
  rewrite Ht. rewrite Hm2 at 1. ring.
Qed.

Lemma iter_shr_inv (N : Z) (p : positive) :
  forall P mrs, 0 < P -> shr_inv N P mrs ->
    shr_inv N (2 ^ Zpos p * P) (SpecFloat.iter_pos shr_1 p mrs).
Proof.
  induction p as [p IH | p IH |]; intros P mrs HP H; cbn [SpecFloat.iter_pos].
  - assert (Hp : 0 < 2 ^ Zpos p) by (apply Z.pow_pos_nonneg; lia).
    apply shr_1_inv in H; [| exact HP].
    apply IH in H; [| lia]. apply IH in H; [| nia].
    replace (2 ^ Zpos p~1 * P) with (2 ^ Zpos p * (2 ^ Zpos p * (2 * P)));
      [exact H |].
    replace (Zpos p~1) with (Zpos p + Zpos p + 1) by lia.
    rewrite !Z.pow_add_r by lia. rewrite Z.pow_1_r. ring.
  - assert (Hp : 0 < 2 ^ Zpos p) by (apply Z.pow_pos_nonneg; lia).
    apply IH in H; [| lia]. apply IH in H; [| nia].
    replace (2 ^ Zpos p~0 * P) with (2 ^ Zpos p * (2 ^ Zpos p * P));
      [exact H |].
    replace (Zpos p~0) with (Zpos p + Zpos p) by lia.
    rewrite !Z.pow_add_r by lia. ring.
  - apply shr_1_inv in H; [| exact HP]. exact H.
Qed.

Lemma new_location_loc_of (r D : Z) :
  0 <= r < D -> new_location D r = loc_of r D.
Proof.
  intros Hr. unfold new_location, new_location_even, new_location_odd, loc_of.
  destruct (Z.even D) eqn:Hev; [reflexivity |].
  destruct (r =? 0); [reflexivity |]. f_equal.
  assert (Hodd : Z.odd D = true) by (rewrite <- Z.negb_even, Hev; reflexivity).
  apply Z.odd_spec in Hodd. destruct Hodd as [k Hk].
  destruct (Z.compare_spec (2 * r + 1) D); destruct (Z.compare_spec (2 * r) D);
    try reflexivity; exfalso; lia.
Qed.

Lemma shr_inv_init (N D q r : Z) :
  N = q * D + r -> 0 <= r < D -> 0 <= q ->
  shr_inv N D (shr_record_of_loc q (loc_of r D)).
Proof.
  intros HN Hr Hq. unfold loc_of.
  destruct (Z.eqb_spec r 0) as [-> | Hne].
  - split; [exact Hq |]. exists 0.
    cbn [shr_record_of_loc shr_m shr_r shr_s Z.b2z].
    split; [lia |]. split; [lia | reflexivity].
  - destruct (Z.compare_spec (2 * r) D) as [C | C | C];
      (split; [exact Hq |]); cbn [shr_record_of_loc shr_m shr_r shr_s Z.b2z].
    + exists 0. split; [lia |]. split; [lia | reflexivity].
    + exists (2 * r). split; [lia |]. split; [lia |].
      destruct (Z.eqb_spec (2 * r) 0); [lia | reflexivity].
    + exists (2 * r - D). split; [lia |]. split; [lia |].
      destruct (Z.eqb_spec (2 * r - D) 0); [lia | reflexivity].
Qed.

Lemma shr_inv_round (N P : Z) (mrs : shr_record) :
  0 < P -> shr_inv N P mrs ->
  round_nearest_even (shr_m mrs) (loc_of_shr_record mrs) = rneq N P.
Proof.
  intros HP [Hm (t & Ht & Hb & Hs)]. destruct mrs as [m r s].
  cbn [shr_m shr_r shr_s] in *.
  assert (Hdiv : N / P = m /\ 2 * (N mod P) = Z.b2z r * P + t).
  { assert (Hq : N / P = m).
    { symmetry. apply (Z.div_unique_pos N P m (N - P * m));
        destruct r; cbn [Z.b2z] in *; lia. }
    split; [exact Hq |].
    pose proof (Z.div_mod N P ltac:(lia)) as E. rewrite Hq in E.
    destruct r; cbn [Z.b2z] in *; lia. }
  destruct Hdiv as [Hq Hr]. unfold rneq. rewrite Hq, Hr. subst s.
  destruct r; cbn [Z.b2z];
    destruct (Z.eqb_spec t 0) as [-> | Hne]; cbn [negb];
    cbn [loc_of_shr_record round_nearest_even];
    match goal with
    | |- context [?a ?= ?b] => destruct (Z.compare_spec a b)
    end; try reflexivity; exfalso; lia.
Qed.

Lemma shr_round (N D q r e n : Z) :
  0 < D -> N = q * D + r -> 0 <= r < D -> 0 <= q -> 0 <= n ->
  snd (shr (shr_record_of_loc q (loc_of r D)) e n) = e + n /\
  0 <= shr_m (fst (shr (shr_record_of_loc q (loc_of r D)) e n)) /\
  round_nearest_even
    (shr_m (fst (shr (shr_record_of_loc q (loc_of r D)) e n)))
    (loc_of_shr_record (fst (shr (shr_record_of_loc q (loc_of r D)) e n))) =
  rneq N (2 ^ n * D).
Proof.
  intros HD HN Hr Hq Hn.
  pose proof (shr_inv_init N D q r HN Hr Hq) as Hinit.
  destruct n as [| p | p]; [| | lia]; cbn [shr fst snd].
  - split; [lia |]. split; [apply Hinit |].
    rewrite (shr_inv_round N D) by assumption.
    rewrite Z.pow_0_r, Z.mul_1_l. reflexivity.
  - pose proof (iter_shr_inv N p D _ HD Hinit) as Hit.
    split; [reflexivity |]. split; [apply Hit |].
    apply shr_inv_round; [| exact Hit].
    assert (0 < 2 ^ Zpos p) by (apply Z.pow_pos_nonneg; lia). nia.
Qed.

Lemma round_again (M E : Z) :
  0 <= M <= 2 ^ 53 -> -1074 <= E ->
  (let '(mrs, e) := shr_fexp B64.prec B64.emax M E loc_Exact in
   match shr_m mrs with
   | Z0 => S754_zero false
   | Zpos m =>
       if e <=? B64.emax - B64.prec then S754_finite false m e
       else S754_infinity false
   | Zneg _ => S754_nan
   end) = round_fin M E.
Proof.
  intros HM HE. unfold shr_fexp. rewrite fexp_b64.
  destruct (Z_lt_le_dec M (2 ^ 53)) as [Hlt | Hge].
  - assert (Hd : Zdigits2 M <= 53).
    { destruct (Z.eq_dec M 0) as [-> | Hne]; [cbn; lia |].
      pose proof (Zdigits2_le M ltac:(lia)) as Hle.
      destruct (Z_le_gt_dec (Zdigits2 M) 53) as [H | H]; [exact H |].
      exfalso. assert (2 ^ 53 <= 2 ^ (Zdigits2 M - 1)).
      { apply Z.pow_le_mono_r; lia. }
      lia. }
    destruct (Z.max (Zdigits2 M + E - 53) (-1074) - E) as [| p | p] eqn:Hn;
      [| lia |]; cbn [shr shr_record_of_loc shr_m];
      unfold round_fin; destruct M as [| m | m]; try reflexivity; try lia;
      destruct (Z.ltb_spec (Zpos m) (2 ^ 53)); try lia; reflexivity.
  - assert (M = 2 ^ 53) by lia. subst M.
    change (Zdigits2 (2 ^ 53)) with 54.
    replace (Z.max (54 + E - 53) (-1074) - E) with 1 by lia.
    unfold round_fin. cbn. reflexivity.
Qed.

Lemma round_bound (q n : Z) (N D : Z) :
  0 < D -> 0 <= N -> N / D = q -> 0 <= n -> Zdigits2 q - 53 <= n ->
  0 <= rneq N (2 ^ n * D) <= 2 ^ 53.
Proof.
  intros HD HN Hq Hn Hd.
  assert (Hp : 0 < 2 ^ n) by (apply Z.pow_pos_nonneg; lia).
  pose proof (rneq_bounds N (2 ^ n * D)) as B.
  assert (Hdd : N / (2 ^ n * D) = q / 2 ^ n).
  { rewrite Z.mul_comm, <- Z.div_div by lia. rewrite Hq. reflexivity. }
  rewrite Hdd in B.
  assert (Hq0 : 0 <= q) by (subst q; apply Z.div_pos; lia).
  assert (0 <= q / 2 ^ n) by (apply Z.div_pos; lia).
  assert (q / 2 ^ n < 2 ^ 53).
  { apply Z.div_lt_upper_bound; [lia |].
    rewrite <- Z.pow_add_r by lia.
    pose proof (Zdigits2_lt q Hq0) as Hlt.
    assert (2 ^ Zdigits2 q <= 2 ^ (n + 53)).
    { apply Z.pow_le_mono_r; lia. }
    lia. }
  lia.
Qed.

Lemma bra_spec (N D q r e : Z) :
  0 < D -> N = q * D + r -> 0 <= r < D -> 0 <= q ->
  e <= fexp B64.prec B64.emax (Zdigits2 q + e) ->
  binary_round_aux B64.prec B64.emax false q e (loc_of r D) =
  round_fin
    (rneq N (2 ^ (fexp B64.prec B64.emax (Zdigits2 q + e) - e) * D))
    (fexp B64.prec B64.emax (Zdigits2 q + e)).
Proof.
  intros HD HN Hr Hq He.
  set (E := fexp B64.prec B64.emax (Zdigits2 q + e)) in *.
  unfold binary_round_aux, shr_fexp. fold E.
  destruct (shr_round N D q r e (E - e) HD HN Hr Hq ltac:(lia))
    as (He' & _ & Hround).
  destruct (shr (shr_record_of_loc q (loc_of r D)) e (E - e)) as [mrs' e'].
  cbn [fst snd] in He', Hround. rewrite Hround.
  replace e' with E by lia.
  assert (Hqd : N / D = q).
  { symmetry. apply (Z.div_unique_pos N D q r); lia. }
  assert (HN0 : 0 <= N) by nia.
  assert (HE : -1074 <= E) by (unfold E; rewrite fexp_b64; lia).
  pose proof (round_bound q (E - e) N D HD HN0 Hqd ltac:(lia)
                ltac:(unfold E; rewrite fexp_b64; lia)) as HB.
  apply (round_again _ E HB HE).
Qed.

Lemma digits_scaled (N D q r k : Z) :
  0 < D -> N = q * D + r -> 0 <= r < D -> 1 <= q -> 0 <= k ->
  Zdigits2 (N * 2 ^ k / D) = Zdigits2 q + k.
Proof.
  intros HD HN Hr Hq Hk.
  assert (Hp : 0 < 2 ^ k) by (apply Z.pow_pos_nonneg; lia).
  pose proof (Zdigits2_lt q ltac:(lia)) as Hlt.
  pose proof (Zdigits2_le q ltac:(lia)) as Hle.
  assert (Hd : 1 <= Zdigits2 q).
  { destruct q; cbn; lia. }
  apply Zdigits2_unique; [| lia]. split.
  - apply Z.div_le_lower_bound; [lia |].
    replace (Zdigits2 q + k - 1) with (Zdigits2 q - 1 + k) by lia.
    rewrite Z.pow_add_r by lia. rewrite Z.mul_assoc.
    apply Z.mul_le_mono_nonneg_r; [lia | nia].
  - apply Z.div_lt_upper_bound; [lia |].
    rewrite Z.pow_add_r by lia. rewrite Z.mul_assoc.
    apply Z.mul_lt_mono_pos_r; [lia | nia].
Qed.

Lemma digits_below (Q k : Z) : 0 <= Q < 2 ^ k -> 0 <= k -> Zdigits2 Q <= k.
Proof.
  intros HQ Hk. destruct (Z.eq_dec Q 0) as [-> | Hne]; [cbn; lia |].
  pose proof (Zdigits2_le Q ltac:(lia)) as Hle.
  destruct (Z_le_gt_dec (Zdigits2 Q) k) as [H | H]; [exact H |].
  exfalso. assert (2 ^ k <= 2 ^ (Zdigits2 Q - 1)) by (apply Z.pow_le_mono_r; lia).
  lia.
Qed.

Lemma bra_rndq (N D q r e : Z) :
  0 < D -> N = q * D + r -> 0 <= r < D -> 0 <= q ->
  e <= fexp B64.prec B64.emax (Zdigits2 q + e) -> -2148 <= e ->
  binary_round_aux B64.prec B64.emax false q e (loc_of r D) =
  rndq (N * 2 ^ (e + 2148)) D.
Proof.
  intros HD HN Hr Hq He Hl.
  rewrite (bra_spec N D q r e) by assumption. unfold rndq.
  assert (Hp : 0 < 2 ^ (e + 2148)) by (apply Z.pow_pos_nonneg; lia).
  assert (HE : fexp B64.prec B64.emax (Zdigits2 (N * 2 ^ (e + 2148) / D) - 2148) =
               fexp B64.prec B64.emax (Zdigits2 q + e)).
  { destruct (Z.eq_dec q 0) as [-> | Hne].
    - rewrite !fexp_b64 in *. cbn [Zdigits2] in *.
      assert (HQ : Zdigits2 (N * 2 ^ (e + 2148) / D) <= e + 2148).
      { apply digits_below; [| lia]. split.
        - apply Z.div_pos; nia.
        - apply Z.div_lt_upper_bound; nia. }
      lia.
    - rewrite (digits_scaled N D q r) by lia. f_equal. lia. }
  rewrite HE. set (E := fexp B64.prec B64.emax (Zdigits2 q + e)) in *.
  f_equal.
  replace (2 ^ (E + 2148) * D) with (2 ^ (E - e) * D * 2 ^ (e + 2148)).
  - symmetry. apply rneq_scale; [| lia].
    assert (0 < 2 ^ (E - e)) by (apply Z.pow_pos_nonneg; lia). nia.
  - replace (E + 2148) with (E - e + (e + 2148)) by lia.
    rewrite (Z.pow_add_r 2 (E - e) (e + 2148)) by lia. ring.
Qed.

Lemma rndq_scale (N D k : Z) :
  0 < D -> 0 < k -> rndq (N * k) (D * k) = rndq N D.
Proof.
  intros HD Hk. unfold rndq. rewrite Z.div_mul_cancel_r by lia.
  set (E := fexp B64.prec B64.emax (Zdigits2 (N / D) - 2148)).
  f_equal. replace (2 ^ (E + 2148) * (D * k)) with (2 ^ (E + 2148) * D * k) by ring.
  apply rneq_scale; [| lia].
  assert (-1074 <= E) by (unfold E; rewrite fexp_b64; lia).
  assert (0 < 2 ^ (E + 2148)) by (apply Z.pow_pos_nonneg; lia). nia.
Qed.

Lemma rndq_mantissa (N D : Z) :
  0 < D -> 0 <= N ->
  let E := fexp B64.prec B64.emax (Zdigits2 (N / D) - 2148) in
  let M := rneq N (2 ^ (E + 2148) * D) in
  -1074 <= E /\ 0 <= M <= 2 ^ 53 /\ (-1074 < E -> 2 ^ 52 <= M).
Proof.
  intros HD HN E M.
  assert (HE : -1074 <= E) by (unfold E; rewrite fexp_b64; lia).
  split; [exact HE |]. split.
  - apply (round_bound (N / D)); try lia.
    unfold E. rewrite fexp_b64. lia.
  - intros Hgt.
    assert (HEq : E = Zdigits2 (N / D) - 2148 - 53).
    { unfold E in *. rewrite fexp_b64 in *. lia. }
    assert (Hq : 0 < N / D).
    { destruct (Z.eq_dec (N / D) 0) as [H0 | H0].
      - rewrite H0 in HEq. cbn in HEq. lia.
      - pose proof (Z.div_pos N D HN HD). lia. }
    pose proof (Zdigits2_le (N / D) Hq) as Hle.
    assert (Hp : 0 < 2 ^ (E + 2148)) by (apply Z.pow_pos_nonneg; lia).
    pose proof (rneq_bounds N (2 ^ (E + 2148) * D)) as B. fold M in B.
    assert (2 ^ 52 <= N / (2 ^ (E + 2148) * D)); [| lia].
    rewrite Z.mul_comm, <- Z.div_div by lia.
    apply Z.div_le_lower_bound; [lia |].
    rewrite <- Z.pow_add_r by lia.
    replace (E + 2148 + 52) with (Zdigits2 (N / D) - 1) by lia. exact Hle.
Qed.

Lemma round_fin_valid (M E : Z) :
  -1074 <= E -> 0 <= M <= 2 ^ 53 -> (-1074 < E -> 2 ^ 52 <= M) ->
  valid_binary B64.prec B64.emax (round_fin M E) = true.
Proof.
  intros HE HM Hn. unfold round_fin.
  destruct M as [| m | m]; [reflexivity | | reflexivity].
  destruct (Z.ltb_spec (Zpos m) (2 ^ 53)) as [Hlt | Hge].
  - destruct (Z.leb_spec E 971) as [Hle | Hgt]; [| reflexivity].
    cbn [valid_binary]. unfold SpecFloat.bounded, canonical_mantissa.
    rewrite fexp_b64. apply andb_true_intro. split.
    + apply Z.eqb_eq.
      pose proof (digits2_pos_bounds m) as Hb.
      assert (Zpos (digits2_pos m) <= 53).
      { apply (digits_below (Zpos m) 53); lia. }
      destruct (Z.eq_dec E (-1074)) as [-> | Hne]; [lia |].
      rewrite (digits2_pos_unique m 53); [lia | | lia].
      split; [apply Hn; lia | exact Hlt].
    + apply Z.leb_le. unfold B64.emax, B64.prec. lia.
  - destruct (Z.leb_spec (E + 1) 971) as [Hle | Hgt]; [| reflexivity].
    cbn [valid_binary]. unfold SpecFloat.bounded, canonical_mantissa.
    rewrite fexp_b64. apply andb_true_intro. split.
    + apply Z.eqb_eq. change (Zpos (digits2_pos 4503599627370496)) with 53. lia.
    + apply Z.leb_le. unfold B64.emax, B64.prec. lia.
Qed.

Lemma rndq_valid (N D : Z) :
  0 < D -> 0 <= N -> valid_binary B64.prec B64.emax (rndq N D) = true.
Proof.
  intros HD HN. destruct (rndq_mantissa N D HD HN) as (HE & HM & Hn).
  apply round_fin_valid; assumption.
Qed.

Lemma round_fin_nonneg (M E : Z) :
  SFleb (S754_zero false) (round_fin M E) = true.
Proof.
  unfold round_fin. destruct M as [| m | m]; try reflexivity.
  destruct (Zpos m <? 2 ^ 53); [destruct (E <=? 971) | destruct (E + 1 <=? 971)];
    reflexivity.
Qed.

Lemma SFleb_finite (m1 m2 : positive) (e1 e2 : Z) :
  SFleb (S754_finite false m1 e1) (S754_finite false m2 e2) = true <->
  e1 < e2 \/ (e1 = e2 /\ Zpos m1 <= Zpos m2).
Proof.
  unfold SFleb, SFcompare.
  change (Pos.compare_cont Eq m1 m2) with (Pos.compare m1 m2).
  destruct (Z.compare_spec e1 e2) as [He | He | He].
  - destruct (Pos.compare_spec m1 m2) as [Hm | Hm | Hm]; split; intros H;
      try reflexivity; try discriminate; try lia.
  - split; [lia | reflexivity].
  - split; [discriminate | lia].
Qed.

Lemma round_fin_le (M1 E1 M2 E2 : Z) :
  0 <= M1 <= 2 ^ 53 -> 0 <= M2 <= 2 ^ 53 ->
  (E1 = E2 /\ M1 <= M2) \/ (E1 < E2 /\ 2 ^ 52 <= M2) ->
  SFleb (round_fin M1 E1) (round_fin M2 E2) = true.
Proof.
  intros H1 H2 H. unfold round_fin.
  destruct M1 as [| m1 | m1]; [apply (round_fin_nonneg M2 E2) | | lia].
  destruct M2 as [| m2 | m2]; [exfalso; lia | | lia].
  destruct (Z.ltb_spec (Zpos m1) (2 ^ 53)); destruct (Z.ltb_spec (Zpos m2) (2 ^ 53));
    repeat match goal with
           | |- context [?a <=? ?b] => destruct (Z.leb_spec a b)
           end;
    try reflexivity; try (exfalso; lia); apply SFleb_finite; lia.
Qed.

Lemma fexp_mono (a b : Z) :
  a <= b -> fexp B64.prec B64.emax a <= fexp B64.prec B64.emax b.
Proof. intros H. rewrite !fexp_b64. lia. Qed.

Lemma rndq_mono (N1 D1 N2 D2 : Z) :
  0 < D1 -> 0 < D2 -> 0 <= N1 -> N1 * D2 <= N2 * D1 ->
  SFleb (rndq N1 D1) (rndq N2 D2) = true.
Proof.
  intros HD1 HD2 HN1 H.
  assert (HN2 : 0 <= N2) by nia.
  pose proof (div_le_cross N1 D1 N2 D2 HD1 HD2 H) as Hq.
  assert (Hq1 : 0 <= N1 / D1) by (apply Z.div_pos; lia).
  pose proof (Zdigits2_mono _ _ (conj Hq1 Hq)) as Hd.
  destruct (rndq_mantissa N1 D1 HD1 HN1) as (HE1 & HM1 & Hn1).
  destruct (rndq_mantissa N2 D2 HD2 HN2) as (HE2 & HM2 & Hn2).
  unfold rndq.
  set (E1 := fexp B64.prec B64.emax (Zdigits2 (N1 / D1) - 2148)) in *.
  set (E2 := fexp B64.prec B64.emax (Zdigits2 (N2 / D2) - 2148)) in *.
  assert (HE : E1 <= E2) by (apply fexp_mono; lia).
  apply round_fin_le; [exact HM1 | exact HM2 |].
  destruct (Z.eq_dec E1 E2) as [Heq | Hne].
  - left. split; [exact Heq |]. rewrite Heq.
    assert (0 < 2 ^ (E2 + 2148)) by (apply Z.pow_pos_nonneg; lia).
    apply rneq_mono; nia.
  - right. split; [lia |]. apply Hn2. lia.
Qed.

Lemma bounded_inv (m : positive) (e : Z) :
  SpecFloat.bounded B64.prec B64.emax m e = true ->
  -1074 <= e <= 971 /\ Zpos (digits2_pos m) <= 53 /\
  (-1074 < e -> Zpos (digits2_pos m) = 53).
Proof.
  unfold SpecFloat.bounded, canonical_mantissa. intros H.
  apply andb_prop in H. destruct H as [H1 H2].
  apply Z.eqb_eq in H1. apply Z.leb_le in H2. rewrite fexp_b64 in H1.
  unfold B64.emax, B64.prec in H2. lia.
Qed.

Lemma nonneg_inv (x : spec_float) :
  B64.nonneg x = true ->
  (exists s, x = S754_zero s) \/ x = S754_infinity false \/
  exists m e, x = S754_finite false m e /\ SpecFloat.bounded B64.prec B64.emax m e = true.
Proof.
  unfold B64.nonneg. intros H. apply andb_prop in H. destruct H as [Hv Hs].
  destruct x as [s | [|] | | [|] m e]; try discriminate.
  - left. exists s. reflexivity.
  - right. left. reflexivity.
  - right. right. exists m, e. split; [reflexivity | exact Hv].
Qed.

Lemma nonneg_finite (m : positive) (e : Z) :
  SpecFloat.bounded B64.prec B64.emax m e = true ->
  B64.nonneg (S754_finite false m e) = true.
Proof.
  intros H. unfold B64.nonneg. cbn [valid_binary]. rewrite H. reflexivity.
Qed.

Lemma val64_nonneg (x : spec_float) : B64.nonneg x = true -> 0 <= val64 x.
Proof.
  intros H. destruct (nonneg_inv x H) as [[s ->] | [-> | (m & e & -> & Hb)]];
    cbn [val64]; lia.
Qed.

Lemma val64_finite_pos (s : bool) (m : positive) (e : Z) :
  -1074 <= e -> 0 < val64 (S754_finite s m e).
Proof.
  intros He. cbn [val64].
  assert (0 < 2 ^ (e + 1074)) by (apply Z.pow_pos_nonneg; lia). nia.
Qed.

Lemma val64_pos_inv (x : spec_float) :
  B64.nonneg x = true -> 0 < val64 x ->
  exists m e, x = S754_finite false m e /\ SpecFloat.bounded B64.prec B64.emax m e = true.
Proof.
  intros H Hp. destruct (nonneg_inv x H) as [[s ->] | [-> | Hf]];
    cbn [val64] in Hp; try lia. exact Hf.
Qed.

Lemma val64_zero_inv (x : spec_float) :
  B64.nonneg x = true -> B64.finite x = true -> val64 x = 0 ->
  exists s, x = S754_zero s.
Proof.
  intros H Hf H0. destruct (nonneg_inv x H) as [Hz | [-> | (m & e & -> & Hb)]];
    [exact Hz | discriminate |].
  apply bounded_inv in Hb. pose proof (val64_finite_pos false m e ltac:(lia)). lia.
Qed.

Lemma SFleb_zero_l (s : bool) (x : spec_float) :
  B64.nonneg x = true -> SFleb (S754_zero s) x = true.
Proof.
  intros H. destruct (nonneg_inv x H) as [[s' ->] | [-> | (m & e & -> & Hb)]];
    reflexivity.
Qed.

Lemma SFleb_infinity_r (x : spec_float) :
  B64.nonneg x = true -> SFleb x (S754_infinity false) = true.
Proof.
  intros H. destruct (nonneg_inv x H) as [[s' ->] | [-> | (m & e & -> & Hb)]];
    reflexivity.
Qed.

Lemma SFleb_finite_l (x y : spec_float) :
  B64.nonneg x = true -> SFleb x y = true -> B64.finite y = true ->
  B64.finite x = true.
Proof.
  intros H Hle Hy. destruct (nonneg_inv x H) as [[s' ->] | [-> | (m & e & -> & Hb)]];
    try reflexivity.
  destruct y as [s | s | | s m e]; try discriminate.
Qed.

(** On the finite non-negative doubles, [<=] is the order of the values. *)
Lemma SFleb_val64 (x y : spec_float) :
  B64.nonneg x = true -> B64.nonneg y = true ->
  B64.finite x = true -> B64.finite y = true ->
  SFleb x y = true -> val64 x <= val64 y.
Proof.
  intros Hx Hy Fx Fy Hle.
  destruct (nonneg_inv x Hx) as [[s ->] | [-> | (m1 & e1 & -> & Hb1)]];
    [apply val64_nonneg, Hy | discriminate |].
  destruct (nonneg_inv y Hy) as [[s ->] | [-> | (m2 & e2 & -> & Hb2)]];
    [discriminate | discriminate |].
  apply SFleb_finite in Hle. cbn [val64].
  apply bounded_inv in Hb1, Hb2.
  destruct Hle as [Hlt | [-> Hm]].
  - pose proof (digits2_pos_bounds m1) as B1.
    pose proof (digits2_pos_bounds m2) as B2.
    destruct Hb2 as (He2 & _ & Hd2). rewrite Hd2 in B2 by lia.
    assert (H53 : Zpos m1 < 2 ^ 53).
    { assert (2 ^ Zpos (digits2_pos m1) <= 2 ^ 53) by (apply Z.pow_le_mono_r; lia).
      lia. }
    assert (Hp : 0 < 2 ^ (e1 + 1074)) by (apply Z.pow_pos_nonneg; lia).
    replace (e2 + 1074) with (e1 + 1074 + (e2 - e1)) by lia.
    rewrite (Z.pow_add_r 2 (e1 + 1074) (e2 - e1)) by lia.
    assert (Hk : 2 <= 2 ^ (e2 - e1)).
    { change 2 with (2 ^ 1) at 1. apply Z.pow_le_mono_r; lia. }
    change (2 ^ (53 - 1)) with 4503599627370496 in B2.
    change (2 ^ 53) with 9007199254740992 in H53.
    set (P := 2 ^ (e1 + 1074)) in *. set (K := 2 ^ (e2 - e1)) in *.
    assert (H1 : Zpos m1 * P <= 9007199254740992 * P).
    { apply Z.mul_le_mono_nonneg_r; lia. }
    assert (H2 : 9007199254740992 <= Zpos m2 * K) by nia.
    assert (H3 : 9007199254740992 * P <= Zpos m2 * K * P).
    { apply Z.mul_le_mono_nonneg_r; lia. }
    replace (Zpos m2 * (P * K)) with (Zpos m2 * K * P) by ring. lia.
  - apply Z.mul_le_mono_nonneg_r; [| exact Hm].
    apply Z.pow_nonneg. lia.
Qed.

(** A double is its own rounding. *)
Lemma rneq_1 (N : Z) : rneq N 1 = N.
Proof.
  unfold rneq. rewrite Z.div_1_r, Z.mod_1_r. reflexivity.
Qed.

Lemma rndq_id (m : positive) (e : Z) :
  SpecFloat.bounded B64.prec B64.emax m e = true ->
  rndq (Zpos m * 2 ^ (e + 2148)) 1 = S754_finite false m e.
Proof.
  intros Hb. pose proof (bounded_inv m e Hb) as (He & Hd & Hn).
  assert (Hf : fexp B64.prec B64.emax (Zdigits2 (Zpos m) + e) = e).
  { rewrite fexp_b64. cbn [Zdigits2]. lia. }
  rewrite <- (bra_rndq (Zpos m) 1 (Zpos m) 0 e); try lia.
  change (loc_of 0 1) with loc_Exact.
  change loc_Exact with (loc_of 0 1).
  rewrite (bra_spec (Zpos m) 1 (Zpos m) 0 e); try lia.
  rewrite Hf, Z.sub_diag, Z.pow_0_r, Z.mul_1_l, rneq_1.
  unfold round_fin.
  pose proof (digits2_pos_bounds m) as B.
  assert (2 ^ Zpos (digits2_pos m) <= 2 ^ 53) by (apply Z.pow_le_mono_r; lia).
  destruct (Z.ltb_spec (Zpos m) (2 ^ 53)); [| lia].
  destruct (Z.leb_spec e 971); [reflexivity | lia].
Qed.

(** **** The operations on positive finite doubles *)

Lemma digits_mul (m1 m2 : positive) :
  Zpos (digits2_pos m1) + Zpos (digits2_pos m2) - 1 <=
  Zpos (digits2_pos (m1 * m2)).
Proof.
  pose proof (digits2_pos_bounds m1) as B1.
  pose proof (digits2_pos_bounds m2) as B2.
  pose proof (digits2_pos_bounds (m1 * m2)) as B.
  rewrite Pos2Z.inj_mul in B.
  set (d1 := Zpos (digits2_pos m1)) in *. set (d2 := Zpos (digits2_pos m2)) in *.
  set (d := Zpos (digits2_pos (m1 * m2))) in *.
  destruct (Z_le_gt_dec (d1 + d2 - 1) d) as [H | H]; [exact H |]. exfalso.
  assert (H1 : 2 ^ d <= 2 ^ (d1 - 1 + (d2 - 1))).
  { apply Z.pow_le_mono_r; lia. }
  rewrite Z.pow_add_r in H1 by (unfold d1, d2; lia).
  assert (0 < 2 ^ (d1 - 1)) by (apply Z.pow_pos_nonneg; unfold d1; lia).
  assert (0 < 2 ^ (d2 - 1)) by (apply Z.pow_pos_nonneg; unfold d2; lia).
  nia.
Qed.

Lemma SFmul_finite (m1 m2 : positive) (e1 e2 : Z) :
  SpecFloat.bounded B64.prec B64.emax m1 e1 = true ->
  SpecFloat.bounded B64.prec B64.emax m2 e2 = true ->
  SFmul B64.prec B64.emax (S754_finite false m1 e1) (S754_finite false m2 e2) =
  rndq (val64 (S754_finite false m1 e1) * val64 (S754_finite false m2 e2)) 1.
Proof.
  intros Hb1 Hb2. apply bounded_inv in Hb1, Hb2.
  cbn [SFmul xorb]. change loc_Exact with (loc_of 0 1).
  rewrite (bra_rndq (Zpos (m1 * m2)) 1 (Zpos (m1 * m2)) 0 (e1 + e2)); try lia.
  - f_equal. cbn [val64]. rewrite Pos2Z.inj_mul.
    replace (e1 + e2 + 2148) with (e1 + 1074 + (e2 + 1074)) by lia.
    rewrite Z.pow_add_r by lia. ring.
  - rewrite fexp_b64. cbn [Zdigits2]. pose proof (digits_mul m1 m2).
    pose proof (digits2_pos_bounds m1). pose proof (digits2_pos_bounds m2).
    assert (1 <= Zpos (digits2_pos m1)) by lia.
    assert (1 <= Zpos (digits2_pos m2)) by lia.
    lia.
Qed.

Lemma iter_xO (m d : positive) : Zpos (Pos.iter xO m d) = Zpos m * 2 ^ Zpos d.
Proof.
  induction d as [| d IH] using Pos.peano_ind.
  - cbn [Pos.iter]. rewrite Z.pow_1_r. lia.
  - rewrite Pos.iter_succ, Pos2Z.inj_succ, Z.pow_succ_r by lia.
    rewrite Pos2Z.inj_xO, IH. ring.
Qed.

Lemma shl_align_spec (m : positive) (e e' : Z) :
  snd (shl_align m e e') = Z.min e e' /\
  Zpos (fst (shl_align m e e')) = Zpos m * 2 ^ (e - Z.min e e').
Proof.
  unfold shl_align. destruct (e' - e) as [| d | d] eqn:Hd; cbn [fst snd].
  - replace (Z.min e e') with e by lia. rewrite Z.sub_diag, Z.pow_0_r. lia.
  - replace (Z.min e e') with e by lia. rewrite Z.sub_diag, Z.pow_0_r. lia.
  - replace (Z.min e e') with e' by lia. split; [reflexivity |].
    rewrite iter_xO. f_equal. f_equal. lia.
Qed.

Lemma binary_normalize_rndq (s : positive) (e : Z) :
  -2148 <= e ->
  binary_normalize B64.prec B64.emax (Zpos s) e false =
  rndq (Zpos s * 2 ^ (e + 2148)) 1.
Proof.
  intros He. cbn [binary_normalize]. unfold binary_round.
  set (E := fexp B64.prec B64.emax (Zpos (digits2_pos s) + e)).
  assert (HE : -1074 <= E) by (unfold E; rewrite fexp_b64; lia).
  destruct (shl_align_spec s e E) as [H2 H1].
  destruct (shl_align s e E) as [m' e'']. cbn [fst snd] in H1, H2.
  assert (Hd : Zdigits2 (Zpos m') = Zpos (digits2_pos s) + (e - e'')).
  { rewrite H1, <- (Z.div_1_r (Zpos s * 2 ^ (e - Z.min e E))).
    subst e''. apply (digits_scaled (Zpos s) 1 (Zpos s) 0); lia. }
  change loc_Exact with (loc_of 0 1).
  rewrite (bra_rndq (Zpos m') 1 (Zpos m') 0 e''); try lia.
  - f_equal. rewrite H1. subst e''. rewrite <- Z.mul_assoc, <- Z.pow_add_r by lia.
    f_equal. f_equal. lia.
  - rewrite Hd. replace (Zpos (digits2_pos s) + (e - e'') + e'')
      with (Zpos (digits2_pos s) + e) by lia.
    fold E. lia.
Qed.

Lemma SFadd_finite (m1 m2 : positive) (e1 e2 : Z) :
  SpecFloat.bounded B64.prec B64.emax m1 e1 = true ->
  SpecFloat.bounded B64.prec B64.emax m2 e2 = true ->
  SFadd B64.prec B64.emax (S754_finite false m1 e1) (S754_finite false m2 e2) =
  rndq ((val64 (S754_finite false m1 e1) + val64 (S754_finite false m2 e2)) * 2 ^ 1074) 1.
Proof.
  intros Hb1 Hb2. apply bounded_inv in Hb1, Hb2.
  cbn [SFadd cond_Zopp].
  destruct (shl_align_spec m1 e1 (Z.min e1 e2)) as [_ H1].
  destruct (shl_align_spec m2 e2 (Z.min e1 e2)) as [_ H2].
  rewrite <- Pos2Z.inj_add.
  rewrite binary_normalize_rndq by lia. f_equal.
  rewrite Pos2Z.inj_add, H1, H2. cbn [val64].
  replace (Z.min e1 (Z.min e1 e2)) with (Z.min e1 e2) by lia.
  replace (Z.min e2 (Z.min e1 e2)) with (Z.min e1 e2) by lia.
  set (ez := Z.min e1 e2).
  replace (e1 + 1074) with (e1 - ez + (ez + 1074)) by lia.
  replace (e2 + 1074) with (e2 - ez + (ez + 1074)) by lia.
  replace (ez + 2148) with (ez + 1074 + 1074) by lia.
  rewrite (Z.pow_add_r 2 (e1 - ez)), (Z.pow_add_r 2 (e2 - ez)),
    (Z.pow_add_r 2 (ez + 1074) 1074) by lia.
  ring.
Qed.

Lemma SFdiv_finite (m1 m2 : positive) (e1 e2 : Z) :
  SpecFloat.bounded B64.prec B64.emax m1 e1 = true ->
  SpecFloat.bounded B64.prec B64.emax m2 e2 = true ->
  SFdiv B64.prec B64.emax (S754_finite false m1 e1) (S754_finite false m2 e2) =
  rndq (val64 (S754_finite false m1 e1) * 2 ^ 2148) (val64 (S754_finite false m2 e2)).
Proof.
  intros Hb1 Hb2. apply bounded_inv in Hb1, Hb2.
  cbn [SFdiv xorb]. unfold SFdiv_core_binary. cbn [Zdigits2].
  set (d1 := Zpos (digits2_pos m1)) in *. set (d2 := Zpos (digits2_pos m2)) in *.
  set (e' := Z.min (fexp B64.prec B64.emax (d1 + e1 - (d2 + e2))) (e1 - e2)).
  assert (He' : e' = Z.min (Z.max (d1 + e1 - (d2 + e2) - 53) (-1074)) (e1 - e2)).
  { unfold e'. rewrite fexp_b64. reflexivity. }
  set (s := e1 - e2 - e').
  assert (Hs : 0 <= s) by (unfold s; lia).
  set (m' := match s with
             | 0 => Zpos m1
             | Zpos _ => Z.shiftl (Zpos m1) s
             | Zneg _ => 0
             end).
  assert (Hm' : m' = Zpos m1 * 2 ^ s).
  { unfold m'. destruct s as [| p | p] eqn:Es.
    - rewrite Z.pow_0_r. lia.
    - apply Z.shiftl_mul_pow2. lia.
    - lia. }
  clearbody m'.
  assert (Hp : 0 < 2 ^ s) by (apply Z.pow_pos_nonneg; lia).
  destruct (Z.div_eucl m' (Zpos m2)) as [q r] eqn:Hqr.
  assert (Hq : q = m' / Zpos m2) by (unfold Z.div; rewrite Hqr; reflexivity).
  assert (Hr : r = m' mod Zpos m2) by (unfold Z.modulo; rewrite Hqr; reflexivity).
  pose proof (Z.div_mod m' (Zpos m2) ltac:(lia)) as Hdm.
  pose proof (Z.mod_pos_bound m' (Zpos m2) ltac:(lia)) as Hrb.
  rewrite <- Hq, <- Hr in *.
  assert (Hq0 : 0 <= q) by (subst q; apply Z.div_pos; nia).
  rewrite new_location_loc_of by exact Hrb.
  rewrite (bra_rndq m' (Zpos m2) q r e'); try lia.
  - cbn [val64].
    rewrite <- (rndq_scale (m' * 2 ^ (e' + 2148)) (Zpos m2) (2 ^ (e2 + 1074)));
      [| lia | apply Z.pow_pos_nonneg; lia].
    f_equal. rewrite Hm'.
    rewrite <- !Z.mul_assoc. f_equal.
    rewrite <- !Z.pow_add_r by lia. f_equal. unfold s. lia.
  - rewrite fexp_b64.
    destruct (Z_le_gt_dec e' (-1074)) as [Hle | Hgt]; [lia |].
    assert (Hs53 : d2 - d1 + 53 <= s) by (unfold s; lia).
    pose proof (digits2_pos_bounds m1) as B1. fold d1 in B1.
    pose proof (digits2_pos_bounds m2) as B2. fold d2 in B2.
    assert (H52 : 2 ^ 52 <= q).
    { subst q. apply Z.div_le_lower_bound; [lia |].
      rewrite Hm'.
      assert (Hpow : 2 ^ d2 * 2 ^ 52 <= 2 ^ (d1 - 1) * 2 ^ s).
      { rewrite <- !Z.pow_add_r by (unfold d1, d2 in *; lia).
        apply Z.pow_le_mono_r; lia. }
      assert (0 < 2 ^ (d1 - 1)) by (apply Z.pow_pos_nonneg; unfold d1; lia).
      assert (Zpos m2 * 2 ^ 52 <= 2 ^ d2 * 2 ^ 52).
      { apply Z.mul_le_mono_nonneg_r; lia. }
      assert (2 ^ (d1 - 1) * 2 ^ s <= Zpos m1 * 2 ^ s).
      { apply Z.mul_le_mono_nonneg_r; lia. }
      lia. }
    assert (53 <= Zdigits2 q).
    { change 53 with (Zdigits2 (2 ^ 52)). apply Zdigits2_mono. lia. }
    lia.
Qed.

(** **** The operations on non-negative doubles *)

Lemma rndq_nonneg (N D : Z) :
  0 < D -> 0 <= N -> B64.nonneg (rndq N D) = true.
Proof.
  intros HD HN. unfold B64.nonneg.
  rewrite (rndq_valid N D HD HN). apply round_fin_nonneg.
Qed.

Lemma nonneg_zero (s : bool) : B64.nonneg (S754_zero s) = true.
Proof. reflexivity. Qed.

(** The product of two finite non-negative doubles is a zero, or the
    rounding of the product of their values. *)
Lemma SFmul_nonneg (x y : spec_float) :
  B64.nonneg x = true -> B64.nonneg y = true ->
  B64.finite x = true -> B64.finite y = true ->
  B64.nonneg (SFmul B64.prec B64.emax x y) = true /\
  (val64 x * val64 y = 0 -> exists s, SFmul B64.prec B64.emax x y = S754_zero s) /\
  (0 < val64 x * val64 y -> SFmul B64.prec B64.emax x y = rndq (val64 x * val64 y) 1).
Proof.
  intros Hx Hy Fx Fy.
  destruct (nonneg_inv x Hx) as [[sx ->] | [-> | (m1 & e1 & -> & Hb1)]];
    [| discriminate |];
    (destruct (nonneg_inv y Hy) as [[sy ->] | [-> | (m2 & e2 & -> & Hb2)]];
     [| discriminate |]).
  - split; [reflexivity |]. split; [eexists; reflexivity | cbn [val64]; lia].
  - split; [reflexivity |]. split; [eexists; reflexivity | cbn [val64]; lia].
  - split; [reflexivity |]. split; [eexists; reflexivity | cbn [val64]; lia].
  - pose proof (bounded_inv _ _ Hb1). pose proof (bounded_inv _ _ Hb2).
    pose proof (val64_finite_pos false m1 e1 ltac:(lia)).
    pose proof (val64_finite_pos false m2 e2 ltac:(lia)).
    rewrite (SFmul_finite m1 m2 e1 e2 Hb1 Hb2).
    split; [apply rndq_nonneg; nia |]. split; [nia | reflexivity].
Qed.

Lemma SFmul_mono (a b w : spec_float) :
  B64.nonneg a = true -> B64.nonneg b = true -> B64.nonneg w = true ->
  B64.finite b = true -> B64.finite w = true ->
  SFleb a b = true ->
  SFleb (SFmul B64.prec B64.emax a w) (SFmul B64.prec B64.emax b w) = true.
Proof.
  intros Ha Hb Hw Fb Fw Hle.
  pose proof (SFleb_finite_l a b Ha Hle Fb) as Fa.
  pose proof (SFleb_val64 a b Ha Hb Fa Fb Hle) as HV.
  pose proof (val64_nonneg a Ha). pose proof (val64_nonneg w Hw).
  destruct (SFmul_nonneg a w Ha Hw Fa Fw) as (Na & Za & Pa).
  destruct (SFmul_nonneg b w Hb Hw Fb Fw) as (Nb & Zb & Pb).
  destruct (Z.eq_dec (val64 a * val64 w) 0) as [Hz | Hz].
  - destruct (Za Hz) as [s ->]. apply SFleb_zero_l, Nb.
  - rewrite Pa by nia. rewrite Pb by nia. apply rndq_mono; nia.
Qed.

(** The sum of two finite non-negative doubles is a zero, or the rounding
    of the sum of their values. *)
Lemma SFadd_nonneg (x y : spec_float) :
  B64.nonneg x = true -> B64.nonneg y = true ->
  B64.finite x = true -> B64.finite y = true ->
  B64.nonneg (SFadd B64.prec B64.emax x y) = true /\
  (val64 x + val64 y = 0 -> exists s, SFadd B64.prec B64.emax x y = S754_zero s) /\
  (0 < val64 x + val64 y ->
   SFadd B64.prec B64.emax x y = rndq ((val64 x + val64 y) * 2 ^ 1074) 1).
Proof.
  intros Hx Hy Fx Fy.
  assert (Hid : forall m e, SpecFloat.bounded B64.prec B64.emax m e = true ->
            S754_finite false m e =
            rndq (val64 (S754_finite false m e) * 2 ^ 1074) 1).
  { intros m e Hb.
    transitivity (rndq (Zpos m * 2 ^ (e + 2148)) 1);
      [symmetry; apply rndq_id, Hb |].
    f_equal. cbn [val64]. pose proof (bounded_inv _ _ Hb).
    rewrite <- Z.mul_assoc, <- Z.pow_add_r by lia. f_equal. f_equal. lia. }
  destruct (nonneg_inv x Hx) as [[sx ->] | [-> | (m1 & e1 & -> & Hb1)]];
    [| discriminate |];
    (destruct (nonneg_inv y Hy) as [[sy ->] | [-> | (m2 & e2 & -> & Hb2)]];
     [| discriminate |]).
  - split; [destruct sx, sy; reflexivity |].
    split; [destruct sx, sy; eexists; reflexivity | cbn [val64]; lia].
  - pose proof (bounded_inv _ _ Hb2).
    pose proof (val64_finite_pos false m2 e2 ltac:(lia)).
    cbn [SFadd]. split; [exact Hy |]. split; [cbn [val64] in *; lia |].
    intros _. change (val64 (S754_zero sx)) with 0. rewrite Z.add_0_l.
    apply Hid, Hb2.
  - pose proof (bounded_inv _ _ Hb1).
    pose proof (val64_finite_pos false m1 e1 ltac:(lia)).
    cbn [SFadd]. split; [exact Hx |]. split; [cbn [val64] in *; lia |].
    intros _. change (val64 (S754_zero sy)) with 0. rewrite Z.add_0_r.
    apply Hid, Hb1.
  - pose proof (bounded_inv _ _ Hb1). pose proof (bounded_inv _ _ Hb2).
    pose proof (val64_finite_pos false m1 e1 ltac:(lia)).
    pose proof (val64_finite_pos false m2 e2 ltac:(lia)).
    rewrite (SFadd_finite m1 m2 e1 e2 Hb1 Hb2).
    split; [apply rndq_nonneg; nia |]. split; [lia | reflexivity].
Qed.

Lemma SFadd_infinity (x y : spec_float) :
  B64.nonneg x = true -> B64.nonneg y = true ->
  B64.finite x = false \/ B64.finite y = false ->
  SFadd B64.prec B64.emax x y = S754_infinity false.
Proof.
  intros Hx Hy H.
  destruct (nonneg_inv x Hx) as [[sx ->] | [-> | (m1 & e1 & -> & Hb1)]];
    destruct (nonneg_inv y Hy) as [[sy ->] | [-> | (m2 & e2 & -> & Hb2)]];
    try reflexivity; destruct H; discriminate.
Qed.

Lemma SFadd_nonneg_any (x y : spec_float) :
  B64.nonneg x = true -> B64.nonneg y = true ->
  B64.nonneg (SFadd B64.prec B64.emax x y) = true.
Proof.
  intros Hx Hy.
  destruct (B64.finite x) eqn:Fx; [destruct (B64.finite y) eqn:Fy |].
  - apply SFadd_nonneg; assumption.
  - rewrite SFadd_infinity by auto. reflexivity.
  - rewrite SFadd_infinity by auto. reflexivity.
Qed.

Lemma SFadd_mono (a a' b b' : spec_float) :
  B64.nonneg a = true -> B64.nonneg a' = true ->
  B64.nonneg b = true -> B64.nonneg b' = true ->
  SFleb a a' = true -> SFleb b b' = true ->
  SFleb (SFadd B64.prec B64.emax a b) (SFadd B64.prec B64.emax a' b') = true.
Proof.
  intros Ha Ha' Hb Hb' Hla Hlb.
  destruct (B64.finite a') eqn:Fa'; [destruct (B64.finite b') eqn:Fb' |].
  - pose proof (SFleb_finite_l a a' Ha Hla Fa') as Fa.
    pose proof (SFleb_finite_l b b' Hb Hlb Fb') as Fb.
    pose proof (SFleb_val64 a a' Ha Ha' Fa Fa' Hla).
    pose proof (SFleb_val64 b b' Hb Hb' Fb Fb' Hlb).
    pose proof (val64_nonneg a Ha). pose proof (val64_nonneg b Hb).
    destruct (SFadd_nonneg a b Ha Hb Fa Fb) as (N1 & Z1 & P1).
    destruct (SFadd_nonneg a' b' Ha' Hb' Fa' Fb') as (N2 & Z2 & P2).
    destruct (Z.eq_dec (val64 a + val64 b) 0) as [Hz | Hz].
    + destruct (Z1 Hz) as [s ->]. apply SFleb_zero_l, N2.
    + rewrite P1 by lia. rewrite P2 by lia.
      apply rndq_mono; lia.
  - rewrite (SFadd_infinity a' b') by auto.
    apply SFleb_infinity_r, SFadd_nonneg_any; assumption.
  - rewrite (SFadd_infinity a' b') by auto.
    apply SFleb_infinity_r, SFadd_nonneg_any; assumption.
Qed.

(** The quotient of a finite non-negative double by a positive one is a
    zero, or the rounding of the quotient of their values. *)
Lemma SFdiv_nonneg (x y : spec_float) :
  B64.nonneg x = true -> B64.nonneg y = true ->
  B64.finite x = true -> 0 < val64 y ->
  B64.nonneg (SFdiv B64.prec B64.emax x y) = true /\
  (val64 x = 0 -> exists s, SFdiv B64.prec B64.emax x y = S754_zero s) /\
  (0 < val64 x -> SFdiv B64.prec B64.emax x y = rndq (val64 x * 2 ^ 2148) (val64 y)).
Proof.
  intros Hx Hy Fx Py.
  destruct (val64_pos_inv y Hy Py) as (m2 & e2 & -> & Hb2).
  destruct (nonneg_inv x Hx) as [[sx ->] | [-> | (m1 & e1 & -> & Hb1)]];
    [| discriminate |].
  - split; [reflexivity |]. split; [eexists; reflexivity | cbn [val64]; lia].
  - pose proof (bounded_inv _ _ Hb1).
    pose proof (val64_finite_pos false m1 e1 ltac:(lia)).
    rewrite (SFdiv_finite m1 m2 e1 e2 Hb1 Hb2).
    split; [apply rndq_nonneg; nia |]. split; [lia | reflexivity].
Qed.

Lemma SFdiv_infinity (x : spec_float) :
  B64.nonneg x = true -> B64.finite x = true ->
  exists s, SFdiv B64.prec B64.emax x (S754_infinity false) = S754_zero s.
Proof.
  intros Hx Fx.
  destruct (nonneg_inv x Hx) as [[sx ->] | [-> | (m1 & e1 & -> & Hb1)]];
    [| discriminate |]; eexists; reflexivity.
Qed.

Lemma SFdiv_nonneg_any (x y : spec_float) :
  B64.nonneg x = true -> B64.nonneg y = true ->
  B64.finite x = true -> 0 < val64 y \/ B64.finite y = false ->
  B64.nonneg (SFdiv B64.prec B64.emax x y) = true.
Proof.
  intros Hx Hy Fx [Py | Fy].
  - apply SFdiv_nonneg; assumption.
  - destruct (nonneg_inv y Hy) as [[sy ->] | [-> | (m2 & e2 & -> & Hb2)]];
      try discriminate.
    destruct (SFdiv_infinity x Hx Fx) as [s ->]. reflexivity.
Qed.

(** Dividing by more gives less. *)
Lemma SFdiv_anti (x y y' : spec_float) :
  B64.nonneg x = true -> B64.nonneg y = true -> B64.nonneg y' = true ->
  B64.finite x = true -> 0 < val64 y ->
  SFleb y y' = true ->
  SFleb (SFdiv B64.prec B64.emax x y') (SFdiv B64.prec B64.emax x y) = true.
Proof.
  intros Hx Hy Hy' Fx Py Hle.
  destruct (SFdiv_nonneg x y Hx Hy Fx Py) as (N1 & Z1 & P1).
  destruct (B64.finite y') eqn:Fy'.
  - assert (Fy : B64.finite y = true).
    { destruct (val64_pos_inv y Hy Py) as (m & e & -> & _). reflexivity. }
    pose proof (SFleb_val64 y y' Hy Hy' Fy Fy' Hle) as HV.
    destruct (SFdiv_nonneg x y' Hx Hy' Fx ltac:(lia)) as (N2 & Z2 & P2).
    pose proof (val64_nonneg x Hx).
    destruct (Z.eq_dec (val64 x) 0) as [Hz | Hz].
    + destruct (Z2 Hz) as [s ->]. apply SFleb_zero_l, N1.
    + rewrite P1 by lia. rewrite P2 by lia.
      assert (0 < 2 ^ 2148) by (apply Z.pow_pos_nonneg; lia).
      apply rndq_mono; try lia; nia.
  - destruct (nonneg_inv y' Hy') as [[sy ->] | [-> | (m2 & e2 & -> & Hb2)]];
      try discriminate.
    destruct (SFdiv_infinity x Hx Fx) as [s ->]. apply SFleb_zero_l, N1.
Qed.



End Binary64Facts.

(** C2, as amended.  The combined score of every item of the Stage 2
    output is [llm_score * llm_weight + cross_score * cross_encoder_weight]
    in the arithmetic of the scores, for whatever weights the caller gives:
    they are neither checked nor normalized, and whether Stage 2 returns
    does not depend on them.  For judgment score 8, pairwise score 6 and
    weights 0.7 and 0.3 the sum computed in binary64 is
    8331659310635417 * 2^-50 = 7.3999999999999995, the double just below the
    double nearest to 7.4; in exact arithmetic it is 7.4. *)
Theorem combined_score_is_weighted_sum {num : Type} {arith : Arith num}
    (container_repr : value -> string)
    (predict : string -> string -> result num)
    (judge : nat -> value -> value -> result (LLMJudgment num))
    (bi_encoder_ranking : list (ranking_entry num))
    (structured_resumes : list value) (job : value) (top_n : Z)
    (llm_weight cross_encoder_weight : num) (out : list (fusion_entry num))
    (e : fusion_entry num) :
  score_and_rank container_repr predict judge bi_encoder_ranking
    structured_resumes job top_n llm_weight cross_encoder_weight = Ok out ->
  In e out ->
  combined_score e =
    add (mul (llm_score e) llm_weight) (mul (cross_score e) cross_encoder_weight) /\
  (forall llm_weight' cross_encoder_weight',
     returns (score_and_rank container_repr predict judge bi_encoder_ranking
                structured_resumes job top_n llm_weight' cross_encoder_weight')) /\
  (forall libm_exp,
     combined_score
       (@combine _ (B64.arith libm_exp)
          [judged (VStr "Ada") (B64.of_Z 8)] [scored (VStr "Ada") (B64.of_Z 6)]
          (B64.decimal 7 10) (B64.decimal 3 10) (VStr "Ada")) =
     S754_finite false 8331659310635417 (-50)) /\
  combined_score
    (@combine _ Exact.arith
       [judged (VStr "Ada") 8%R] [scored (VStr "Ada") 6%R]
       (7 / 10)%R (3 / 10)%R (VStr "Ada")) = (74 / 10)%R.
Proof.
  intros H He. split; [| split; [| split]].
  - eapply fused_weighted_sum; eauto.
  - intros w1 w2. eapply stage2_any_weights; eauto.
  - intros libm_exp. vm_compute. reflexivity.
  - cbn. field.
Qed.

(** C9, as amended.  When the request to the Judge fails for a top
    candidate that has a record, at the first turn on its name, the judgment
    is the empty result, and every entry of this name in the Stage 2 output
    has judgment score 0, the pairwise score of its record, and the combined
    score [0 * llm_weight + cross_score * cross_encoder_weight]: the
    pairwise term alone, exactly so in exact arithmetic and up to the sign
    of a zero in binary64 with a finite weight.  (A request that fails at a
    later turn on the same name changes nothing: the entries of a name show
    the result stored first.)  Stage 2 returns whatever the Judge does, with
    one item for each top entry. *)
Theorem judge_failure_tolerated {num : Type} {arith : Arith num}
    (container_repr : value -> string)
    (predict : string -> string -> result num)
    (judge : nat -> value -> value -> result (LLMJudgment num))
    (bi_encoder_ranking : list (ranking_entry num))
    (structured_resumes : list value) (job : value) (top_n : Z)
    (llm_weight cross_encoder_weight : num) (out : list (fusion_entry num))
    (d : list (value * value)) (before after : list value)
    (name candidate_data : value) (err : exn) :
  score_and_rank container_repr predict judge bi_encoder_ranking
    structured_resumes job top_n llm_weight cross_encoder_weight = Ok out ->
  index_by_name structured_resumes [] = Ok d ->
  map candidate_name (py_slice_to bi_encoder_ranking top_n) =
    before ++ name :: after ->
  Forall (fun n => key_eqb n name = false) before ->
  dict_find name d = Some candidate_data ->
  judge (List.length before) job candidate_data = Raise err ->
  llm_as_a_judge judge (List.length before) job candidate_data = None /\
  (exists e lr job_text text raw,
     In e out /\ fused_name e = name /\
     llm_analysis e = Some lr /\ llm_judgement lr = None /\
     llm_score e = of_int 0 /\
     format_job_description container_repr job = Ok job_text /\
     format_resume container_repr candidate_data = Ok text /\
     predict job_text text = Ok raw /\
     rescale raw = Ok (cross_score e) /\
     combined_score e =
       add (mul (of_int 0) llm_weight) (mul (cross_score e) cross_encoder_weight) /\
     forall e', In e' out -> fused_name e' = name -> e' = e) /\
  List.length out = List.length (py_slice_to bi_encoder_ranking top_n) /\
  (forall judge',
     returns (score_and_rank container_repr predict judge' bi_encoder_ranking
                structured_resumes job top_n llm_weight cross_encoder_weight)) /\
  (forall w x : R,
     @add _ Exact.arith (@mul _ Exact.arith (@of_int _ Exact.arith 0) w) x = x) /\
  (forall libm_exp w x,
     B64.finite w = true -> B64.is_nan x = false ->
     SFcompare
       (@add _ (B64.arith libm_exp)
          (@mul _ (B64.arith libm_exp) (@of_int _ (B64.arith libm_exp) 0) w) x)
       x = Some Eq).
Proof.
  intros H Hd Hsplit Hbefore Hfind Hjudge.
  split; [| split; [| split; [| split; [| split]]]].
  - unfold llm_as_a_judge. rewrite Hjudge. reflexivity.
  - eapply judge_failure_entry; eauto.
  - eapply stage2_length; eauto.
  - intros judge'. eapply stage2_any_judge; eauto.
  - apply exact_zero_judgment.
  - apply b64_zero_judgment.
Qed.

(** *** The scores in binary64 *)

Lemma finite_opp (x : spec_float) : B64.finite (SFopp x) = B64.finite x.
Proof. destruct x; reflexivity. Qed.

(** [1 / (1 + v)] for a [v] that is positive or zero: the division does
    not raise and the quotient lies between 0 and 1. *)
Lemma sigmoid_b64 (v : spec_float) :
  B64.nonneg v = true ->
  B64.nonneg (SFadd B64.prec B64.emax (B64.of_Z 1) v) = true /\
  SFleb (B64.of_Z 1) (SFadd B64.prec B64.emax (B64.of_Z 1) v) = true /\
  B64.fdiv (B64.of_Z 1) (SFadd B64.prec B64.emax (B64.of_Z 1) v) =
    Ok (SFdiv B64.prec B64.emax (B64.of_Z 1)
          (SFadd B64.prec B64.emax (B64.of_Z 1) v)) /\
  B64.nonneg
    (SFdiv B64.prec B64.emax (B64.of_Z 1)
       (SFadd B64.prec B64.emax (B64.of_Z 1) v)) = true /\
  SFleb
    (SFdiv B64.prec B64.emax (B64.of_Z 1)
       (SFadd B64.prec B64.emax (B64.of_Z 1) v)) (B64.of_Z 1) = true /\
  B64.finite
    (SFdiv B64.prec B64.emax (B64.of_Z 1)
       (SFadd B64.prec B64.emax (B64.of_Z 1) v)) = true.
Proof.
  intros Hv.
  pose (one := B64.of_Z 1).
  pose (s1 := SFadd B64.prec B64.emax one v).
  pose (s2 := SFdiv B64.prec B64.emax one s1).
  fold one. fold s1. fold s2.
  assert (H1 : B64.nonneg one = true) by reflexivity.
  assert (P1 : (0 < val64 one)%Z) by (vm_compute; reflexivity).
  assert (Hs1 : B64.nonneg s1 = true) by (apply SFadd_nonneg_any; assumption).
  assert (Hle1 : SFleb one s1 = true).
  { apply (SFadd_mono one one (S754_zero false) v); try assumption;
      try reflexivity. apply SFleb_zero_l, Hv. }
  assert (Hdiv : B64.fdiv one s1 = Ok s2).
  { unfold B64.fdiv, s2. destruct s1 as [s | s | | s m e]; try reflexivity.
    discriminate Hle1. }
  assert (Hpos1 : (0 < val64 s1)%Z \/ B64.finite s1 = false).
  { destruct (B64.finite s1) eqn:F; [left | right; reflexivity].
    pose proof (SFleb_val64 one s1 H1 Hs1 eq_refl F Hle1). lia. }
  assert (Hs2 : B64.nonneg s2 = true).
  { apply SFdiv_nonneg_any; auto. }
  assert (Hle2 : SFleb s2 one = true).
  { pose proof (SFdiv_anti one one s1 H1 H1 Hs1 eq_refl P1 Hle1) as H.
    assert (Hc : SFdiv B64.prec B64.emax one one = one)
      by (vm_compute; reflexivity).
    rewrite Hc in H. exact H. }
  assert (Fs2 : B64.finite s2 = true).
  { apply (SFleb_finite_l s2 one Hs2 Hle2). reflexivity. }
  auto 10.
Qed.

Lemma rescale_b64_eq (libm_exp : spec_float -> result spec_float)
    (raw v : spec_float) :
  libm_exp (SFopp raw) = Ok v -> B64.nonneg v = true ->
  @rescale _ (B64.arith libm_exp) raw =
  Ok (SFmul B64.prec B64.emax
        (SFdiv B64.prec B64.emax (B64.of_Z 1)
           (SFadd B64.prec B64.emax (B64.of_Z 1) v)) (B64.of_Z 10)).
Proof.
  intros Hexp Hv. destruct (sigmoid_b64 v Hv) as (_ & _ & Hdiv & _).
  unfold rescale. cbn [math_exp neg add div mul of_int B64.arith].
  rewrite Hexp. cbn [bind]. rewrite Hdiv. reflexivity.
Qed.


Lemma rescale_raises (libm_exp : spec_float -> result spec_float)
    (raw : spec_float) (err : exn) :
  libm_exp (SFopp raw) = Raise err ->
  @rescale _ (B64.arith libm_exp) raw = Raise err.
Proof.
  intros H. unfold rescale. cbn [math_exp neg B64.arith]. rewrite H. reflexivity.
Qed.




(** * Runs *)

(** The properties above at the sample inputs, and runs on which the
    statements of the design document that had to be amended fail. *)

Ltac run := vm_compute; reflexivity.

Ltac in_cases H :=
  cbn in H; repeat (destruct H as [<- | H]); try contradiction.

Ltac order_on_sample :=
  split;
  [ intros x y Hx Hy; in_cases Hx; in_cases Hy; vm_compute; intros;
    (discriminate || reflexivity)
  | intros x y z Hx Hy Hz; in_cases Hx; in_cases Hy; in_cases Hz;
    vm_compute; intros; (discriminate || auto) ].

(** ** Stage 1 *)

Lemma filtering_pool3 : Sample.filtering Sample.pool3 = Ok Sample.filtered3.
Proof. run. Qed.

Lemma filtering_twins : Sample.filtering Sample.twins = Ok Sample.filtered_twins.
Proof. run. Qed.

Lemma filtering_anonymous :
  Sample.filtering Sample.pool_anonymous = Ok Sample.filtered_anonymous.
Proof. run. Qed.

Lemma stage1_complete_witness :
  Sample.filtering Sample.pool3 = Ok Sample.filtered3 /\
  List.length Sample.filtered3 = 3 /\
  Permutation (map candidate_name Sample.filtered3)
    [VStr "Bob"; VStr "Cy"; VStr "Ada"].
Proof.
  split; [exact filtering_pool3 |].
  destruct (@stage1_complete _ Sample.arith repr_elided Sample.similarity
              Sample.job Sample.pool3 Sample.filtered3 filtering_pool3)
    as (Hlen & Hperm & _).
  split; [exact Hlen | exact Hperm].
Defined.

(** Two candidates of one name: the identity is twice in the output.  So
    is "Unknown Candidate" for two candidates without a name, such as two
    resumes whose extraction failed and left [{}]. *)
Lemma twins_listed_twice :
  Sample.twins <> [] /\
  Sample.filtering Sample.twins = Ok Sample.filtered_twins /\
  List.length Sample.filtered_twins = List.length Sample.twins /\
  count_name (VStr "Ada") Sample.filtered_twins = 2 /\
  Sample.filtering [VDict []; VDict []] =
    Ok [{| candidate_name := VStr "Unknown Candidate"; rank := B64.of_Z 97 |};
        {| candidate_name := VStr "Unknown Candidate"; rank := B64.of_Z 97 |}].
Proof.
  split; [discriminate |]. split; [run |]. split; [reflexivity |].
  split; [reflexivity | run].
Qed.

(** ** Stage 2 *)

Lemma fusion_ranking3 :
  Sample.fusion Sample.ranking3 Sample.resumes3 3 Sample.w07 Sample.w03 =
  Ok Sample.fused3.
Proof. run. Qed.

Lemma fusion_top2 :
  Sample.fusion Sample.ranking3 Sample.resumes3 2 Sample.w07 Sample.w03 =
  Ok Sample.fused_top2.
Proof. run. Qed.

Lemma fusion_minus1 :
  Sample.fusion Sample.ranking3 Sample.resumes3 (-1) Sample.w07 Sample.w03 =
  Ok Sample.fused_minus1.
Proof. run. Qed.

Lemma fusion_stranger :
  Sample.fusion Sample.ranking_stranger [Sample.ada] 2 Sample.w07 Sample.w03 =
  Ok Sample.fused_stranger.
Proof. run. Qed.

Lemma fusion_anonymous :
  Sample.fusion Sample.filtered_anonymous Sample.pool_anonymous 3 Sample.w07
    Sample.w03 = Ok Sample.fused_anonymous.
Proof. run. Qed.

Lemma zed_has_no_record :
  Forall (fun c => key_eqb (VStr "Zed") (record_name c) = false) [Sample.ada].
Proof. repeat constructor. Qed.

Lemma unresolved_listed_witness :
  Sample.fusion Sample.ranking_stranger [Sample.ada] 2 Sample.w07 Sample.w03 =
    Ok Sample.fused_stranger /\
  In (VStr "Zed") (map candidate_name (py_slice_to Sample.ranking_stranger 2)) /\
  Forall (fun c => key_eqb (VStr "Zed") (record_name c) = false) [Sample.ada] /\
  In {| fused_name := VStr "Zed";
        llm_score := B64.of_Z 0;
        cross_score := B64.of_Z 0;
        combined_score := S754_zero false;
        llm_analysis := None |} Sample.fused_stranger /\
  List.length Sample.fused_stranger = 2.
Proof.
  assert (Hin : In (VStr "Zed")
                  (map candidate_name (py_slice_to Sample.ranking_stranger 2))).
  { vm_compute. auto. }
  split; [exact fusion_stranger |]. split; [exact Hin |].
  split; [exact zed_has_no_record |].
  destruct (@unresolved_listed_with_zero_scores _ Sample.arith repr_elided
           Sample.predict Sample.judge Sample.ranking_stranger [Sample.ada]
           Sample.job 2 Sample.w07 Sample.w03 Sample.fused_stranger (VStr "Zed")
           fusion_stranger Hin zed_has_no_record) as (Hzed & Hlen & _).
  split; [exact Hzed | exact Hlen].
Defined.

(** Zed is among the first two of the ranking and has no record, and is in
    the Stage 2 output all the same, whose size is [top_n]. *)
Lemma unresolved_candidate_not_excluded :
  Sample.fusion Sample.ranking_stranger [Sample.ada] 2 Sample.w07 Sample.w03 =
    Ok Sample.fused_stranger /\
  In (VStr "Zed") (map candidate_name (py_slice_to Sample.ranking_stranger 2)) /\
  Forall (fun c => key_eqb (VStr "Zed") (record_name c) = false) [Sample.ada] /\
  In (VStr "Zed") (map fused_name Sample.fused_stranger) /\
  List.length Sample.fused_stranger = 2.
Proof.
  split; [run |]. split; [vm_compute; auto |]. split; [repeat constructor |].
  split; [vm_compute; auto | reflexivity].
Qed.

Lemma stage2_gated_witness :
  Sample.fusion Sample.ranking3 Sample.resumes3 2 Sample.w07 Sample.w03 =
    Ok Sample.fused_top2 /\
  Permutation (map fused_name Sample.fused_top2) [VStr "Ada"; VStr "Bob"].
Proof.
  split; [exact fusion_top2 |].
  destruct (@stage2_gated _ Sample.arith repr_elided Sample.predict Sample.judge
              Sample.ranking3 Sample.resumes3 Sample.job 2 Sample.w07 Sample.w03
              Sample.fused_top2 fusion_top2) as (Hperm & _).
  exact Hperm.
Defined.

(** With [top_n = -1] the output is not empty: it lists all but the last of
    the three ranked candidates. *)
Lemma negative_top_n_not_empty :
  (-1 <= 0)%Z /\
  Sample.fusion Sample.ranking3 Sample.resumes3 (-1) Sample.w07 Sample.w03 =
    Ok Sample.fused_minus1 /\
  Sample.fused_minus1 <> [] /\
  map fused_name Sample.fused_minus1 = [VStr "Ada"; VStr "Bob"].
Proof.
  split; [lia |]. split; [run |]. split; [discriminate | reflexivity].
Qed.

Lemma combined_score_witness :
  Sample.fusion Sample.ranking3 Sample.resumes3 3 Sample.w07 Sample.w03 =
    Ok Sample.fused3 /\
  In Sample.ada_item Sample.fused3 /\
  combined_score Sample.ada_item =
    SFadd B64.prec B64.emax
      (SFmul B64.prec B64.emax (llm_score Sample.ada_item) Sample.w07)
      (SFmul B64.prec B64.emax (cross_score Sample.ada_item) Sample.w03).
Proof.
  assert (Hin : In Sample.ada_item Sample.fused3) by (left; reflexivity).
  split; [exact fusion_ranking3 |]. split; [exact Hin |].
  destruct (@combined_score_is_weighted_sum _ Sample.arith repr_elided
              Sample.predict Sample.judge Sample.ranking3 Sample.resumes3
              Sample.job 3 Sample.w07 Sample.w03 Sample.fused3 Sample.ada_item
              fusion_ranking3 Hin) as (Hsum & _).
  exact Hsum.
Defined.

(** In binary64, 8 * 0.7 + 6 * 0.3 is not the double that 7.4 denotes: it is
    smaller. *)
Lemma fusion_example_below_7_4 :
  let combined :=
    combined_score
      (@combine _ Sample.arith
         [judged (VStr "Ada") (B64.of_Z 8)] [scored (VStr "Ada") (B64.of_Z 6)]
         (B64.decimal 7 10) (B64.decimal 3 10) (VStr "Ada")) in
  combined <> B64.decimal 74 10 /\
  SFeqb combined (B64.decimal 74 10) = false /\
  SFltb combined (B64.decimal 74 10) = true.
Proof.
  cbv zeta. split; [| split]; [| run | run].
  intros H. vm_compute in H. discriminate.
Qed.

Lemma judge_failure_witness :
  Sample.fusion Sample.ranking3 Sample.resumes3 3 Sample.w07 Sample.w03 =
    Ok Sample.fused3 /\
  index_by_name Sample.resumes3 [] =
    Ok [(VStr "Ada", Sample.ada); (VStr "Bob", Sample.bob); (VStr "Cy", Sample.cy)] /\
  map candidate_name (py_slice_to Sample.ranking3 3) =
    [VStr "Ada"] ++ VStr "Bob" :: [VStr "Cy"] /\
  Sample.judge 1 Sample.job Sample.bob = Raise ExternalError /\
  List.length Sample.fused3 = 3 /\
  llm_as_a_judge Sample.judge 1 Sample.job Sample.bob = None /\
  (forall e, In e Sample.fused3 -> fused_name e = VStr "Bob" ->
     llm_score e = B64.of_Z 0).
Proof.
  assert (Hd : index_by_name Sample.resumes3 [] =
               Ok [(VStr "Ada", Sample.ada); (VStr "Bob", Sample.bob);
                   (VStr "Cy", Sample.cy)]) by reflexivity.
  assert (Hsplit : map candidate_name (py_slice_to Sample.ranking3 3) =
                   [VStr "Ada"] ++ VStr "Bob" :: [VStr "Cy"]) by reflexivity.
  assert (Hj : Sample.judge 1 Sample.job Sample.bob = Raise ExternalError)
    by reflexivity.
  destruct (@judge_failure_tolerated _ Sample.arith repr_elided Sample.predict
              Sample.judge Sample.ranking3 Sample.resumes3 Sample.job 3
              Sample.w07 Sample.w03 Sample.fused3 _ [VStr "Ada"] [VStr "Cy"]
              (VStr "Bob") Sample.bob ExternalError fusion_ranking3 Hd Hsplit
              ltac:(repeat constructor) eq_refl Hj)
    as (Hnone & (e & lr & jt & text & raw & _ & _ & _ & _ & Hzero & _ & _ & _ &
                 _ & _ & Hall) & Hlen & _).
  split; [exact fusion_ranking3 |]. split; [exact Hd |].
  split; [exact Hsplit |]. split; [exact Hj |].
  split; [exact Hlen |]. split; [exact Hnone |].
  intros e' He' Hname. rewrite (Hall e' He' Hname). exact Hzero.
Defined.

(** Two top entries of one name, and a Judge whose second request fails:
    the request for the second entry fails, and yet the entry has the
    judgment score 8 of the first request, and a combined score that is not
    the pairwise term alone. *)
Lemma later_judge_failure_keeps_first_judgment :
  @score_and_rank _ Sample.arith repr_elided Sample.predict
    OddSample.judge_once Sample.filtered_twins Sample.twins Sample.job 2
    Sample.w07 Sample.w03 = Ok OddSample.fused_twins_once /\
  map candidate_name (py_slice_to Sample.filtered_twins 2) =
    [VStr "Ada"; VStr "Ada"] /\
  index_by_name Sample.twins [] =
    Ok [(VStr "Ada", Sample.candidate "Ada" "Analyst")] /\
  OddSample.judge_once 1 Sample.job (Sample.candidate "Ada" "Analyst") =
    Raise ExternalError /\
  map llm_score OddSample.fused_twins_once = [B64.of_Z 8; B64.of_Z 8] /\
  map cross_score OddSample.fused_twins_once = [B64.of_Z 5; B64.of_Z 5] /\
  Forall (fun e => SFeqb (combined_score e)
                     (SFmul B64.prec B64.emax (cross_score e) Sample.w03) = false)
    OddSample.fused_twins_once.
Proof.
  split; [run |]. split; [reflexivity |]. split; [reflexivity |].
  split; [reflexivity |]. split; [reflexivity |]. split; [reflexivity |].
  repeat constructor.
Qed.

(** ** The order of the rankings *)

Lemma rankings_witness :
  Sample.filtering Sample.pool3 = Ok Sample.filtered3 /\
  @strict_weak_on _ Sample.arith (map rank Sample.filtered3) /\
  Sample.fusion Sample.ranking3 Sample.resumes3 3 Sample.w07 Sample.w03 =
    Ok Sample.fused3 /\
  @strict_weak_on _ Sample.arith (map combined_score Sample.fused3) /\
  StronglySorted (fun a b => SFltb (rank a) (rank b) = false) Sample.filtered3 /\
  StronglySorted
    (fun a b => SFltb (combined_score a) (combined_score b) = false)
    Sample.fused3 /\
  map candidate_name Sample.filtered3 = [VStr "Ada"; VStr "Bob"; VStr "Cy"] /\
  map rank Sample.filtered3 = [B64.of_Z 105; B64.of_Z 104; B64.of_Z 104] /\
  map fused_name Sample.fused3 = [VStr "Ada"; VStr "Cy"; VStr "Bob"].
Proof.
  assert (Hw1 : @strict_weak_on _ Sample.arith (map rank Sample.filtered3)).
  { apply b64_strict_weak_on. repeat constructor. }
  assert (Hw2 : @strict_weak_on _ Sample.arith
                  (map combined_score Sample.fused3)).
  { apply b64_strict_weak_on. repeat constructor. }
  destruct (@rankings_descending_and_stable _ Sample.arith repr_elided
              Sample.similarity Sample.predict Sample.judge Sample.job
              Sample.pool3 Sample.filtered3 Sample.ranking3 Sample.resumes3 3
              Sample.w07 Sample.w03 Sample.fused3 filtering_pool3 Hw1
              fusion_ranking3 Hw2)
    as ((jt & results & _ & _ & Hd1 & _) & (L & C & _ & Hd2 & _) & _).
  split; [exact filtering_pool3 |]. split; [exact Hw1 |].
  split; [exact fusion_ranking3 |]. split; [exact Hw2 |].
  split; [exact Hd1 |]. split; [exact Hd2 |].
  split; [reflexivity |]. split; reflexivity.
Defined.

(** With a NaN among the scores the order is lost.  Stage 1: the
    similarities of the pool are 100, NaN and 105 in this order; reversed,
    the list 105, NaN, 100 has no item smaller than the one before it, so
    [list.sort] finds one run and leaves it as it is, and the ranking is the
    pool order, in which 100 comes before 105.  Stage 2: likewise for the
    combined scores 5.0, NaN and 7.1. *)
Lemma nan_score_breaks_the_order :
  @bi_encoder_resume_filtering _ Sample.arith repr_elided
    OddSample.similarity_nan Sample.job OddSample.pool_nan =
    Ok OddSample.filtered_nan /\
  map rank OddSample.filtered_nan = [B64.of_Z 100; S754_nan; B64.of_Z 105] /\
  SFltb (B64.of_Z 100) (B64.of_Z 105) = true /\
  ~ StronglySorted (fun a b => SFltb (rank a) (rank b) = false)
      OddSample.filtered_nan /\
  @score_and_rank _ Sample.arith repr_elided Sample.predict OddSample.judge_nan
    OddSample.ranking_nan Sample.resumes3 Sample.job 3 Sample.w07 Sample.w03 =
    Ok OddSample.fused_nan /\
  map fused_name OddSample.fused_nan = [VStr "Cy"; VStr "Bob"; VStr "Ada"] /\
  map combined_score OddSample.fused_nan =
    [B64.of_Z 5; S754_nan; S754_finite false 7993889338582630 (-50)] /\
  ~ StronglySorted
      (fun a b => SFltb (combined_score a) (combined_score b) = false)
      OddSample.fused_nan.
Proof.
  split; [run |]. split; [reflexivity |]. split; [reflexivity |].
  split.
  { intros H. inversion H as [| a l _ Hall]; subst.
    rewrite Forall_forall in Hall.
    specialize (Hall _ (or_intror (or_introl eq_refl))).
    vm_compute in Hall. discriminate. }
  split; [run |]. split; [reflexivity |]. split; [reflexivity |].
  intros H. inversion H as [| a l _ Hall]; subst.
  rewrite Forall_forall in Hall.
  specialize (Hall _ (or_intror (or_introl eq_refl))).
  vm_compute in Hall. discriminate.
Qed.

(** ** Candidates without a name *)

Lemma unknown_candidates_witness :
  Sample.filtering Sample.pool_anonymous = Ok Sample.filtered_anonymous /\
  index_by_name Sample.pool_anonymous [] =
    Ok [(VStr "Ada", Sample.ada); (VNone, Sample.anonymous2)] /\
  Sample.fusion Sample.filtered_anonymous Sample.pool_anonymous 3 Sample.w07
    Sample.w03 = Ok Sample.fused_anonymous /\
  2 <= count_name (VStr "Unknown Candidate") Sample.filtered_anonymous /\
  dict_lookup (VStr "Unknown Candidate")
    [(VStr "Ada", Sample.ada); (VNone, Sample.anonymous2)] = Ok None.
Proof.
  assert (Hd : index_by_name Sample.pool_anonymous [] =
               Ok [(VStr "Ada", Sample.ada); (VNone, Sample.anonymous2)])
    by reflexivity.
  destruct (@unknown_candidates_share_identity _ Sample.arith repr_elided
              Sample.similarity Sample.predict Sample.judge Sample.job
              Sample.pool_anonymous Sample.filtered_anonymous
              Sample.filtered_anonymous Sample.pool_anonymous 3 Sample.w07
              Sample.w03 Sample.fused_anonymous _ filtering_anonymous Hd
              fusion_anonymous) as (_ & _ & Hcount & _).
  split; [exact filtering_anonymous |]. split; [exact Hd |].
  split; [exact fusion_anonymous |]. split; [exact Hcount | reflexivity].
Defined.

(** ** The serializer *)

Lemma serializer_deterministic_witness :
  Sample.job = Sample.job /\ bare_candidate = bare_candidate /\
  format_job_description repr_elided Sample.job =
    format_job_description repr_elided Sample.job /\
  format_resume repr_elided bare_candidate =
    format_resume repr_elided bare_candidate.
Proof.
  destruct (serializer_deterministic repr_elided Sample.job Sample.job
              bare_candidate bare_candidate eq_refl eq_refl) as (Hj & Hr & _).
  split; [reflexivity |]. split; [reflexivity |].
  split; [exact Hj | exact Hr].
Defined.

Lemma serializer_permissive_witness :
  resume_ok bare_candidate = true /\ job_ok Sample.job = true /\
  returns (format_resume repr_elided bare_candidate) /\
  returns (format_job_description repr_elided Sample.job).
Proof.
  destruct (serializer_permissive repr_elided bare_candidate Sample.job
              eq_refl eq_refl) as (Hr & Hj & _).
  split; [reflexivity |]. split; [reflexivity |].
  split; [exact Hr | exact Hj].
Defined.

(** A record with records wherever records are expected makes the serializer
    raise, because its certifications are a number; and a number in the
    place of the whole record does not. *)
Lemma raises_with_records_in_place :
  records_in_place odd_candidate = true /\
  format_resume repr_elided odd_candidate = Raise TypeError /\
  format_resume repr_elided (VInt 5) = Ok (resume_signal_text "" "" "" "" "").
Proof.
  repeat split.
Qed.

(** ** Bounds *)

Lemma sample_exp_finite (x v : spec_float) :
  B64.finite x = true -> Sample.exp x = Ok v ->
  B64.nonneg v = true /\ B64.finite v = true.
Proof.
  intros _ H. unfold Sample.exp in H.
  destruct (SFeqb x (B64.of_Z 0)); [injection H as <-; split; reflexivity |].
  destruct (SFeqb x (B64.of_Z (-40)));
    [injection H as <-; split; reflexivity |].
  destruct (SFeqb x (B64.of_Z 800)); discriminate.
Qed.




(** * Further properties *)

(** ** Lookups in nested records *)

Lemma safe_get_nested_found (v : value) (keys : list string) (default : value) :
  safe_get_nested v keys default =
  match path_get v keys with
  | Some x => if truthy x then x else default
  | None => default
  end.
Proof.
  revert v. induction keys as [| key rest IH]; intros v; [reflexivity |].
  destruct v as [| | | | | d]; try reflexivity.
  simpl. destruct (dict_get key d); [apply IH | reflexivity].
Qed.

(** X1.  [safe_get_nested] returns the value at the end of the path when the
    path exists and that value is truthy, and the default in every other
    case: a key is missing, a step of the path is not a dictionary, or the
    value is falsy ([None], [False], [0], the empty string, list or
    dictionary).  So a result other than the default is a truthy value
    found at the path, and it is the result for every other default too. *)
Theorem safe_get_nested_path (v : value) (keys : list string) (default : value) :
  safe_get_nested v keys default =
    match path_get v keys with
    | Some x => if truthy x then x else default
    | None => default
    end /\
  (safe_get_nested v keys default <> default ->
   path_get v keys = Some (safe_get_nested v keys default) /\
   truthy (safe_get_nested v keys default) = true /\
   forall default',
     safe_get_nested v keys default' = safe_get_nested v keys default).
Proof.
  split; [apply safe_get_nested_found |].
  rewrite safe_get_nested_found.
  destruct (path_get v keys) as [x |] eqn:Hp; [| congruence].
  destruct (truthy x) eqn:Hx; [| congruence].
  intros _. repeat split; auto.
  intros default'. rewrite safe_get_nested_found, Hp, Hx. reflexivity.
Qed.

Lemma falsy_has_no_field (v : value) (key : string) (rest : list string)
    (default : value) :
  truthy v = false -> safe_get_nested v (key :: rest) default = default.
Proof.
  destruct v as [| | | | | d]; try reflexivity.
  destruct d; [reflexivity | discriminate].
Qed.

(** X2.  Looking a record up with the default [{}] and then a field of the
    result, as the serializer does, is the same as one nested lookup along
    the whole path. *)
Theorem safe_get_nested_in_two_steps (v : value) (keys1 keys2 : list string)
    (default : value) :
  keys2 <> [] ->
  safe_get_nested (safe_get_nested v keys1 (VDict [])) keys2 default =
  safe_get_nested v (keys1 ++ keys2) default.
Proof.
  intros Hne. destruct keys2 as [| key2 rest2]; [congruence |]. clear Hne.
  revert v. induction keys1 as [| key1 rest1 IH]; intros v.
  - change ([] ++ key2 :: rest2) with (key2 :: rest2).
    change (safe_get_nested v [] (VDict [])) with (py_or v (VDict [])).
    unfold py_or. destruct (truthy v) eqn:Hv; [reflexivity |].
    rewrite (falsy_has_no_field v key2 rest2 default Hv). reflexivity.
  - destruct v as [| | | | | d]; try reflexivity.
    cbn [safe_get_nested app]. destruct (dict_get key1 d); [apply IH | reflexivity].
Qed.

Lemma safe_get_nested_path_witness :
  safe_get_nested Sample.ada ["contact_info"; "name"] VNone <> VNone /\
  path_get Sample.ada ["contact_info"; "name"] = Some (VStr "Ada") /\
  safe_get_nested Sample.anonymous2 ["contact_info"; "name"] VNone = VNone.
Proof.
  assert (H : safe_get_nested Sample.ada ["contact_info"; "name"] VNone <> VNone)
    by discriminate.
  destruct (safe_get_nested_path Sample.ada ["contact_info"; "name"] VNone)
    as [_ Hfound].
  destruct (Hfound H) as [Hpath _].
  split; [exact H |]. split; [exact Hpath | reflexivity].
Defined.

Lemma safe_get_nested_in_two_steps_witness :
  ["job_title"] <> [] /\
  safe_get_nested
    (safe_get_nested (Schema.job_json SchemaSample.job_spec) ["job_context"]
       (VDict []))
    ["job_title"] (VStr "") = VStr "Engineer".
Proof.
  split; [discriminate |].
  rewrite (safe_get_nested_in_two_steps _ ["job_context"] ["job_title"] (VStr ""));
    [reflexivity | discriminate].
Defined.

(** ** The serializer on records of the schema *)

Section SchemaFacts.

Variable container_repr : value -> string.

Lemma py_or_str (s : string) : py_or (VStr s) (VStr "") = VStr s.
Proof.
  destruct s; reflexivity.
Qed.

Lemma py_or_list (l : list value) : py_or (VList l) (VList []) = VList l.
Proof.
  destruct l; reflexivity.
Qed.

Lemma py_str_strs (l : list string) :
  map (py_str container_repr) (map VStr l) = l.
Proof.
  induction l as [| s l IH]; simpl; congruence.
Qed.

Lemma safe_join_strs (l : list string) :
  safe_join container_repr (Schema.strs l) VNone = Ok (Schema.words l).
Proof.
  unfold Schema.strs. rewrite safe_join_list, py_str_strs. reflexivity.
Qed.

Lemma mapM_as_str_strs (l : list string) : mapM as_str (map VStr l) = Ok l.
Proof.
  induction l as [| s l IH]; simpl; [reflexivity |].
  rewrite IH. reflexivity.
Qed.

Lemma py_join_strs (l : list string) :
  py_join " " (Schema.strs l) = Ok (Schema.words l).
Proof.
  unfold py_join, Schema.strs. cbn [py_iter bind].
  rewrite mapM_as_str_strs. reflexivity.
Qed.

Lemma job_role_line_schema (w : Schema.WorkExperience) :
  job_role_line container_repr (Schema.work_experience_json w) =
  Ok (Schema.work_experience_line w).
Proof.
  unfold job_role_line, Schema.work_experience_json.
  cbn [safe_get_nested dict_get String.eqb Ascii.eqb Bool.eqb].
  fold (Schema.strs (Schema.achievements w)).
  unfold Schema.strs at 1. rewrite py_or_list, !py_or_str.
  fold (Schema.strs (Schema.achievements w)).
  rewrite py_join_strs. reflexivity.
Qed.

Lemma job_role_lines_schema (ws : list Schema.WorkExperience) :
  mapM (job_role_line container_repr) (map Schema.work_experience_json ws) =
  Ok (map Schema.work_experience_line ws).
Proof.
  induction ws as [| w ws IH]; cbn [map mapM]; [reflexivity |].
  rewrite job_role_line_schema, IH. reflexivity.
Qed.

Lemma project_line_schema (p : Schema.Project) :
  project_line container_repr (Schema.project_json p) = Schema.project_text p.
Proof.
  unfold project_line, Schema.project_json.
  cbn [safe_get_nested dict_get String.eqb Ascii.eqb Bool.eqb].
  rewrite !py_or_str. reflexivity.
Qed.

Lemma project_lines_schema (ps : list Schema.Project) :
  map (project_line container_repr) (map Schema.project_json ps) =
  map Schema.project_text ps.
Proof.
  induction ps as [| p ps IH]; cbn [map]; [reflexivity |].
  rewrite project_line_schema, IH. reflexivity.
Qed.

(** X3.  On the JSON document of any [StructuredResume], [format_resume]
    raises nothing and returns the template filled with the summary, the
    programming languages, frameworks and tools in this order and with
    their repetitions, one "title at company: achievements" for each work
    experience, one "name: description" for each project, and the
    certifications, the items of each list separated by one space. *)
Theorem format_resume_schema (r : Schema.StructuredResume) :
  format_resume container_repr (Schema.resume_json r) = Ok (Schema.resume_text r).
Proof.
  unfold format_resume, Schema.resume_json.
  cbn [safe_get_nested dict_get String.eqb Ascii.eqb Bool.eqb].
  change (py_or (Schema.skill_section_json (Schema.skills_section r)) (VDict []))
    with (Schema.skill_section_json (Schema.skills_section r)).
  unfold Schema.skill_section_json.
  cbn [safe_get_nested dict_get String.eqb Ascii.eqb Bool.eqb].
  unfold Schema.strs. rewrite !py_or_list, py_or_str.
  cbn [py_add bind py_iter].
  rewrite job_role_lines_schema. cbn [bind].
  rewrite project_lines_schema.
  rewrite <- !map_app.
  fold (Schema.strs (Schema.programming_languages (Schema.skills_section r) ++
                     Schema.frameworks_and_libraries (Schema.skills_section r) ++
                     Schema.platforms_and_tools (Schema.skills_section r))).
  rewrite <- app_assoc.
  fold (Schema.strs (Schema.programming_languages (Schema.skills_section r) ++
                     Schema.frameworks_and_libraries (Schema.skills_section r) ++
                     Schema.platforms_and_tools (Schema.skills_section r))).
  fold (Schema.strs (map Schema.work_experience_line (Schema.work_experience r))).
  fold (Schema.strs (map Schema.project_text (Schema.projects r))).
  fold (Schema.strs (Schema.certifications r)).
  rewrite !safe_join_strs. reflexivity.
Qed.

(** X4.  On the JSON document of any [ExtractedJobRequirements],
    [format_job_description] raises nothing and returns the template filled
    with the title, the seniority, the responsibilities, the required
    skills and tools, the preferred skills and tools, the kinds of
    experience required and the domain knowledge; the minimum years of
    experience, the required education and the preferred certifications
    are not in the text. *)
Theorem format_job_description_schema (j : Schema.ExtractedJobRequirements) :
  format_job_description container_repr (Schema.job_json j) = Ok (Schema.job_text j).
Proof.
  unfold format_job_description, Schema.job_json.
  cbn [safe_get_nested dict_get String.eqb Ascii.eqb Bool.eqb].
  change (py_or (Schema.job_context_json (Schema.job_context j)) (VDict []))
    with (Schema.job_context_json (Schema.job_context j)).
  change (py_or (Schema.role_description_json (Schema.role_description j))
            (VDict []))
    with (Schema.role_description_json (Schema.role_description j)).
  change (py_or (Schema.hard_requirements_json (Schema.hard_requirements j))
            (VDict []))
    with (Schema.hard_requirements_json (Schema.hard_requirements j)).
  change (py_or (Schema.preferred_qualifications_json
                   (Schema.preferred_qualifications j)) (VDict []))
    with (Schema.preferred_qualifications_json (Schema.preferred_qualifications j)).
  unfold Schema.job_context_json, Schema.role_description_json,
    Schema.hard_requirements_json, Schema.preferred_qualifications_json.
  cbn [safe_get_nested dict_get String.eqb Ascii.eqb Bool.eqb].
  unfold Schema.strs at 1 2 3 4 5 6 7.
  rewrite !py_or_list, !py_or_str.
  repeat match goal with
         | |- context [VList (map VStr ?l)] => fold (Schema.strs l)
         end.
  rewrite !safe_join_strs. reflexivity.
Qed.

End SchemaFacts.

(** ** What the scores do not depend on *)

Section Independence.

Context {num : Type} {arith : Arith num}.

Variable container_repr : value -> string.
Variable similarity : string -> string -> result num.
Variable predict : string -> string -> result num.
Variable judge : nat -> value -> value -> result (LLMJudgment num).

Lemma agree_on_get (keys : list string) (d1 d2 : list (string * value))
    (key : string) (default : value) :
  agree_on keys d1 d2 -> In key keys ->
  safe_get_nested (VDict d1) [key] default =
  safe_get_nested (VDict d2) [key] default.
Proof.
  intros H Hin. simpl. rewrite (H key Hin). reflexivity.
Qed.

Lemma format_resume_agree (d1 d2 : list (string * value)) :
  agree_on resume_keys d1 d2 ->
  format_resume container_repr (VDict d1) = format_resume container_repr (VDict d2).
Proof.
  intros H. unfold format_resume.
  rewrite (agree_on_get _ _ _ "skills_section" (VDict []) H),
    (agree_on_get _ _ _ "work_experience" (VList []) H),
    (agree_on_get _ _ _ "projects" (VList []) H),
    (agree_on_get _ _ _ "professional_summary" (VStr "") H),
    (agree_on_get _ _ _ "certifications" (VList []) H);
    try reflexivity; unfold resume_keys; simpl; tauto.
Qed.

Lemma format_job_description_agree (j1 j2 : list (string * value)) :
  agree_on job_keys j1 j2 ->
  format_job_description container_repr (VDict j1) =
  format_job_description container_repr (VDict j2).
Proof.
  intros H. unfold format_job_description.
  rewrite (agree_on_get _ _ _ "job_context" (VDict []) H),
    (agree_on_get _ _ _ "role_description" (VDict []) H),
    (agree_on_get _ _ _ "hard_requirements" (VDict []) H),
    (agree_on_get _ _ _ "preferred_qualifications" (VDict []) H);
    try reflexivity; unfold job_keys; simpl; tauto.
Qed.

(** X5.  The signal text of a candidate depends on its record only through
    the skills section, the work experience, the projects, the summary and
    the certifications, and that of a job only through its four sections:
    two records that agree on these give the same text.  So the Stage 1
    score of a candidate does not depend on its contact information (its
    name included) or its education. *)
Theorem unread_fields_do_not_matter (d1 d2 j1 j2 : list (string * value))
    (job_des_text : string) :
  agree_on resume_keys d1 d2 -> agree_on job_keys j1 j2 ->
  format_resume container_repr (VDict d1) = format_resume container_repr (VDict d2) /\
  format_job_description container_repr (VDict j1) =
    format_job_description container_repr (VDict j2) /\
  (forall e1,
     similarity_entry container_repr similarity job_des_text (VDict d1) = Ok e1 ->
     similarity_entry container_repr similarity job_des_text (VDict d2) =
       Ok {| candidate_name := identity (VDict d2); rank := rank e1 |}).
Proof.
  intros Hr Hj. split; [apply format_resume_agree, Hr |].
  split; [apply format_job_description_agree, Hj |].
  intros e1. unfold similarity_entry.
  rewrite (format_resume_agree _ _ Hr). intros H.
  inv_bind H. inv_bind H. injection H as <-. rewrite Ha. cbn [bind].
  rewrite Ha0. reflexivity.
Qed.

Lemma map_py_slice_to {A B : Type} (f : A -> B) (l : list A) (n : Z) :
  map f (py_slice_to l n) = py_slice_to (map f l) n.
Proof.
  unfold py_slice_to. rewrite length_map.
  destruct (0 <=? n)%Z; symmetry; apply firstn_map.
Qed.

(** X6.  Stage 2 reads the names of the ranking it is given and nothing
    else: the similarity scores of Stage 1 decide which candidates are among
    the top ones, and do not enter their final scores or order. *)
Theorem stage2_reads_names_only (ranking1 ranking2 : list (ranking_entry num))
    (structured_resumes : list value) (job : value) (top_n : Z)
    (llm_weight cross_encoder_weight : num) :
  map candidate_name ranking1 = map candidate_name ranking2 ->
  score_and_rank container_repr predict judge ranking1 structured_resumes job
    top_n llm_weight cross_encoder_weight =
  score_and_rank container_repr predict judge ranking2 structured_resumes job
    top_n llm_weight cross_encoder_weight.
Proof.
  intros H. unfold score_and_rank.
  rewrite !map_py_slice_to, H. reflexivity.
Qed.

Lemma StronglySorted_app_inv {A : Type} (R : A -> A -> Prop) (l1 l2 : list A)
    (a b : A) :
  StronglySorted R (l1 ++ l2) -> In a l1 -> In b l2 -> R a b.
Proof.
  induction l1 as [| x l1 IH]; simpl; intros Hs Ha Hb; [contradiction |].
  inversion Hs as [| ? ? Hs' Hx]; subst.
  destruct Ha as [<- | Ha]; [| auto].
  rewrite Forall_forall in Hx. apply Hx, in_or_app. auto.
Qed.

Lemma py_slice_to_prefix {A : Type} (l : list A) (n : Z) :
  exists rest, l = py_slice_to l n ++ rest.
Proof.
  unfold py_slice_to. destruct (0 <=? n)%Z.
  - exists (skipn (Z.to_nat n) l). symmetry. apply firstn_skipn.
  - exists (skipn (List.length l - Z.to_nat (- n)) l). symmetry.
    apply firstn_skipn.
Qed.

(** X7.  The candidates that Stage 2 takes are the most similar ones: in
    the ranking of Stage 1, no entry of [ranking[:top_n]] has a smaller
    similarity than an entry left out, the scores being ordered by [<]. *)
Theorem gate_keeps_the_most_similar (job : value) (pool : list value)
    (ranked : list (ranking_entry num)) (top_n : Z) :
  bi_encoder_resume_filtering container_repr similarity job pool = Ok ranked ->
  strict_weak_on (map rank ranked) ->
  (exists rest, ranked = py_slice_to ranked top_n ++ rest) /\
  (forall rest kept left_out,
     ranked = py_slice_to ranked top_n ++ rest ->
     In kept (py_slice_to ranked top_n) -> In left_out rest ->
     ltb (rank kept) (rank left_out) = false).
Proof.
  intros H Hw. split; [apply py_slice_to_prefix |].
  intros rest kept left_out Hsplit Hk Hl.
  destruct (stage1_Ok _ _ _ _ _ H) as (jt & results & _ & _ & Hout).
  assert (Hd : descending by_rank ranked).
  { rewrite Hout in *. apply (py_sorted_by_key rank).
    apply strict_weak_on_perm with (2 := Hw).
    apply Permutation_map, py_sorted_perm. }
  unfold descending in Hd. rewrite Hsplit in Hd.
  apply (StronglySorted_app_inv _ _ _ _ _ Hd Hk Hl).
Qed.

End Independence.

(** ** Which record a name is scored from *)

Section Homonyms.

Context {num : Type} {arith : Arith num}.

Variable container_repr : value -> string.
Variable predict : string -> string -> result num.
Variable judge : nat -> value -> value -> result (LLMJudgment num).

Lemma entry_of_resolved_name (bi_encoder_ranking : list (ranking_entry num))
    (structured_resumes : list value) (job : value) (top_n : Z)
    (llm_weight cross_encoder_weight : num) (out : list (fusion_entry num))
    (e : fusion_entry num) (candidate_data : value) :
  score_and_rank container_repr predict judge bi_encoder_ranking
    structured_resumes job top_n llm_weight cross_encoder_weight = Ok out ->
  In e out ->
  find (fun c => key_eqb (fused_name e) (record_name c))
    (rev structured_resumes) = Some candidate_data ->
  exists job_text request lr cr,
    format_job_description container_repr job = Ok job_text /\
    llm_analysis e = Some lr /\
    key_eqb (llm_name lr) (fused_name e) = true /\
    nth_error (map candidate_name (py_slice_to bi_encoder_ranking top_n))
      request = Some (llm_name lr) /\
    scored_from container_repr predict judge job job_text request
      candidate_data lr cr /\
    llm_score e = get_final_score (Some lr) /\
    cross_score e = cross_encoder_score cr.
Proof.
  intros H He Hf.
  apply (stage2_In _ _ _ _ _ _ _ _ _ _ _ H) in He.
  destruct He as (d & jt & rs & name & Hd & Hj & Hrs & Hname & ->).
  cbn [combine fused_name] in Hf.
  assert (Hfind : dict_find name d = Some candidate_data).
  { rewrite (index_by_name_find _ _ _ name Hd), Hf. reflexivity. }
  rewrite <- (enumerate_names 0) in Hname.
  destruct (find_resolved _ _ _ _ _ _ _ _ _ _ Hrs Hname Hfind)
    as (k & lr & cr & Hl & Hc & Hk & Hin & Hs).
  apply enumerate_In in Hin. destruct Hin as [_ Hnth].
  rewrite Nat.sub_0_r in Hnth.
  exists jt, k, lr, cr. unfold combine.
  cbn [fused_name llm_analysis llm_score cross_score].
  rewrite Hl, Hc. repeat split; auto; apply Hs.
Qed.

(** X8.  When several records carry one name, Stage 2 scores the name from
    the last of them in [structured_resumes]: every entry of the output
    whose name some record carries has the judgment that the request of a
    turn on this name gave of the last record carrying it, and the rescaled
    pairwise score of this record; the records of that name before it are
    not scored. *)
Theorem homonyms_scored_from_last_record
    (bi_encoder_ranking : list (ranking_entry num))
    (structured_resumes : list value) (job : value) (top_n : Z)
    (llm_weight cross_encoder_weight : num) (out : list (fusion_entry num))
    (e : fusion_entry num) (before after : list value) (candidate_data : value) :
  score_and_rank container_repr predict judge bi_encoder_ranking
    structured_resumes job top_n llm_weight cross_encoder_weight = Ok out ->
  In e out ->
  structured_resumes = before ++ candidate_data :: after ->
  key_eqb (fused_name e) (record_name candidate_data) = true ->
  Forall (fun c => key_eqb (fused_name e) (record_name c) = false) after ->
  exists job_text request lr cr,
    format_job_description container_repr job = Ok job_text /\
    llm_analysis e = Some lr /\
    key_eqb (llm_name lr) (fused_name e) = true /\
    nth_error (map candidate_name (py_slice_to bi_encoder_ranking top_n))
      request = Some (llm_name lr) /\
    scored_from container_repr predict judge job job_text request
      candidate_data lr cr /\
    llm_score e = get_final_score (Some lr) /\
    cross_score e = cross_encoder_score cr.
Proof.
  intros H He Hsplit Hk Hafter.
  assert (Hf : find (fun c => key_eqb (fused_name e) (record_name c))
                 (rev structured_resumes) = Some candidate_data).
  { rewrite Hsplit, rev_app_distr. cbn [rev]. rewrite <- app_assoc, find_app.
    destruct (find _ (rev after)) as [c |] eqn:Hfind.
    - apply find_some in Hfind. destruct Hfind as [Hin Hc].
      rewrite Forall_forall in Hafter. apply in_rev in Hin.
      rewrite (Hafter c Hin) in Hc. discriminate.
    - cbn [app find]. rewrite Hk. reflexivity. }
  apply (entry_of_resolved_name _ _ _ _ _ _ _ _ _ H He Hf).
Qed.

End Homonyms.

(** ** The loader of the resumes directory *)

Lemma assoc_get_set {A : Type} (key k : string) (v : A) (d : list (string * A)) :
  assoc_get key (assoc_set k v d) =
  if String.eqb key k then Some v else assoc_get key d.
Proof.
  induction d as [| [k' v'] d IH]; cbn [assoc_set assoc_get]; [reflexivity |].
  destruct (String.eqb k k') eqn:Hk; cbn [assoc_get].
  - apply String.eqb_eq in Hk. subst k'.
    destruct (String.eqb key k); reflexivity.
  - rewrite IH. destruct (String.eqb key k') eqn:Hk'; [| reflexivity].
    apply String.eqb_eq in Hk'. subst k'.
    rewrite String.eqb_sym, Hk. reflexivity.
Qed.

Lemma assoc_set_keys {A : Type} (k : string) (v : A) (d : list (string * A))
    (x : string) :
  In x (map fst (assoc_set k v d)) -> x = k \/ In x (map fst d).
Proof.
  induction d as [| [k' v'] d IH]; cbn [assoc_set map fst In].
  - intros [<- | []]. auto.
  - destruct (String.eqb k k'); cbn [map fst In]; [tauto |].
    intros [<- | H]; [tauto |]. destruct (IH H); tauto.
Qed.

Lemma assoc_set_NoDup {A : Type} (k : string) (v : A) (d : list (string * A)) :
  NoDup (map fst d) -> NoDup (map fst (assoc_set k v d)).
Proof.
  induction d as [| [k' v'] d IH]; cbn [assoc_set map fst]; intros H.
  - constructor; [intros [] | constructor].
  - inversion H as [| ? ? Hnot Hd]; subst.
    destruct (String.eqb k k') eqn:Hk; cbn [map fst]; [constructor; assumption |].
    constructor; [| apply IH, Hd].
    intros Hin. apply assoc_set_keys in Hin. destruct Hin as [-> | Hin]; [| auto].
    rewrite String.eqb_refl in Hk. discriminate.
Qed.

Lemma assoc_set_length {A : Type} (k : string) (v : A) (d : list (string * A)) :
  List.length (assoc_set k v d) <= S (List.length d).
Proof.
  induction d as [| [k' v'] d IH]; cbn [assoc_set List.length]; [lia |].
  destruct (String.eqb k k'); cbn [List.length]; lia.
Qed.

Lemma assoc_get_In {A : Type} (key : string) (v : A) (d : list (string * A)) :
  assoc_get key d = Some v -> In (key, v) d.
Proof.
  induction d as [| [k' v'] d IH]; cbn [assoc_get In]; [discriminate |].
  destruct (String.eqb key k') eqn:Hk; [| auto].
  apply String.eqb_eq in Hk. intros [= ->]. subst. auto.
Qed.

Lemma In_assoc_get {A : Type} (key : string) (v : A) (d : list (string * A)) :
  NoDup (map fst d) -> In (key, v) d -> assoc_get key d = Some v.
Proof.
  induction d as [| [k' v'] d IH]; cbn [assoc_get In map fst]; [contradiction |].
  intros Hd Hin. inversion Hd as [| ? ? Hnot Hd']; subst.
  destruct Hin as [[= -> ->] | Hin]; [rewrite String.eqb_refl; reflexivity |].
  destruct (String.eqb key k') eqn:Hk; [| auto].
  apply String.eqb_eq in Hk. subst k'.
  exfalso. apply Hnot. apply (in_map fst) in Hin. exact Hin.
Qed.

Section LoaderFacts.

Variable read : extractor -> path -> result string.

Lemma load_texts_step (resume_file : path) (rest : list path)
    (texts : list (string * string)) :
  load_texts read (resume_file :: rest) texts =
  load_texts read rest
    match loads read resume_file with
    | Some file_content => assoc_set (stem resume_file) file_content texts
    | None => texts
    end.
Proof.
  unfold loads. cbn [load_texts].
  destruct (is_file resume_file); [| reflexivity].
  destruct (assoc_get _ SUPPORTED_EXTENSIONS); [| reflexivity].
  destruct (read _ resume_file); reflexivity.
Qed.

Lemma load_texts_get (resume_files : list path) (texts : list (string * string))
    (name : string) :
  assoc_get name (load_texts read resume_files texts) =
  match find (fun f => String.eqb name (stem f) && loaded read f)
          (rev resume_files) with
  | Some f => loads read f
  | None => assoc_get name texts
  end.
Proof.
  revert texts. induction resume_files as [| f rest IH]; intros texts;
    [reflexivity |].
  rewrite load_texts_step, IH. cbn [rev]. rewrite find_app.
  destruct (find _ (rev rest)); [reflexivity |].
  cbn [find]. unfold loaded.
  destruct (loads read f) as [content |] eqn:Hl.
  - rewrite assoc_get_set.
    destruct (String.eqb name (stem f)); cbn [andb]; [exact (eq_sym Hl) | reflexivity].
  - rewrite andb_false_r. reflexivity.
Qed.

Lemma load_texts_NoDup (resume_files : list path) (texts : list (string * string)) :
  NoDup (map fst texts) ->
  NoDup (map fst (load_texts read resume_files texts)).
Proof.
  revert texts. induction resume_files as [| f rest IH]; intros texts H;
    [exact H |].
  rewrite load_texts_step. apply IH.
  destruct (loads read f); [apply assoc_set_NoDup, H | exact H].
Qed.

Lemma load_texts_length (resume_files : list path) (texts : list (string * string)) :
  List.length (load_texts read resume_files texts) <=
  List.length texts + List.length (filter (loaded read) resume_files).
Proof.
  revert texts. induction resume_files as [| f rest IH]; intros texts;
    [cbn; lia |].
  rewrite load_texts_step. cbn [filter]. unfold loaded at 1.
  destruct (loads read f) as [content |]; [| apply IH].
  specialize (IH (assoc_set (stem f) content texts)).
  pose proof (assoc_set_length (stem f) content texts).
  cbn [List.length]. lia.
Qed.

(** X9.  [load_raw_resume_texts] keeps one text per file stem: the keys of
    its result are pairwise distinct, and the text under a stem is that of
    the last file of the listing with this stem that is a regular file, has
    a supported extension (in any letter case) and is read without an
    exception; directories, other extensions and failing files leave no
    trace.  So of two resumes with one stem, as [cv.pdf] and [cv.txt], only
    the later one is kept. *)
Theorem load_raw_resume_texts_keeps_last_of_a_stem (resume_files : list path) :
  NoDup (map fst (load_raw_resume_texts read resume_files)) /\
  (forall name,
     assoc_get name (load_raw_resume_texts read resume_files) =
     match find (fun f => String.eqb name (stem f) && loaded read f)
             (rev resume_files) with
     | Some f => loads read f
     | None => None
     end) /\
  (forall name text,
     In (name, text) (load_raw_resume_texts read resume_files) <->
     assoc_get name (load_raw_resume_texts read resume_files) = Some text) /\
  List.length (load_raw_resume_texts read resume_files) <=
    List.length (filter (loaded read) resume_files) /\
  (forall f before after,
     resume_files = before ++ f :: after ->
     Exists (fun g => stem g = stem f /\ loaded read g = true) after ->
     forall text,
       In (stem f, text) (load_raw_resume_texts read resume_files) ->
       exists g, In g after /\ stem g = stem f /\ loads read g = Some text).
Proof.
  unfold load_raw_resume_texts.
  assert (Hnd : NoDup (map fst (load_texts read resume_files []))).
  { apply load_texts_NoDup. constructor. }
  split; [exact Hnd |].
  split; [intros name; apply load_texts_get |].
  split.
  { intros name text. split; [apply In_assoc_get, Hnd | apply assoc_get_In]. }
  split; [apply (load_texts_length resume_files []) |].
  intros f before after -> Hex text Hin.
  apply (In_assoc_get _ _ _ Hnd) in Hin. rewrite load_texts_get in Hin.
  rewrite rev_app_distr in Hin. cbn [rev] in Hin.
  rewrite <- app_assoc, find_app in Hin.
  destruct (find _ (rev after)) as [g |] eqn:Hfind.
  - apply find_some in Hfind. destruct Hfind as [Hg Hp].
    apply andb_prop in Hp. destruct Hp as [Hs _].
    apply String.eqb_eq in Hs. exists g.
    split; [apply in_rev, Hg |]. split; [congruence | exact Hin].
  - exfalso. apply Exists_exists in Hex. destruct Hex as (g & Hg & Hs & Hl).
    apply in_rev in Hg. pose proof (find_none _ _ Hfind g Hg) as Hno.
    cbn beta in Hno. rewrite Hs, String.eqb_refl, Hl in Hno. discriminate.
Qed.

End LoaderFacts.

(** ** The pipeline *)

Lemma named_identity (candidate_data : value) (s : string) :
  record_name candidate_data = VStr s -> identity candidate_data = VStr s.
Proof.
  unfold record_name, identity. rewrite !safe_get_nested_found.
  destruct (path_get candidate_data _) as [x |]; [| discriminate].
  destruct (truthy x); [auto | discriminate].
Qed.

Lemma NoDup_map_eq {A B : Type} (f : A -> B) (l : list A) (a b : A) :
  NoDup (map f l) -> In a l -> In b l -> f a = f b -> a = b.
Proof.
  induction l as [| x l IH]; cbn [map In]; [contradiction |].
  intros H Ha Hb Hf. inversion H as [| ? ? Hnot Hl]; subst.
  destruct Ha as [-> | Ha], Hb as [-> | Hb]; auto.
  - exfalso. apply Hnot. rewrite Hf. apply in_map, Hb.
  - exfalso. apply Hnot. rewrite <- Hf. apply in_map, Ha.
Qed.

Section PipelineFacts.

Context {num : Type} {arith : Arith num}.

Variable container_repr : value -> string.
Variable similarity : string -> string -> result num.
Variable predict : string -> string -> result num.
Variable judge : nat -> value -> value -> result (LLMJudgment num).
Variable read : extractor -> path -> result string.
Variable parse_job : string -> result value.
Variable parse_resume : string -> result value.
Variable read_job_description : result string.
Variable iterdir : result (list path).
Variable dump_job : value -> result unit.
Variable dump_resumes : list value -> result unit.
Variable dump_ranking : list (ranking_entry num) -> result unit.
Variable open_ranking : result unit.
Variable dump_final : list (fusion_entry num) -> result unit.

Abbreviation pipeline :=
  (run container_repr similarity predict judge read parse_job parse_resume
     read_job_description iterdir dump_job dump_resumes dump_ranking
     open_ranking dump_final).
Abbreviation resumes_of := (structured_resumes_of read parse_resume).
Abbreviation job_of := (extract_job_requirements parse_job).

(** The anatomy of a run of the pipeline that returns. *)
Lemma run_Ok (job_description : string) (resume_files : list path) (top_n : Z)
    (llm_weights cross_encoder_weight : num) (final : list (fusion_entry num)) :
  pipeline top_n llm_weights cross_encoder_weight = Ok final ->
  read_job_description = Ok job_description ->
  iterdir = Ok resume_files ->
  exists bi_encoder_ranking,
    bi_encoder_resume_filtering container_repr similarity
      (job_of job_description) (resumes_of resume_files) = Ok bi_encoder_ranking /\
    score_and_rank container_repr predict judge bi_encoder_ranking
      (resumes_of resume_files) (job_of job_description) top_n llm_weights
      cross_encoder_weight = Ok final.
Proof.
  unfold run. intros H Hjd Hfiles. rewrite Hjd in H. cbn [bind] in H.
  inv_bind H. rewrite Hfiles in H. cbn [bind] in H.
  inv_bind H. inv_bind H. inv_bind H. inv_bind H. inv_bind H. inv_bind H.
  injection H as <-. eauto.
Qed.

Lemma ranking_identities (job : value) (pool : list value)
    (bi_encoder_ranking : list (ranking_entry num)) :
  bi_encoder_resume_filtering container_repr similarity job pool =
    Ok bi_encoder_ranking ->
  Permutation (map candidate_name bi_encoder_ranking) (map identity pool).
Proof.
  intros H. destruct (stage1_Ok _ _ _ _ _ H) as (jt & results & _ & Hr & ->).
  rewrite <- (results_names _ _ _ _ _ Hr).
  apply Permutation_map, py_sorted_perm.
Qed.

Lemma final_names (job_description : string) (resume_files : list path)
    (top_n : Z) (llm_weights cross_encoder_weight : num)
    (final : list (fusion_entry num)) (e : fusion_entry num) :
  pipeline top_n llm_weights cross_encoder_weight = Ok final ->
  read_job_description = Ok job_description ->
  iterdir = Ok resume_files ->
  In e final ->
  exists candidate_data,
    In candidate_data (resumes_of resume_files) /\
    identity candidate_data = fused_name e.
Proof.
  intros H Hjd Hfiles He.
  destruct (run_Ok _ _ _ _ _ _ H Hjd Hfiles) as (ranking & H1 & H2).
  apply (in_map fused_name) in He.
  apply (Permutation_in _ (stage2_names _ _ _ _ _ _ _ _ _ _ H2)) in He.
  apply in_map_iff in He. destruct He as (r & Hr & Hin).
  apply py_slice_to_incl in Hin. apply (in_map candidate_name) in Hin.
  apply (Permutation_in _ (ranking_identities _ _ _ H1)) in Hin.
  apply in_map_iff in Hin. destruct Hin as (c & Hc & Hin).
  exists c. split; [exact Hin | congruence].
Qed.

(** X10.  The final ranking of the pipeline has one entry per resume that
    is among the first [top_n]: when the pipeline returns, for [top_n >= 0]
    the length of the final ranking is the smaller of [top_n] and the number
    of texts loaded from the resumes directory, which is at most the number
    of loadable files; for any [top_n], each entry carries the identity of
    one of the structured resumes; and when [top_n] is at least the number
    of texts, the identities of the final ranking are those of all the
    structured resumes. *)
Theorem final_ranking_size (job_description : string) (resume_files : list path)
    (top_n : Z) (llm_weights cross_encoder_weight : num)
    (final : list (fusion_entry num)) :
  pipeline top_n llm_weights cross_encoder_weight = Ok final ->
  read_job_description = Ok job_description ->
  iterdir = Ok resume_files ->
  ((0 <= top_n)%Z ->
   List.length final =
     Nat.min (Z.to_nat top_n)
       (List.length (load_raw_resume_texts read resume_files))) /\
  List.length (load_raw_resume_texts read resume_files) <=
    List.length (filter (loaded read) resume_files) /\
  (forall e, In e final ->
     exists candidate_data,
       In candidate_data (resumes_of resume_files) /\
       identity candidate_data = fused_name e) /\
  ((Z.of_nat (List.length (load_raw_resume_texts read resume_files)) <= top_n)%Z ->
   Permutation (map fused_name final) (map identity (resumes_of resume_files))).
Proof.
  intros H Hjd Hfiles.
  destruct (run_Ok _ _ _ _ _ _ H Hjd Hfiles) as (ranking & H1 & H2).
  pose proof (Permutation_length (ranking_identities _ _ _ H1)) as Hlen.
  unfold structured_resumes_of in Hlen. rewrite !length_map in Hlen.
  split; [| split; [| split]].
  - intros Hn. rewrite (stage2_length _ _ _ _ _ _ _ _ _ _ H2).
    unfold py_slice_to. apply Z.leb_le in Hn. rewrite Hn.
    rewrite length_firstn, Hlen. reflexivity.
  - apply (load_texts_length read resume_files []).
  - intros e He. apply (final_names _ _ _ _ _ _ _ H Hjd Hfiles He).
  - intros Hn. eapply perm_trans; [apply (stage2_names _ _ _ _ _ _ _ _ _ _ H2) |].
    rewrite py_slice_to_all by (rewrite Hlen; exact Hn).
    apply (ranking_identities _ _ _ H1).
Qed.

(** X11.  When every structured resume has a name and no two have the same,
    each entry of the final ranking is scored from the resume of its name:
    its analysis is the judgment that the request of a turn of Stage 2 gave
    of that resume against the structured job description, and its pairwise
    score is the rescaled score of the signal text of that resume against
    the signal text of the job. *)
Theorem named_candidates_scored_from_own_resume (job_description : string)
    (resume_files : list path) (top_n : Z)
    (llm_weights cross_encoder_weight : num)
    (final : list (fusion_entry num)) (e : fusion_entry num) :
  pipeline top_n llm_weights cross_encoder_weight = Ok final ->
  read_job_description = Ok job_description ->
  iterdir = Ok resume_files ->
  Forall (fun c => exists s, record_name c = VStr s) (resumes_of resume_files) ->
  NoDup (map record_name (resumes_of resume_files)) ->
  In e final ->
  exists candidate_data job_text request lr cr,
    In candidate_data (resumes_of resume_files) /\
    record_name candidate_data = fused_name e /\
    (forall c, In c (resumes_of resume_files) ->
       record_name c = fused_name e -> c = candidate_data) /\
    format_job_description container_repr (job_of job_description) = Ok job_text /\
    llm_analysis e = Some lr /\
    llm_name lr = fused_name e /\
    scored_from container_repr predict judge (job_of job_description) job_text
      request candidate_data lr cr /\
    llm_score e = get_final_score (Some lr) /\
    cross_score e = cross_encoder_score cr.
Proof.
  intros H Hjd Hfiles Hnamed Hnodup He.
  destruct (final_names _ _ _ _ _ _ _ H Hjd Hfiles He) as (c & Hc & Hid).
  rewrite Forall_forall in Hnamed. destruct (Hnamed c Hc) as [s Hs].
  assert (Hname : fused_name e = VStr s).
  { rewrite <- Hid. apply named_identity, Hs. }
  assert (Hown : forall c', In c' (resumes_of resume_files) ->
                   record_name c' = fused_name e -> c' = c).
  { intros c' Hc' Heq. apply (NoDup_map_eq record_name _ _ _ Hnodup Hc' Hc).
    congruence. }
  assert (Hf : find (fun c' => key_eqb (fused_name e) (record_name c'))
                 (rev (resumes_of resume_files)) = Some c).
  { destruct (find _ (rev (resumes_of resume_files))) as [c' |] eqn:Hfind.
    - apply find_some in Hfind. destruct Hfind as [Hin Hk].
      rewrite Hname in Hk. apply key_eqb_str in Hk.
      f_equal. apply Hown; [apply in_rev, Hin | congruence].
    - exfalso. apply in_rev in Hc.
      pose proof (find_none _ _ Hfind c Hc) as Hno. cbn beta in Hno.
      rewrite Hname, Hs in Hno. cbn in Hno.
      rewrite String.eqb_refl in Hno. discriminate. }
  destruct (run_Ok _ _ _ _ _ _ H Hjd Hfiles) as (ranking & _ & H2).
  destruct (entry_of_resolved_name _ _ _ _ _ _ _ _ _ _ _ _ H2 He Hf)
    as (jt & k & lr & cr & Hj & Hl & Hk & _ & Hsc & Hls & Hcs).
  exists c, jt, k, lr, cr.
  split; [exact Hc |]. split; [congruence |]. split; [exact Hown |].
  split; [exact Hj |]. split; [exact Hl |]. split; [| auto].
  rewrite Hname in Hk |- *. rewrite key_eqb_sym in Hk.
  apply key_eqb_str in Hk. exact Hk.
Qed.

(** X12.  A resume whose extraction fails is not dropped: it is ranked by
    Stage 1 as "Unknown Candidate".  And unless a resume is literally named
    "Unknown Candidate", every entry of that name in the final ranking has
    no analysis and the scores 0, whatever the text of the resume. *)
Theorem failed_extractions_get_zero_scores (job_description : string)
    (resume_files : list path) (top_n : Z)
    (llm_weights cross_encoder_weight : num)
    (final : list (fusion_entry num)) :
  pipeline top_n llm_weights cross_encoder_weight = Ok final ->
  read_job_description = Ok job_description ->
  iterdir = Ok resume_files ->
  (forall name text,
     In (name, text) (load_raw_resume_texts read resume_files) ->
     raises (parse_resume text) ->
     exists bi_encoder_ranking,
       bi_encoder_resume_filtering container_repr similarity
         (job_of job_description) (resumes_of resume_files) =
         Ok bi_encoder_ranking /\
       In (VStr "Unknown Candidate") (map candidate_name bi_encoder_ranking)) /\
  (Forall (fun c => record_name c <> VStr "Unknown Candidate")
     (resumes_of resume_files) ->
   forall e, In e final -> fused_name e = VStr "Unknown Candidate" ->
     llm_analysis e = None /\
     llm_score e = of_int 0 /\
     cross_score e = of_int 0 /\
     combined_score e =
       add (mul (of_int 0) llm_weights) (mul (of_int 0) cross_encoder_weight)).
Proof.
  intros H Hjd Hfiles.
  destruct (run_Ok _ _ _ _ _ _ H Hjd Hfiles) as (ranking & H1 & H2). split.
  - intros name text Hin [err Herr]. exists ranking. split; [exact H1 |].
    apply (Permutation_in _ (Permutation_sym (ranking_identities _ _ _ H1))).
    apply in_map_iff. exists (VDict []). split; [reflexivity |].
    unfold structured_resumes_of. apply in_map_iff.
    exists (name, text). split; [| exact Hin].
    unfold extract_resume_details. cbn [snd]. rewrite Herr. reflexivity.
  - intros Hnone e He Hname.
    apply (stage2_In _ _ _ _ _ _ _ _ _ _ _ H2) in He.
    destruct He as (d & jt & rs & name & Hd & Hj & Hrs & Hin & ->).
    cbn [combine fused_name] in Hname. subst name.
    assert (Hmiss : dict_find (VStr "Unknown Candidate") d = None).
    { apply (index_by_name_misses _ _ _ Hd).
      eapply Forall_impl; [| exact Hnone]. cbn beta. intros c Hc.
      destruct (key_eqb (VStr "Unknown Candidate") (record_name c)) eqn:Hk;
        [| reflexivity].
      apply key_eqb_str in Hk. congruence. }
    destruct (find_unresolved _ _ _ _ _ _ _ _ _ Hrs Hmiss) as [Hl Hc].
    unfold combine.
    cbn [llm_analysis llm_score cross_score combined_score].
    rewrite Hl, Hc. repeat split.
Qed.

(** X20.  No file operation of the pipeline is in a [try]: when one of
    them raises, the operations before it having returned, the pipeline
    raises the same exception, and nothing after it is run.  In the order
    of the run: reading the job description, writing the structured job
    description, listing the resumes directory, writing the structured
    resumes, writing the Stage 1 ranking, opening it again and writing the
    final ranking. *)
Theorem file_failure_aborts_pipeline (top_n : Z)
    (llm_weights cross_encoder_weight : num) (err : exn) :
  (read_job_description = Raise err ->
   pipeline top_n llm_weights cross_encoder_weight = Raise err) /\
  (forall job_description,
     read_job_description = Ok job_description ->
     (dump_job (job_of job_description) = Raise err ->
      pipeline top_n llm_weights cross_encoder_weight = Raise err) /\
     (returns (dump_job (job_of job_description)) ->
      (iterdir = Raise err ->
       pipeline top_n llm_weights cross_encoder_weight = Raise err) /\
      (forall resume_files,
         iterdir = Ok resume_files ->
         (dump_resumes (resumes_of resume_files) = Raise err ->
          pipeline top_n llm_weights cross_encoder_weight = Raise err) /\
         (forall bi_encoder_ranking,
            returns (dump_resumes (resumes_of resume_files)) ->
            bi_encoder_resume_filtering container_repr similarity
              (job_of job_description) (resumes_of resume_files) =
              Ok bi_encoder_ranking ->
            (dump_ranking bi_encoder_ranking = Raise err ->
             pipeline top_n llm_weights cross_encoder_weight = Raise err) /\
            (returns (dump_ranking bi_encoder_ranking) ->
             (open_ranking = Raise err ->
              pipeline top_n llm_weights cross_encoder_weight = Raise err) /\
             (forall final,
                returns open_ranking ->
                score_and_rank container_repr predict judge bi_encoder_ranking
                  (resumes_of resume_files) (job_of job_description) top_n
                  llm_weights cross_encoder_weight = Ok final ->
                dump_final final = Raise err ->
                pipeline top_n llm_weights cross_encoder_weight =
                  Raise err)))))).
Proof.
  unfold run. split; [intros ->; reflexivity |].
  intros job_description ->. cbn [bind].
  split; [intros ->; reflexivity |]. intros [u1 ->]. cbn [bind].
  split; [intros ->; reflexivity |]. intros resume_files ->. cbn [bind].
  split; [intros ->; reflexivity |]. intros ranking [u2 ->] ->. cbn [bind].
  split; [intros ->; reflexivity |]. intros [u3 ->]. cbn [bind].
  split; [intros ->; reflexivity |]. intros final [u4 ->] H2 H3.
  cbn [bind]. rewrite H2. cbn [bind]. rewrite H3. reflexivity.
Qed.

End PipelineFacts.

(** ** The order of the resumes in the directory *)

Lemma Forall2_mapM {A B : Type} (f : A -> result B) (xs : list A) (ys : list B) :
  Forall2 (fun x y => f x = Ok y) xs ys -> mapM f xs = Ok ys.
Proof.
  induction 1 as [| x y xs ys Hy _ IH]; cbn [mapM]; [reflexivity |].
  rewrite Hy. cbn [bind]. rewrite IH. reflexivity.
Qed.

Lemma Forall2_Permutation {A B : Type} (R : A -> B -> Prop) (l l' : list A)
    (r : list B) :
  Permutation l l' -> Forall2 R l r ->
  exists r', Forall2 R l' r' /\ Permutation r r'.
Proof.
  intros HP. revert r.
  induction HP as [| x l l' _ IH | x y l | l l' l'' _ IH1 _ IH2]; intros r H.
  - inversion H; subst. exists []. split; constructor.
  - inversion H as [| ? b ? r0 Hx Hl]; subst.
    destruct (IH _ Hl) as (r' & Hr' & HP').
    exists (b :: r'). split; constructor; assumption.
  - inversion H as [| ? b ? r0 Hy Hl]; subst.
    inversion Hl as [| ? c ? r1 Hx Hl']; subst.
    exists (c :: b :: r1). split; [repeat constructor; assumption |].
    apply perm_swap.
  - destruct (IH1 _ H) as (r' & Hr' & HP').
    destruct (IH2 _ Hr') as (r'' & Hr'' & HP'').
    exists r''. split; [assumption | eapply perm_trans; eassumption].
Qed.

Lemma descending_unique {E : Type} (lt : E -> E -> bool) (l1 l2 : list E) :
  Permutation l1 l2 -> descending lt l1 -> descending lt l2 ->
  (forall x y, In x l1 -> In y l1 ->
     lt x y = false -> lt y x = false -> x = y) ->
  l1 = l2.
Proof.
  unfold descending. revert l2.
  induction l1 as [| a t1 IH]; intros l2 HP H1 H2 Hties.
  - apply Permutation_nil in HP. congruence.
  - destruct l2 as [| b t2].
    { apply Permutation_sym, Permutation_nil in HP. discriminate. }
    inversion H1 as [| ? ? Ht1 Ha]; subst.
    inversion H2 as [| ? ? Ht2 Hb]; subst.
    rewrite Forall_forall in Ha, Hb.
    assert (Heq : a = b).
    { assert (Ha2 : In a (b :: t2)).
      { apply (Permutation_in _ HP). left. reflexivity. }
      assert (Hb1 : In b (a :: t1)).
      { apply (Permutation_in _ (Permutation_sym HP)). left. reflexivity. }
      destruct Ha2 as [-> | Ha2]; [reflexivity |].
      destruct Hb1 as [-> | Hb1]; [reflexivity |].
      apply Hties; [left; reflexivity | right; exact Hb1 | auto | auto]. }
    subst b. f_equal. apply IH; auto.
    + apply (Permutation_cons_inv HP).
    + intros x y Hx Hy. apply Hties; right; assumption.
Qed.

Lemma Forall2_In_l {A B : Type} (R : A -> B -> Prop) (l : list A) (r : list B)
    (x : A) :
  Forall2 R l r -> In x l -> exists y, R x y.
Proof.
  induction 1 as [| a b l r Hab _ IH]; cbn [In]; [contradiction |].
  intros [<- | Hin]; eauto.
Qed.

Lemma enumerate_turn {A : Type} (start : nat) (l : list A) (x : A) :
  In x l -> exists k, In (k, x) (enumerate start l).
Proof.
  revert start. induction l as [| y l IH]; intros start; cbn [enumerate In];
    [contradiction |].
  intros [-> | Hin]; [exists start; left; reflexivity |].
  destruct (IH (S start) Hin) as [k Hk]. exists k. right. exact Hk.
Qed.

Section ListingOrder.

Context {num : Type} {arith : Arith num}.

Variable container_repr : value -> string.
Variable similarity : string -> string -> result num.
Variable predict : string -> string -> result num.
Variable judge : nat -> value -> value -> result (LLMJudgment num).

(** X13.  The ranking of Stage 1 does not depend on the order in which the
    candidates are given, ties apart: on a reordered pool Stage 1 returns as
    well, with the same entries; and with the same ranking when no two
    different entries have scores neither of which is smaller than the
    other, the scores being ordered by [<]. *)
Theorem stage1_independent_of_pool_order (job : value) (pool pool' : list value)
    (ranked : list (ranking_entry num)) :
  bi_encoder_resume_filtering container_repr similarity job pool = Ok ranked ->
  Permutation pool pool' ->
  exists ranked',
    bi_encoder_resume_filtering container_repr similarity job pool' = Ok ranked' /\
    Permutation ranked ranked' /\
    (strict_weak_on (map rank ranked) ->
     (forall x y, In x ranked -> In y ranked ->
        ltb (rank x) (rank y) = false -> ltb (rank y) (rank x) = false ->
        x = y) ->
     ranked' = ranked).
Proof.
  intros H HP.
  destruct (stage1_Ok _ _ _ _ _ H) as (jt & results & Hj & Hr & Hout).
  destruct (Forall2_Permutation _ _ _ _ HP Hr) as (results' & Hr' & HP').
  exists (py_sorted by_rank true results').
  assert (Hperm : Permutation ranked (py_sorted by_rank true results')).
  { rewrite Hout. eapply perm_trans; [apply py_sorted_perm |].
    eapply perm_trans; [exact HP' |]. apply Permutation_sym, py_sorted_perm. }
  split; [| split; [exact Hperm |]].
  - unfold bi_encoder_resume_filtering. rewrite Hj. cbn [bind].
    rewrite (Forall2_mapM _ _ _ Hr'). reflexivity.
  - intros Hw Hties. symmetry.
    apply (descending_unique by_rank); [exact Hperm | | | exact Hties].
    + rewrite Hout. apply (py_sorted_by_key rank).
      apply strict_weak_on_perm with (2 := Hw).
      rewrite Hout. apply Permutation_map, py_sorted_perm.
    + apply (py_sorted_by_key rank).
      apply strict_weak_on_perm with (2 := Hw).
      apply Permutation_map.
      eapply perm_trans; [exact Hperm |]. apply py_sorted_perm.
Qed.

(** ** Failures of the two models *)

(** X14.  Stage 1 has no handler around the embedder: when the signal text
    of one candidate of the pool cannot be made or the embedder raises on
    it, Stage 1 raises and ranks no candidate at all. *)
Theorem embedder_failure_aborts_stage1 (job : value) (pool : list value)
    (candidate_data : value) (job_des_text : string) :
  In candidate_data pool ->
  format_job_description container_repr job = Ok job_des_text ->
  raises (resume_text <- format_resume container_repr candidate_data ;;
          similarity job_des_text resume_text) ->
  raises (bi_encoder_resume_filtering container_repr similarity job pool).
Proof.
  intros Hin Hj [err Herr].
  destruct (bi_encoder_resume_filtering container_repr similarity job pool)
    as [out | err'] eqn:H; [| eexists; reflexivity].
  exfalso. destruct (stage1_Ok _ _ _ _ _ H) as (jt & results & Hj' & Hr & _).
  assert (jt = job_des_text) by congruence. subst jt.
  destruct (Forall2_In_l _ _ _ _ Hr Hin) as (e & He).
  apply similarity_entry_Ok in He. destruct He as (_ & text & Ht & Hs).
  rewrite Ht in Herr. cbn [bind] in Herr. congruence.
Qed.

(** X15.  Unlike a failure of the Judge, a failure of the pairwise scorer
    is not handled: when, for one of the names of [ranking[:top_n]] that
    has a record, the signal text cannot be made, the scorer raises or the
    rescaling of its score raises (as [math.exp] does on a large argument),
    Stage 2 raises and returns no ranking. *)
Theorem scorer_failure_aborts_stage2
    (bi_encoder_ranking : list (ranking_entry num))
    (structured_resumes : list value) (job : value) (top_n : Z)
    (llm_weight cross_encoder_weight : num)
    (r : ranking_entry num) (candidate_data : value) (job_text : string) :
  In r (py_slice_to bi_encoder_ranking top_n) ->
  find (fun c => key_eqb (candidate_name r) (record_name c))
    (rev structured_resumes) = Some candidate_data ->
  format_job_description container_repr job = Ok job_text ->
  raises (resume_text <- format_resume container_repr candidate_data ;;
          raw_score <- predict job_text resume_text ;;
          rescale raw_score) ->
  raises (score_and_rank container_repr predict judge bi_encoder_ranking
            structured_resumes job top_n llm_weight cross_encoder_weight).
Proof.
  intros Hin Hf Hj [err Herr].
  destruct (score_and_rank container_repr predict judge bi_encoder_ranking
              structured_resumes job top_n llm_weight cross_encoder_weight)
    as [out | err'] eqn:H; [| eexists; reflexivity].
  exfalso. destruct (score_and_rank_Ok _ _ _ _ _ _ _ _ _ _ H)
    as (d & jt & rs & Hd & Hj' & Hrs & _).
  assert (jt = job_text) by congruence. subst jt.
  apply (in_map candidate_name) in Hin.
  destruct (enumerate_turn 0 _ _ Hin) as [k Hk].
  destruct (Forall2_In_l _ _ _ _ Hrs Hk) as (o & Ho). cbn [fst snd] in Ho.
  assert (Hfind : dict_find (candidate_name r) d = Some candidate_data).
  { rewrite (index_by_name_find _ _ _ (candidate_name r) Hd), Hf. reflexivity. }
  unfold score_candidate, dict_lookup in Ho.
  destruct (hashable (candidate_name r)); [| discriminate].
  cbn [bind] in Ho. rewrite Hfind in Ho.
  destruct (format_resume container_repr candidate_data) as [text | e1];
    cbn [bind] in Ho, Herr; [| discriminate].
  destruct (predict job_text text) as [raw | e2];
    cbn [bind] in Ho, Herr; [| discriminate].
  rewrite Herr in Ho. discriminate.
Qed.

End ListingOrder.

(** ** The rescaling of the pairwise score *)

Lemma Ok_injective {A : Type} (a b : A) : Ok a = Ok b -> a = b.
Proof. congruence. Qed.

Lemma SFcompare_opp (x y : spec_float) :
  SFcompare (SFopp y) (SFopp x) = SFcompare x y.
Proof.
  destruct x as [sx | sx | | sx mx ex], y as [sy | sy | | sy my ey];
    try reflexivity; try (destruct sx; reflexivity);
    try (destruct sy; reflexivity);
    try (destruct sx, sy; reflexivity).
  cbn. change (Pos.compare_cont Eq my mx) with (Pos.compare my mx).
  change (Pos.compare_cont Eq mx my) with (Pos.compare mx my).
  rewrite (Z.compare_antisym ex ey), (Pos.compare_antisym mx my).
  destruct sx, sy, (ex ?= ey)%Z, (mx ?= my)%positive; reflexivity.
Qed.

(** X16.  In binary64 the rescaling of the raw pairwise score keeps the
    order of the raw scores, weakly.  When [math.exp] gives, at finite
    arguments, doubles that are positive or zero, and gives no less at a
    greater argument, two finite raw scores of which the first is not
    greater than the second are rescaled, if [math.exp] raises at neither,
    to scores of which the first is not greater than the second.  The raw
    score 0 is rescaled to 5 when [math.exp(-0.0)] is 1. *)
Theorem rescale_keeps_order (libm_exp : spec_float -> result spec_float) :
  (forall x v, B64.finite x = true -> libm_exp x = Ok v ->
     B64.nonneg v = true) ->
  (forall x y vx vy,
     B64.finite x = true -> B64.finite y = true -> SFleb x y = true ->
     libm_exp x = Ok vx -> libm_exp y = Ok vy -> SFleb vx vy = true) ->
  (forall raw1 raw2 score1 score2,
     B64.finite raw1 = true -> B64.finite raw2 = true ->
     SFleb raw1 raw2 = true ->
     @rescale _ (B64.arith libm_exp) raw1 = Ok score1 ->
     @rescale _ (B64.arith libm_exp) raw2 = Ok score2 ->
     SFleb score1 score2 = true) /\
  (libm_exp (SFopp (B64.of_Z 0)) = Ok (B64.of_Z 1) ->
   @rescale _ (B64.arith libm_exp) (B64.of_Z 0) = Ok (B64.of_Z 5)).
Proof.
  intros Hexp Hmono. split.
  - intros raw1 raw2 score1 score2 F1 F2 Hle Hr1 Hr2.
    destruct (libm_exp (SFopp raw1)) as [v1 | err] eqn:Hv1;
      [| rewrite (rescale_raises _ _ _ Hv1) in Hr1; discriminate].
    destruct (libm_exp (SFopp raw2)) as [v2 | err] eqn:Hv2;
      [| rewrite (rescale_raises _ _ _ Hv2) in Hr2; discriminate].
    assert (N1 : B64.nonneg v1 = true).
    { apply (Hexp (SFopp raw1)); [rewrite finite_opp |]; assumption. }
    assert (N2 : B64.nonneg v2 = true).
    { apply (Hexp (SFopp raw2)); [rewrite finite_opp |]; assumption. }
    rewrite (rescale_b64_eq _ _ _ Hv1 N1) in Hr1. apply Ok_injective in Hr1.
    rewrite (rescale_b64_eq _ _ _ Hv2 N2) in Hr2. apply Ok_injective in Hr2.
    subst score1 score2.
    assert (Hv : SFleb v2 v1 = true).
    { apply (Hmono (SFopp raw2) (SFopp raw1)); try assumption;
        try (rewrite finite_opp; assumption).
      unfold SFleb. rewrite SFcompare_opp. exact Hle. }
    destruct (sigmoid_b64 v1 N1) as (Ns1 & L1 & _ & Nq1 & Lq1 & Fq1).
    destruct (sigmoid_b64 v2 N2) as (Ns2 & L2 & _ & Nq2 & Lq2 & Fq2).
    pose (one := B64.of_Z 1).
    fold one in Ns1, L1, Nq1, Lq1, Fq1, Ns2, L2, Nq2, Lq2, Fq2 |- *.
    assert (H1 : B64.nonneg one = true) by reflexivity.
    assert (Hs : SFleb (SFadd B64.prec B64.emax one v2)
                   (SFadd B64.prec B64.emax one v1) = true).
    { apply SFadd_mono; try assumption; reflexivity. }
    apply SFmul_mono; try assumption; try reflexivity.
    destruct (B64.finite (SFadd B64.prec B64.emax one v2)) eqn:Fs2.
    + apply SFdiv_anti; try assumption; try reflexivity.
      pose proof (SFleb_val64 one _ H1 Ns2 eq_refl Fs2 L2).
      assert ((0 < val64 one)%Z) by (vm_compute; reflexivity). lia.
    + assert (Fs1 : B64.finite (SFadd B64.prec B64.emax one v1) = false).
      { destruct (B64.finite (SFadd B64.prec B64.emax one v1)) eqn:Fs1;
          [| reflexivity].
        rewrite (SFleb_finite_l _ _ Ns2 Hs Fs1) in Fs2. discriminate. }
      destruct (nonneg_inv _ Ns1) as [[s E1] | [E1 | (m & e & E1 & _)]];
        rewrite E1 in Fs1 |- *; try discriminate.
      destruct (nonneg_inv _ Ns2) as [[s E2] | [E2 | (m & e & E2 & _)]];
        rewrite E2 in Fs2 |- *; try discriminate.
      reflexivity.
  - intros H0. unfold rescale. cbn [math_exp neg add div mul of_int B64.arith].
    rewrite H0. vm_compute. reflexivity.
Qed.

(** ** [safe_join] *)

Section SafeJoinFacts.

Variable container_repr : value -> string.

(** X17.  [safe_join(items, default)] joins [items] when it is truthy and
    [default] otherwise, so the default stands in for an empty list as well
    as for [None]; with no default, a falsy [items] gives the empty string,
    a list the [str] of its elements separated by spaces, and a string its
    characters separated by spaces.  It raises exactly when the value it
    joins is [True] or a number other than 0. *)
Theorem safe_join_cases (items default : value) :
  (truthy items = true ->
   safe_join container_repr items default = safe_join container_repr items VNone) /\
  (truthy items = false ->
   safe_join container_repr items default =
   safe_join container_repr default VNone) /\
  (truthy items = false -> safe_join container_repr items VNone = Ok ""%string) /\
  (forall l, items = VList l ->
     safe_join container_repr items VNone =
     Ok (String.concat " " (map (py_str container_repr) l))) /\
  (forall s, items = VStr s ->
     safe_join container_repr items VNone =
     Ok (String.concat " "
           (map (fun c => String c EmptyString) (list_ascii_of_string s)))) /\
  (raises (safe_join container_repr items VNone) <->
   items = VBool true \/ exists z, items = VInt z /\ z <> 0%Z).
Proof.
  unfold safe_join, py_or. split; [| split; [| split; [| split; [| split]]]].
  - intros H. rewrite H. cbn [truthy]. rewrite H. reflexivity.
  - intros H. rewrite H.
    destruct (truthy default) eqn:Hd; [rewrite Hd |]; reflexivity.
  - intros H. rewrite H. reflexivity.
  - intros l ->. destruct l; reflexivity.
  - intros s ->. destruct s as [| c s]; [reflexivity |].
    cbn [truthy String.eqb negb py_iter bind]. unfold chars.
    rewrite map_map. reflexivity.
  - split.
    + intros [err H].
      destruct items as [| [|] | z | [| c s] | [| x l] | [| kv d]];
        try (cbn in H; discriminate); [left; reflexivity |].
      right. exists z. split; [reflexivity |]. intros ->. discriminate.
    + intros [-> | (z & -> & Hz)]; [eexists; reflexivity |].
      assert (Ht : truthy (VInt z) = true).
      { cbn. destruct (Z.eqb_spec z 0); [contradiction | reflexivity]. }
      rewrite Ht. cbn iota. rewrite Ht. eexists; reflexivity.
Qed.

End SafeJoinFacts.

(** ** The pipeline on documents of the schema *)








Section Totality.

Context {num : Type} {arith : Arith num}.

Variable container_repr : value -> string.
Variable similarity : string -> string -> result num.
Variable predict : string -> string -> result num.
Variable judge : nat -> value -> value -> result (LLMJudgment num).
Variable read : extractor -> path -> result string.
Variable parse_job : string -> result value.
Variable parse_resume : string -> result value.
Variable read_job_description : result string.
Variable iterdir : result (list path).
Variable dump_job : value -> result unit.
Variable dump_resumes : list value -> result unit.
Variable dump_ranking : list (ranking_entry num) -> result unit.
Variable open_ranking : result unit.
Variable dump_final : list (fusion_entry num) -> result unit.

Hypothesis similarity_returns : forall a b, returns (similarity a b).
Hypothesis predict_returns :
  forall a b, exists raw, predict a b = Ok raw /\ returns (rescale raw).



End Totality.

(** ** Which candidates the models are consulted on *)

Section Consulted.

Context {num : Type} {arith : Arith num}.

Variable container_repr : value -> string.
Variables predict predict' : string -> string -> result num.
Variables judge judge' : nat -> value -> value -> result (LLMJudgment num).

Lemma score_candidates_agree (job : value) (job_text : string)
    (d : list (value * value)) (names : list value) :
  forall request,
  (forall k name candidate_data,
     nth_error names k = Some name ->
     dict_find name d = Some candidate_data ->
     judge (request + k) job candidate_data =
       judge' (request + k) job candidate_data /\
     forall text,
       format_resume container_repr candidate_data = Ok text ->
       predict job_text text = predict' job_text text) ->
  forall L C,
    score_candidates container_repr predict judge job job_text d request
      names L C =
    score_candidates container_repr predict' judge' job job_text d request
      names L C.
Proof.
  induction names as [| name rest IH]; intros request H L C; [reflexivity |].
  cbn [score_candidates]. unfold dict_lookup.
  destruct (hashable name); [| reflexivity]. cbn [bind].
  assert (Hrest : forall k n c, nth_error rest k = Some n ->
            dict_find n d = Some c ->
            judge (S request + k) job c = judge' (S request + k) job c /\
            forall text, format_resume container_repr c = Ok text ->
              predict job_text text = predict' job_text text).
  { intros k n c Hn Hf. destruct (H (S k) n c Hn Hf) as [Hj Hp].
    rewrite Nat.add_succ_r in Hj. split; [exact Hj | exact Hp]. }
  destruct (dict_find name d) as [candidate_data |] eqn:Hfind;
    [| apply IH, Hrest].
  destruct (H 0 name candidate_data eq_refl Hfind) as [Hj Hp].
  rewrite Nat.add_0_r in Hj.
  unfold llm_as_a_judge. rewrite Hj.
  destruct (format_resume container_repr candidate_data) as [text | e];
    [| reflexivity].
  cbn [bind]. rewrite (Hp text eq_refl).
  destruct (predict' job_text text) as [raw | e]; [| reflexivity].
  cbn [bind]. destruct (rescale raw) as [score | e]; [| reflexivity].
  cbn [bind]. apply IH, Hrest.
Qed.

(** X19.  Stage 2 consults the Judge and the pairwise scorer on the records
    of the candidates of [ranking[:top_n]] and on no other: two Judges that
    answer alike, at each request of the loop, on the record the name of that
    turn resolves to, and two scorers that agree on the signal texts of these
    records, give the same result, whatever they say of the other candidates
    and at the other requests. *)
Theorem models_consulted_within_the_gate_only
    (bi_encoder_ranking : list (ranking_entry num))
    (structured_resumes : list value) (job : value) (top_n : Z)
    (llm_weight cross_encoder_weight : num) :
  (forall request r candidate_data,
     nth_error (py_slice_to bi_encoder_ranking top_n) request = Some r ->
     find (fun c => key_eqb (candidate_name r) (record_name c))
       (rev structured_resumes) = Some candidate_data ->
     judge request job candidate_data = judge' request job candidate_data /\
     forall job_text text,
       format_resume container_repr candidate_data = Ok text ->
       predict job_text text = predict' job_text text) ->
  score_and_rank container_repr predict judge bi_encoder_ranking
    structured_resumes job top_n llm_weight cross_encoder_weight =
  score_and_rank container_repr predict' judge' bi_encoder_ranking
    structured_resumes job top_n llm_weight cross_encoder_weight.
Proof.
  intros H. unfold score_and_rank.
  destruct (index_by_name structured_resumes []) as [d | e] eqn:Hd;
    [| reflexivity].
  cbn [bind].
  destruct (format_job_description container_repr job) as [jt | e];
    [| reflexivity].
  cbn [bind]. rewrite (score_candidates_agree job jt d _ 0); [reflexivity |].
  intros k name c Hname Hfind. cbn [Nat.add].
  rewrite nth_error_map in Hname.
  destruct (nth_error (py_slice_to bi_encoder_ranking top_n) k) as [r |] eqn:Hr;
    [| discriminate].
  cbn [option_map] in Hname. injection Hname as <-.
  rewrite (index_by_name_find _ _ _ (candidate_name r) Hd) in Hfind.
  destruct (find _ (rev structured_resumes)) as [c' |] eqn:Hf;
    [| discriminate].
  injection Hfind as ->. destruct (H k r c Hr Hf) as [Hj Hp].
  split; [exact Hj | apply Hp].
Qed.

End Consulted.

(** * Further runs *)

(** The further properties at the sample inputs. *)

Lemma unread_fields_witness :
  agree_on resume_keys PipelineSample.ada_fields PipelineSample.eve_fields /\
  agree_on job_keys [] PipelineSample.job_fields /\
  format_resume repr_elided (VDict PipelineSample.ada_fields) =
    format_resume repr_elided (VDict PipelineSample.eve_fields) /\
  format_job_description repr_elided (VDict []) =
    format_job_description repr_elided (VDict PipelineSample.job_fields).
Proof.
  assert (H1 : agree_on resume_keys PipelineSample.ada_fields
                 PipelineSample.eve_fields).
  { intros key Hin. unfold resume_keys in Hin. in_cases Hin; reflexivity. }
  assert (H2 : agree_on job_keys [] PipelineSample.job_fields).
  { intros key Hin. unfold job_keys in Hin. in_cases Hin; reflexivity. }
  destruct (unread_fields_do_not_matter repr_elided Sample.similarity _ _ _ _
              PipelineSample.job_text H1 H2)
    as (Hr & Hj & _).
  split; [exact H1 |]. split; [exact H2 |]. split; [exact Hr | exact Hj].
Defined.

Lemma stage2_reads_names_only_witness :
  map candidate_name Sample.ranking3 =
    map candidate_name PipelineSample.ranking3_flat /\
  Sample.fusion Sample.ranking3 Sample.resumes3 3 Sample.w07 Sample.w03 =
    Sample.fusion PipelineSample.ranking3_flat Sample.resumes3 3 Sample.w07
      Sample.w03.
Proof.
  split; [reflexivity |].
  exact (@stage2_reads_names_only _ Sample.arith repr_elided Sample.predict
           Sample.judge Sample.ranking3 PipelineSample.ranking3_flat
           Sample.resumes3 Sample.job 3 Sample.w07 Sample.w03 eq_refl).
Defined.

Lemma gate_keeps_the_most_similar_witness :
  Sample.filtering Sample.pool3 = Ok Sample.filtered3 /\
  @strict_weak_on _ Sample.arith (map rank Sample.filtered3) /\
  (forall rest kept left_out,
     Sample.filtered3 = py_slice_to Sample.filtered3 2 ++ rest ->
     In kept (py_slice_to Sample.filtered3 2) -> In left_out rest ->
     SFltb (rank kept) (rank left_out) = false).
Proof.
  assert (Hw : @strict_weak_on _ Sample.arith (map rank Sample.filtered3)).
  { order_on_sample. }
  destruct (@gate_keeps_the_most_similar _ Sample.arith repr_elided
              Sample.similarity Sample.job Sample.pool3 Sample.filtered3 2
              filtering_pool3 Hw) as (_ & Hdom).
  split; [exact filtering_pool3 |]. split; [exact Hw | exact Hdom].
Defined.

Lemma fusion_twins :
  Sample.fusion Sample.filtered_twins Sample.twins 2 Sample.w07 Sample.w03 =
  Ok PipelineSample.fused_twins.
Proof. run. Qed.

Lemma homonyms_witness :
  Sample.fusion Sample.filtered_twins Sample.twins 2 Sample.w07 Sample.w03 =
    Ok PipelineSample.fused_twins /\
  Sample.twins = [Sample.ada] ++ Sample.candidate "Ada" "Analyst" :: [] /\
  forall e, In e PipelineSample.fused_twins ->
    exists job_text request lr cr,
      format_job_description repr_elided Sample.job = Ok job_text /\
      llm_analysis e = Some lr /\
      @scored_from _ Sample.arith repr_elided Sample.predict Sample.judge
        Sample.job job_text request (Sample.candidate "Ada" "Analyst") lr cr /\
      llm_score e = @get_final_score _ Sample.arith (Some lr) /\
      cross_score e = cross_encoder_score cr.
Proof.
  split; [exact fusion_twins |]. split; [reflexivity |].
  intros e He.
  destruct (@homonyms_scored_from_last_record _ Sample.arith repr_elided
              Sample.predict Sample.judge Sample.filtered_twins Sample.twins
              Sample.job 2 Sample.w07 Sample.w03 PipelineSample.fused_twins e
              [Sample.ada] [] (Sample.candidate "Ada" "Analyst") fusion_twins He
              eq_refl)
    as (jt & k & lr & cr & Hj & Hl & _ & _ & Hs & Hls & Hcs).
  - in_cases He; reflexivity.
  - constructor.
  - exists jt, k, lr, cr. auto.
Defined.

Lemma loader_witness :
  load_raw_resume_texts PipelineSample.read PipelineSample.directory =
    [("ada", "Ada"); ("bob", "Bob")]%string /\
  NoDup (map fst (load_raw_resume_texts PipelineSample.read
                    PipelineSample.directory)) /\
  List.length (load_raw_resume_texts PipelineSample.read PipelineSample.directory)
    <= List.length (filter (loaded PipelineSample.read) PipelineSample.directory).
Proof.
  destruct (load_raw_resume_texts_keeps_last_of_a_stem PipelineSample.read
              PipelineSample.directory) as (Hnd & _ & _ & Hlen & _).
  split; [reflexivity |]. split; [exact Hnd | exact Hlen].
Defined.

Lemma pipeline_directory :
  PipelineSample.pipeline PipelineSample.directory 5 = Ok PipelineSample.final.
Proof. run. Qed.

Lemma pipeline_directory_eve :
  PipelineSample.pipeline PipelineSample.directory_eve 5 =
  Ok PipelineSample.final_eve.
Proof. run. Qed.

Lemma final_ranking_size_witness :
  PipelineSample.pipeline PipelineSample.directory 5 = Ok PipelineSample.final /\
  (0 <= 5)%Z /\
  List.length PipelineSample.final =
    Nat.min (Z.to_nat 5)
      (List.length (load_raw_resume_texts PipelineSample.read
                      PipelineSample.directory)) /\
  List.length PipelineSample.final = 2.
Proof.
  destruct (@final_ranking_size _ Sample.arith repr_elided Sample.similarity
              Sample.predict Sample.judge PipelineSample.read
              PipelineSample.parse_job PipelineSample.parse_resume
              (Ok "Engineer wanted") (Ok PipelineSample.directory)
              (@PipelineSample.written value)
              (@PipelineSample.written (list value))
              (@PipelineSample.written (list (ranking_entry spec_float)))
              (Ok tt)
              (@PipelineSample.written (list (fusion_entry spec_float)))
              "Engineer wanted" PipelineSample.directory 5 Sample.w07 Sample.w03
              PipelineSample.final pipeline_directory eq_refl eq_refl)
    as (Hlen & _).
  split; [exact pipeline_directory |]. split; [lia |].
  split; [apply Hlen; lia | reflexivity].
Defined.

Lemma named_candidates_witness :
  PipelineSample.pipeline PipelineSample.directory 5 = Ok PipelineSample.final /\
  structured_resumes_of PipelineSample.read PipelineSample.parse_resume
    PipelineSample.directory = [Sample.ada; Sample.bob] /\
  forall e, In e PipelineSample.final ->
    exists candidate_data job_text request lr cr,
      In candidate_data [Sample.ada; Sample.bob] /\
      record_name candidate_data = fused_name e /\
      format_job_description repr_elided Sample.job = Ok job_text /\
      llm_analysis e = Some lr /\
      @scored_from _ Sample.arith repr_elided Sample.predict Sample.judge
        Sample.job job_text request candidate_data lr cr.
Proof.
  split; [exact pipeline_directory |]. split; [reflexivity |].
  intros e He.
  destruct (@named_candidates_scored_from_own_resume _ Sample.arith repr_elided
              Sample.similarity Sample.predict Sample.judge PipelineSample.read
              PipelineSample.parse_job PipelineSample.parse_resume
              (Ok "Engineer wanted") (Ok PipelineSample.directory)
              (@PipelineSample.written value)
              (@PipelineSample.written (list value))
              (@PipelineSample.written (list (ranking_entry spec_float)))
              (Ok tt)
              (@PipelineSample.written (list (fusion_entry spec_float)))
              "Engineer wanted" PipelineSample.directory 5 Sample.w07 Sample.w03
              PipelineSample.final e pipeline_directory eq_refl eq_refl)
    as (c & jt & k & lr & cr & Hc & Hn & _ & Hj & Hl & _ & Hs & _).
  - repeat constructor; eexists; reflexivity.
  - repeat constructor; cbn; intuition discriminate.
  - exact He.
  - exists c, jt, k, lr, cr. auto.
Defined.

Lemma failed_extractions_witness :
  PipelineSample.pipeline PipelineSample.directory_eve 5 =
    Ok PipelineSample.final_eve /\
  In ("eve", "Eve")%string
    (load_raw_resume_texts PipelineSample.read PipelineSample.directory_eve) /\
  raises (PipelineSample.parse_resume "Eve") /\
  (forall e, In e PipelineSample.final_eve ->
     fused_name e = VStr "Unknown Candidate" ->
     llm_analysis e = None /\
     llm_score e = B64.of_Z 0 /\
     cross_score e = B64.of_Z 0) /\
  In (VStr "Unknown Candidate") (map fused_name PipelineSample.final_eve).
Proof.
  destruct (@failed_extractions_get_zero_scores _ Sample.arith repr_elided
              Sample.similarity Sample.predict Sample.judge PipelineSample.read
              PipelineSample.parse_job PipelineSample.parse_resume
              (Ok "Engineer wanted") (Ok PipelineSample.directory_eve)
              (@PipelineSample.written value)
              (@PipelineSample.written (list value))
              (@PipelineSample.written (list (ranking_entry spec_float)))
              (Ok tt)
              (@PipelineSample.written (list (fusion_entry spec_float)))
              "Engineer wanted" PipelineSample.directory_eve 5 Sample.w07
              Sample.w03 PipelineSample.final_eve pipeline_directory_eve
              eq_refl eq_refl)
    as (_ & Hzero).
  split; [exact pipeline_directory_eve |].
  split; [vm_compute; auto |].
  split; [exists ExternalError; reflexivity |].
  split; [| vm_compute; auto].
  intros e He Hname.
  destruct (Hzero ltac:(repeat constructor; discriminate) e He Hname)
    as (Hl & Hs & Hc & _).
  split; [exact Hl |]. split; [exact Hs | exact Hc].
Defined.

Lemma filtering_pool2 :
  Sample.filtering PipelineSample.pool2 = Ok PipelineSample.filtered2.
Proof. run. Qed.

Lemma pool_order_witness :
  Sample.filtering PipelineSample.pool2 = Ok PipelineSample.filtered2 /\
  Permutation PipelineSample.pool2 [Sample.ada; Sample.bob] /\
  exists ranked',
    Sample.filtering [Sample.ada; Sample.bob] = Ok ranked' /\
    Permutation PipelineSample.filtered2 ranked'.
Proof.
  assert (HP : Permutation PipelineSample.pool2 [Sample.ada; Sample.bob]).
  { apply perm_swap. }
  destruct (@stage1_independent_of_pool_order _ Sample.arith repr_elided
              Sample.similarity Sample.job PipelineSample.pool2
              [Sample.ada; Sample.bob] PipelineSample.filtered2
              filtering_pool2 HP) as (ranked' & H' & Hperm & _).
  split; [exact filtering_pool2 |]. split; [exact HP |].
  exists ranked'. split; [exact H' | exact Hperm].
Defined.

Lemma embedder_failure_witness :
  In Sample.ada PipelineSample.pool2 /\
  format_job_description repr_elided Sample.job = Ok PipelineSample.job_text /\
  raises (resume_text <- format_resume repr_elided Sample.ada ;;
          PipelineSample.similarity_picky PipelineSample.job_text resume_text) /\
  raises (@bi_encoder_resume_filtering _ Sample.arith repr_elided
            PipelineSample.similarity_picky Sample.job PipelineSample.pool2).
Proof.
  assert (Hin : In Sample.ada PipelineSample.pool2) by (right; left; reflexivity).
  assert (Hj : format_job_description repr_elided Sample.job =
               Ok PipelineSample.job_text) by reflexivity.
  assert (Hr : raises (resume_text <- format_resume repr_elided Sample.ada ;;
                       PipelineSample.similarity_picky PipelineSample.job_text
                         resume_text)).
  { exists ExternalError. reflexivity. }
  split; [exact Hin |]. split; [exact Hj |]. split; [exact Hr |].
  exact (@embedder_failure_aborts_stage1 _ Sample.arith repr_elided
           PipelineSample.similarity_picky Sample.job PipelineSample.pool2
           Sample.ada PipelineSample.job_text Hin Hj Hr).
Defined.

Lemma scorer_failure_witness :
  In (Sample.ranked "Ada" 3) (py_slice_to Sample.ranking3 3) /\
  format_job_description repr_elided Sample.job = Ok PipelineSample.job_text /\
  raises (resume_text <- format_resume repr_elided Sample.ada ;;
          raw_score <- PipelineSample.predict_low PipelineSample.job_text
                         resume_text ;;
          @rescale _ Sample.arith raw_score) /\
  raises (@score_and_rank _ Sample.arith repr_elided PipelineSample.predict_low
            Sample.judge Sample.ranking3 Sample.resumes3 Sample.job 3
            Sample.w07 Sample.w03).
Proof.
  assert (Hin : In (Sample.ranked "Ada" 3) (py_slice_to Sample.ranking3 3)).
  { left. reflexivity. }
  assert (Hj : format_job_description repr_elided Sample.job =
               Ok PipelineSample.job_text) by reflexivity.
  assert (Hr : raises (resume_text <- format_resume repr_elided Sample.ada ;;
                       raw_score <- PipelineSample.predict_low
                                      PipelineSample.job_text resume_text ;;
                       @rescale _ Sample.arith raw_score)).
  { exists OverflowError. vm_compute. reflexivity. }
  split; [exact Hin |]. split; [exact Hj |]. split; [exact Hr |].
  exact (@scorer_failure_aborts_stage2 _ Sample.arith repr_elided
           PipelineSample.predict_low Sample.judge Sample.ranking3
           Sample.resumes3 Sample.job 3 Sample.w07 Sample.w03
           (Sample.ranked "Ada" 3) Sample.ada PipelineSample.job_text Hin
           eq_refl Hj Hr).
Defined.


Lemma models_consulted_witness :
  (forall request r candidate_data,
     nth_error (py_slice_to Sample.ranking3 2) request = Some r ->
     find (fun c => key_eqb (candidate_name r) (record_name c))
       (rev Sample.resumes3) = Some candidate_data ->
     Sample.judge request Sample.job candidate_data =
       PipelineSample.judge_of_two request Sample.job candidate_data) /\
  Sample.judge 2 Sample.job Sample.cy <>
    PipelineSample.judge_of_two 2 Sample.job Sample.cy /\
  @score_and_rank _ Sample.arith repr_elided Sample.predict Sample.judge
    Sample.ranking3 Sample.resumes3 Sample.job 2 Sample.w07 Sample.w03 =
  @score_and_rank _ Sample.arith repr_elided Sample.predict
    PipelineSample.judge_of_two Sample.ranking3 Sample.resumes3 Sample.job 2
    Sample.w07 Sample.w03.
Proof.
  assert (H : forall request r candidate_data,
            nth_error (py_slice_to Sample.ranking3 2) request = Some r ->
            find (fun c => key_eqb (candidate_name r) (record_name c))
              (rev Sample.resumes3) = Some candidate_data ->
            Sample.judge request Sample.job candidate_data =
              PipelineSample.judge_of_two request Sample.job candidate_data).
  { intros k r c Hr Hf. apply nth_error_In in Hr.
    in_cases Hr; cbn in Hf; injection Hf as <-; reflexivity. }
  split; [exact H |]. split; [discriminate |].
  apply (@models_consulted_within_the_gate_only _ Sample.arith repr_elided
           Sample.predict Sample.predict Sample.judge
           PipelineSample.judge_of_two).
  intros k r c Hr Hf. split; [exact (H k r c Hr Hf) | reflexivity].
Defined.

Lemma sample_exp_monotone (x y vx vy : spec_float) :
  B64.finite x = true -> B64.finite y = true -> SFleb x y = true ->
  Sample.exp x = Ok vx -> Sample.exp y = Ok vy -> SFleb vx vy = true.
Proof.
  intros _ _ Hle Hx Hy. unfold Sample.exp in Hx, Hy.
  destruct (SFeqb x (B64.of_Z 0)) eqn:X0.
  - apply Ok_injective in Hx. subst vx.
    destruct (SFeqb y (B64.of_Z 0)) eqn:Y0;
      [apply Ok_injective in Hy; subst vy; reflexivity |].
    destruct (SFeqb y (B64.of_Z (-40))) eqn:Y40;
      [| destruct (SFeqb y (B64.of_Z 800)); discriminate].
    exfalso.
    destruct x as [sx | [|] | | [|] mx ex]; try discriminate X0.
    destruct y as [sy | [|] | | [|] my ey]; try discriminate Y40.
    discriminate Hle.
  - destruct (SFeqb x (B64.of_Z (-40))) eqn:X40;
      [| destruct (SFeqb x (B64.of_Z 800)); discriminate].
    apply Ok_injective in Hx. subst vx.
    destruct (SFeqb y (B64.of_Z 0)) eqn:Y0;
      [apply Ok_injective in Hy; subst vy; reflexivity |].
    destruct (SFeqb y (B64.of_Z (-40))) eqn:Y40;
      [apply Ok_injective in Hy; subst vy; reflexivity |].
    destruct (SFeqb y (B64.of_Z 800)); discriminate.
Qed.

Lemma rescale_keeps_order_witness :
  SFleb (B64.of_Z 0) (B64.of_Z 40) = true /\
  @rescale _ Sample.arith (B64.of_Z 0) = Ok (B64.of_Z 5) /\
  @rescale _ Sample.arith (B64.of_Z 40) = Ok (B64.of_Z 10) /\
  SFleb (B64.of_Z 5) (B64.of_Z 10) = true.
Proof.
  assert (H0 : @rescale _ Sample.arith (B64.of_Z 0) = Ok (B64.of_Z 5)) by run.
  assert (H40 : @rescale _ Sample.arith (B64.of_Z 40) = Ok (B64.of_Z 10)) by run.
  destruct (rescale_keeps_order Sample.exp
              (fun x v F H => proj1 (sample_exp_finite x v F H))
              sample_exp_monotone) as [Hm _].
  split; [reflexivity |]. split; [exact H0 |]. split; [exact H40 |].
  exact (Hm (B64.of_Z 0) (B64.of_Z 40) (B64.of_Z 5) (B64.of_Z 10) eq_refl
           eq_refl eq_refl H0 H40).
Defined.
